(** * kick-wss: message normalisation and connection life cycle

    A shallow embedding of [MessageParser] (src/unnamed/part_000, and the
    earlier revision of [parseMessage] in src/src/MessageParser.ts) and of
    [WebSocketManager] (src/src/index.ts, second document) together with the
    properties stated about them.

    Conventions.
    - A JavaScript string is a Rocq [string] holding its UTF-8 bytes.  Every
      string operation of the sources ([startsWith] on an ASCII prefix, [===],
      the emote regular expression, [trim] compared with the empty string) is
      insensitive to that choice of encoding.
    - A JavaScript exception is an explicit [Throw] in the [Completion] monad;
      [try]/[catch] is [try_catch].
    - [JSON.parse], number-to-string conversion and number truthiness are
      services of the JavaScript runtime, not code of the repository: the
      development is parametric in them.
    - Diagnostics ([console] output of the parser, the manager's [log]) are
      not modelled.
    - Handlers registered by callers on the event emitter are outside the
      model: an emission is recorded in the trace of effects, and the
      handlers are taken not to call back into the manager while it runs. *)

From Stdlib Require Import Bool Ascii String List Arith PeanoNat PArith NArith ZArith
  DecimalString Lia.
Import ListNotations.
Local Open Scope string_scope.
Local Open Scope list_scope.

(** ** Strings *)

Module Str.

(** [s.startsWith(p)] *)
Definition startsWith (s p : string) : bool := String.prefix p s.

Definition byte_is (c : ascii) (n : nat) : bool := Nat.eqb (nat_of_ascii c) n.

(** One-byte members of the ECMAScript WhiteSpace and LineTerminator
    productions: TAB, LF, VT, FF, CR, SP. *)
Definition ws1 (c : ascii) : bool :=
  let n := nat_of_ascii c in
  (Nat.leb 9 n && Nat.leb n 13) || Nat.eqb n 32.

(** Two-byte member: U+00A0. *)
Definition ws2 (a b : ascii) : bool := byte_is a 194 && byte_is b 160.

(** Three-byte members: U+1680, U+2000..U+200A, U+2028, U+2029, U+202F,
    U+205F, U+3000, U+FEFF. *)
Definition ws3 (a b c : ascii) : bool :=
  let z := nat_of_ascii c in
  (byte_is a 225 && byte_is b 154 && byte_is c 128)
  || (byte_is a 226 && byte_is b 128
      && ((Nat.leb 128 z && Nat.leb z 138) || Nat.eqb z 168 || Nat.eqb z 169
          || Nat.eqb z 175))
  || (byte_is a 226 && byte_is b 129 && byte_is c 159)
  || (byte_is a 227 && byte_is b 128 && byte_is c 128)
  || (byte_is a 239 && byte_is b 187 && byte_is c 191).

(** [s.trim() === ""]: the string consists of white space only. *)
Fixpoint trim_is_empty (s : string) : bool :=
  match s with
  | EmptyString => true
  | String a s1 =>
      if ws1 a then trim_is_empty s1
      else
        match s1 with
        | EmptyString => false
        | String b s2 =>
            if ws2 a b then trim_is_empty s2
            else
              match s2 with
              | EmptyString => false
              | String c s3 => if ws3 a b c then trim_is_empty s3 else false
              end
        end
  end.

(** [l.join(sep)] on already converted elements. *)
Fixpoint join (sep : string) (l : list string) : string :=
  match l with
  | [] => ""
  | [x] => x
  | x :: rest => x ++ sep ++ join sep rest
  end.

End Str.

(** ** Regular expressions: the fragment used by [cleanEmotes]

    Literal characters and greedy one-or-more repetitions of a character
    class, each repetition being a capture group.  Matching is the
    backtracking search of the ECMAScript pattern semantics: a repetition
    first tries its longest extent and gives characters back one at a time
    while the rest of the pattern fails. *)

Module Regex.

Inductive atom : Type :=
| Chr (c : ascii)
| PlusGroup (cls : ascii -> bool).

Definition result : Type := (list string * string)%type.

Fixpoint match_plus (cls : ascii -> bool) (k : string -> option result)
         (acc : string) (s : string) : option result :=
  match s with
  | EmptyString => None
  | String c s' =>
      if cls c then
        let acc' := (acc ++ String c "")%string in
        match match_plus cls k acc' s' with
        | Some r => Some r
        | None =>
            match k s' with
            | Some (caps, rest) => Some (acc' :: caps, rest)
            | None => None
            end
        end
      else None
  end.

(** [match_here re s]: match [re] at the beginning of [s]; on success the
    captures in group order and the unconsumed suffix. *)
Fixpoint match_here (re : list atom) (s : string) : option result :=
  match re with
  | [] => Some ([], s)
  | Chr c :: re' =>
      match s with
      | String c' s' => if Ascii.eqb c c' then match_here re' s' else None
      | EmptyString => None
      end
  | PlusGroup cls :: re' => match_plus cls (match_here re') "" s
  end.

(** [s.replace(re, subst)] for a global pattern that never matches the empty
    string.  The cursor moves one character at a time; [skip] counts the
    characters of the last match that the cursor still has to pass (the
    distance to [lastIndex]). *)
Fixpoint replace_from (re : list atom) (subst : list string -> string)
         (skip : nat) (s : string) : string :=
  match s with
  | EmptyString => ""
  | String c s' =>
      match skip with
      | S n => replace_from re subst n s'
      | O =>
          match match_here re s with
          | Some (caps, rest) =>
              (subst caps
               ++ replace_from re subst
                    (String.length s - String.length rest - 1) s')%string
          | None => String c (replace_from re subst 0 s')
          end
      end
  end.

Definition replace_all (re : list atom) (subst : list string -> string)
           (s : string) : string :=
  replace_from re subst 0 s.

(** [\d] and [\w] (no unicode flag). *)
Definition digit (c : ascii) : bool :=
  let n := nat_of_ascii c in Nat.leb 48 n && Nat.leb n 57.

Definition word (c : ascii) : bool :=
  let n := nat_of_ascii c in
  (Nat.leb 48 n && Nat.leb n 57)
  || (Nat.leb 65 n && Nat.leb n 90)
  || (Nat.leb 97 n && Nat.leb n 122)
  || Nat.eqb n 95.

Fixpoint lits (s : string) : list atom :=
  match s with
  | EmptyString => []
  | String c s' => Chr c :: lits s'
  end.

Fixpoint all_in (cls : ascii -> bool) (s : string) : bool :=
  match s with
  | EmptyString => true
  | String c s' => cls c && all_in cls s'
  end.

End Regex.

(** ** Completions: values or thrown exceptions *)

Inductive JSError : Type := TypeError | SyntaxError | OtherError (msg : string).

Inductive Completion (A : Type) : Type :=
| Normal (a : A)
| Throw (e : JSError).
Arguments Normal {A} a.
Arguments Throw {A} e.

Definition bind {A B : Type} (c : Completion A) (k : A -> Completion B)
  : Completion B :=
  match c with
  | Normal a => k a
  | Throw e => Throw e
  end.

Notation "x <- c ;; k" := (bind c (fun x => k))
  (at level 61, c at next level, right associativity).

(** [try { body } catch (e) { handler }] *)
Definition try_catch {A : Type} (body : Completion A)
           (handler : JSError -> Completion A) : Completion A :=
  match body with
  | Normal a => Normal a
  | Throw e => handler e
  end.

Fixpoint mapM {A B : Type} (f : A -> Completion B) (l : list A)
  : Completion (list B) :=
  match l with
  | [] => Normal []
  | x :: rest => y <- f x ;; ys <- mapM f rest ;; Normal (y :: ys)
  end.

(** ** Object literals used as tables

    [table[key]] on an object literal whose keys are [tbl]: an own entry, a
    member inherited from [Object.prototype] (a function, or the prototype
    itself for [__proto__]: a truthy value that is no string), or
    [undefined]. *)

Inductive Looked : Type :=
| Own (v : string)
| Inherited
| Absent.

Definition Object_prototype_names : list string :=
  [ "constructor"; "__defineGetter__"; "__defineSetter__"; "hasOwnProperty";
    "__lookupGetter__"; "__lookupSetter__"; "isPrototypeOf";
    "propertyIsEnumerable"; "toString"; "valueOf"; "__proto__";
    "toLocaleString" ].

Fixpoint assoc {V : Type} (k : string) (l : list (string * V)) : option V :=
  match l with
  | [] => None
  | (k', v) :: rest => if String.eqb k k' then Some v else assoc k rest
  end.

Definition mem_string (k : string) (l : list string) : bool :=
  existsb (String.eqb k) l.

Definition record_get (tbl : list (string * string)) (k : string) : Looked :=
  match assoc k tbl with
  | Some v => Own v
  | None => if mem_string k Object_prototype_names then Inherited else Absent
  end.

(** ** The twelve domain kinds *)

Module KickEvent.
(** Wire names.  The parser imports the enum from the [types.ts] of its own
    revision, which is not among the sources.  The first ten members are
    those of the declaration in WebSocketManager.ts, [RewardRedeemed] is
    that of the declaration in src/src/MessageParser.ts; [KicksGifted] is
    declared nowhere in the sources and is a parameter of the parser. *)
Definition ChatMessage := "App\Events\ChatMessageEvent".
Definition MessageDeleted := "App\Events\MessageDeletedEvent".
Definition UserBanned := "App\Events\UserBannedEvent".
Definition UserUnbanned := "App\Events\UserUnbannedEvent".
Definition Subscription := "App\Events\SubscriptionEvent".
Definition GiftedSubscriptions := "App\Events\GiftedSubscriptionsEvent".
Definition PinnedMessageCreated := "App\Events\PinnedMessageCreatedEvent".
Definition StreamHost := "App\Events\StreamHostEvent".
Definition PollUpdate := "App\Events\PollUpdateEvent".
Definition PollDelete := "App\Events\PollDeleteEvent".
Definition RewardRedeemed := "RewardRedeemedEvent".
End KickEvent.

(** The payload discriminator written by the transform of each kind. *)
Definition domain_kinds : list (string * string) :=
  [ ("ChatMessage", "message");
    ("MessageDeleted", "message_deleted");
    ("UserBanned", "user_banned");
    ("UserUnbanned", "user_unbanned");
    ("Subscription", "subscription");
    ("GiftedSubscriptions", "gifted_subscriptions");
    ("PinnedMessageCreated", "pinned_message_created");
    ("StreamHost", "stream_host");
    ("PollUpdate", "poll_update");
    ("PollDelete", "poll_delete");
    ("RewardRedeemed", "reward_redeemed");
    ("KicksGifted", "kicks_gifted") ].

(** ** JavaScript values

    IEEE doubles are kept abstract ([number]): the sources only test a
    number for truthiness, convert it to a string, and write the literal
    [0]. *)

#[local] Set Warnings "-register-all".

Inductive JSValue (number : Type) : Type :=
| JUndefined
| JNull
| JBool (b : bool)
| JNum (n : number)
| JStr (s : string)
| JArr (items : list (JSValue number))
| JObj (fields : list (string * JSValue number)).

Arguments JUndefined {number}.
Arguments JNull {number}.
Arguments JBool {number} b.
Arguments JNum {number} n.
Arguments JStr {number} s.
Arguments JArr {number} items.
Arguments JObj {number} fields.

(** ** A reference JSON decoder

    The development is parametric in [JSON.parse].  To run the parser and
    the manager on concrete wire texts, this is a decoder for the fragment
    of JSON without fractions, exponents and [\u] escapes, numbers being
    integers; outside the fragment it answers [None]. *)

Module Json.

Definition quote : ascii := ascii_of_nat 34.

(** Wire texts are written with ['] for the double quote. *)
Fixpoint dq (s : string) : string :=
  match s with
  | EmptyString => EmptyString
  | String c s' => String (if Ascii.eqb c "'"%char then quote else c) (dq s')
  end.

Inductive token : Type :=
| LBrace | RBrace | LBracket | RBracket | Colon | Comma
| TStr (s : string)
| TNum (z : Z)
| TTrue | TFalse | TNull.

Inductive lex_state : Type :=
| Between
| InString (acc : string)
| InEscape (acc : string)
| InMinus
| InNumber (negative : bool) (leading_zero : bool) (value : N).

Definition digit_value (c : ascii) : option N :=
  let n := nat_of_ascii c in
  if Nat.leb 48 n && Nat.leb n 57 then Some (N.of_nat (n - 48)) else None.

(** White space ([Some None]), punctuation ([Some (Some t)]) or neither. *)
Definition punct (c : ascii) : option (option token) :=
  let n := nat_of_ascii c in
  if Nat.eqb n 32 || Nat.eqb n 9 || Nat.eqb n 10 || Nat.eqb n 13
  then Some None
  else if Ascii.eqb c "{" then Some (Some LBrace)
  else if Ascii.eqb c "}" then Some (Some RBrace)
  else if Ascii.eqb c "[" then Some (Some LBracket)
  else if Ascii.eqb c "]" then Some (Some RBracket)
  else if Ascii.eqb c ":" then Some (Some Colon)
  else if Ascii.eqb c "," then Some (Some Comma)
  else None.

Definition unescape (c : ascii) : option ascii :=
  if Ascii.eqb c quote then Some quote
  else if Ascii.eqb c "\" then Some "\"%char
  else if Ascii.eqb c "/" then Some "/"%char
  else if Ascii.eqb c "b" then Some (ascii_of_nat 8)
  else if Ascii.eqb c "f" then Some (ascii_of_nat 12)
  else if Ascii.eqb c "n" then Some (ascii_of_nat 10)
  else if Ascii.eqb c "r" then Some (ascii_of_nat 13)
  else if Ascii.eqb c "t" then Some (ascii_of_nat 9)
  else None.

Definition number_token (negative : bool) (value : N) : token :=
  TNum (if negative then Z.opp (Z.of_N value) else Z.of_N value).

(** [out] holds the tokens read so far, latest first. *)
Fixpoint lex (st : lex_state) (out : list token) (s : string)
  : option (list token) :=
  match s with
  | EmptyString =>
      match st with
      | Between => Some (rev out)
      | InNumber neg _ v => Some (rev (number_token neg v :: out))
      | _ => None
      end
  | String c s' =>
      match st with
      | Between =>
          match punct c with
          | Some None => lex Between out s'
          | Some (Some t) => lex Between (t :: out) s'
          | None =>
              if Ascii.eqb c quote then lex (InString "") out s'
              else if Ascii.eqb c "-" then lex InMinus out s'
              else
                match digit_value c with
                | Some d => lex (InNumber false (N.eqb d 0) d) out s'
                | None =>
                    match s with
                    | String "t" (String "r" (String "u" (String "e" r))) =>
                        lex Between (TTrue :: out) r
                    | String "f" (String "a" (String "l" (String "s"
                        (String "e" r)))) =>
                        lex Between (TFalse :: out) r
                    | String "n" (String "u" (String "l" (String "l" r))) =>
                        lex Between (TNull :: out) r
                    | _ => None
                    end
                end
          end
      | InString acc =>
          if Ascii.eqb c quote then lex Between (TStr acc :: out) s'
          else if Ascii.eqb c "\" then lex (InEscape acc) out s'
          else if Nat.ltb (nat_of_ascii c) 32 then None
          else lex (InString (acc ++ String c "")) out s'
      | InEscape acc =>
          match unescape c with
          | Some c' => lex (InString (acc ++ String c' "")) out s'
          | None => None
          end
      | InMinus =>
          match digit_value c with
          | Some d => lex (InNumber true (N.eqb d 0) d) out s'
          | None => None
          end
      | InNumber neg lead v =>
          match digit_value c with
          | Some d =>
              if lead then None
              else lex (InNumber neg false (10 * v + d)%N) out s'
          | None =>
              match punct c with
              | Some None => lex Between (number_token neg v :: out) s'
              | Some (Some t) =>
                  lex Between (t :: number_token neg v :: out) s'
              | None => None
              end
          end
      end
  end.

(** A later member replaces an earlier one of the same name. *)
Fixpoint put_member (k : string) (v : JSValue Z)
         (l : list (string * JSValue Z)) : list (string * JSValue Z) :=
  match l with
  | [] => [(k, v)]
  | (k', v') :: rest =>
      if String.eqb k k' then (k, v) :: rest
      else (k', v') :: put_member k v rest
  end.

Fixpoint value (fuel : nat) (ts : list token)
  : option (JSValue Z * list token) :=
  match fuel with
  | O => None
  | S f =>
      match ts with
      | TStr s :: r => Some (JStr s, r)
      | TNum z :: r => Some (JNum z, r)
      | TTrue :: r => Some (JBool true, r)
      | TFalse :: r => Some (JBool false, r)
      | TNull :: r => Some (JNull, r)
      | LBracket :: RBracket :: r => Some (JArr [], r)
      | LBracket :: r =>
          match items f r with
          | Some (l, r') => Some (JArr l, r')
          | None => None
          end
      | LBrace :: RBrace :: r => Some (JObj [], r)
      | LBrace :: r =>
          match members f [] r with
          | Some (l, r') => Some (JObj l, r')
          | None => None
          end
      | _ => None
      end
  end
with items (fuel : nat) (ts : list token)
  : option (list (JSValue Z) * list token) :=
  match fuel with
  | O => None
  | S f =>
      match value f ts with
      | Some (v, Comma :: r) =>
          match items f r with
          | Some (l, r') => Some (v :: l, r')
          | None => None
          end
      | Some (v, RBracket :: r) => Some ([v], r)
      | _ => None
      end
  end
with members (fuel : nat) (acc : list (string * JSValue Z))
             (ts : list token)
  : option (list (string * JSValue Z) * list token) :=
  match fuel with
  | O => None
  | S f =>
      match ts with
      | TStr k :: Colon :: r =>
          match value f r with
          | Some (v, Comma :: r') => members f (put_member k v acc) r'
          | Some (v, RBrace :: r') => Some (put_member k v acc, r')
          | _ => None
          end
      | _ => None
      end
  end.

Definition parse (text : string) : option (JSValue Z) :=
  match lex Between [] text with
  | Some ts =>
      match value (S (List.length ts)) ts with
      | Some (v, []) => Some v
      | _ => None
      end
  | None => None
  end.

(** Integers as numbers: truthiness and decimal printing. *)
Definition truthy (z : Z) : bool := negb (Z.eqb z 0).

Definition toString (z : Z) : string :=
  NilZero.string_of_int (Z.to_int z).

End Json.

(** ** Sample inputs

    Wire texts, a legacy table and a query-string printer used to run the
    development on concrete inputs.  The table of the sources is not
    available; this one has the shape the specification describes, bare
    names mapped to their namespaced form. *)

Module Samples.

Definition legacy_table : list (string * string) :=
  [ ("ChatMessageEvent", KickEvent.ChatMessage);
    ("UserBannedEvent", KickEvent.UserBanned) ].

Definition KicksGifted : string := "KicksGifted".

Definition query (ps : list (string * string)) : string :=
  Str.join "&" (map (fun kv => (fst kv ++ "=" ++ snd kv)%string) ps).

(** A chat message under the namespaced name and under its bare alias. *)
Definition chat_text : string :=
  Json.dq "{'id':'m1','content':'gg [emote:123:Kappa] well played','sender':{'id':7,'username':'ana','slug':'ana'}}".

Definition chat_payload : JSValue Z :=
  JObj [ ("id", JStr "m1");
         ("content", JStr "gg [emote:123:Kappa] well played");
         ("sender", JObj [ ("id", JNum 7%Z); ("username", JStr "ana");
                           ("slug", JStr "ana") ]) ].

Definition chat_frame : string :=
  Json.dq "{'event':'App\\Events\\ChatMessageEvent','data':'{\'id\':\'m1\',\'content\':\'gg [emote:123:Kappa] well played\',\'sender\':{\'id\':7,\'username\':\'ana\',\'slug\':\'ana\'}}'}".

Definition chat_frame_bare : string :=
  Json.dq "{'event':'ChatMessageEvent','data':'{\'id\':\'m1\',\'content\':\'gg [emote:123:Kappa] well played\',\'sender\':{\'id\':7,\'username\':\'ana\',\'slug\':\'ana\'}}'}".

(** A redeemed reward. *)
Definition reward_payload : JSValue Z :=
  JObj [ ("reward_title", JStr "Hydrate"); ("user_id", JNum 7%Z);
         ("username", JStr "ana") ].

Definition reward_frame : string :=
  Json.dq "{'event':'RewardRedeemedEvent','data':'{\'reward_title\':\'Hydrate\',\'user_id\':7,\'username\':\'ana\'}'}".

End Samples.

(** ** The runtime, the parser and the manager *)

Section Runtime.

Variable number : Type.
Variable number_truthy : number -> bool.
Variable number_toString : number -> string.
Variable zero : number.

Local Abbreviation JSValue := (JSValue number).

(** [JSON.parse] on a text: [None] is a thrown [SyntaxError]. *)
Variable JSON_parse : string -> option JSValue.

(** ToBoolean *)
Definition truthy (v : JSValue) : bool :=
  match v with
  | JUndefined | JNull => false
  | JBool b => b
  | JNum n => number_truthy n
  | JStr s => negb (String.eqb s "")
  | JArr _ | JObj _ => true
  end.

Definition nullish (v : JSValue) : bool :=
  match v with
  | JUndefined | JNull => true
  | _ => false
  end.

Definition is_undefined (v : JSValue) : bool :=
  match v with
  | JUndefined => true
  | _ => false
  end.

(** [v === "lit"] *)
Definition is_str (v : JSValue) (lit : string) : bool :=
  match v with
  | JStr s => String.eqb s lit
  | _ => false
  end.

(** [typeof v] *)
Definition typeof (v : JSValue) : string :=
  match v with
  | JUndefined => "undefined"
  | JNull | JArr _ | JObj _ => "object"
  | JBool _ => "boolean"
  | JNum _ => "number"
  | JStr _ => "string"
  end.

Definition isArray (v : JSValue) : bool :=
  match v with
  | JArr _ => true
  | _ => false
  end.

(** [v.k] for the property names read by the sources.  None of them is
    defined on [Object.prototype], [Array.prototype] or on the prototypes of
    the primitive wrappers, so a read succeeds with the own entry of an
    object and with [undefined] everywhere else, except on [undefined] and
    [null], where it throws. *)
Definition get (v : JSValue) (k : string) : Completion JSValue :=
  match v with
  | JUndefined | JNull => Throw TypeError
  | JObj fields =>
      match assoc k fields with
      | Some x => Normal x
      | None => Normal JUndefined
      end
  | _ => Normal JUndefined
  end.

(** [v?.k] *)
Definition get_opt (v : JSValue) (k : string) : Completion JSValue :=
  if nullish v then Normal JUndefined else get v k.

(** [a || b], the right operand evaluated only when needed. *)
Definition or_else (a b : Completion JSValue) : Completion JSValue :=
  x <- a ;; if truthy x then Normal x else b.

(** ToString.  An object without an own [toString] entry prints as
    [[object Object]]; an own entry coming from JSON is not callable and
    neither [valueOf] yields a primitive, which is a [TypeError]. *)
Fixpoint ToString (v : JSValue) : Completion string :=
  match v with
  | JUndefined => Normal "undefined"
  | JNull => Normal "null"
  | JBool true => Normal "true"
  | JBool false => Normal "false"
  | JNum n => Normal (number_toString n)
  | JStr s => Normal s
  | JArr items =>
      parts <- mapM (fun x => if nullish x then Normal "" else ToString x)
                    items ;;
      Normal (Str.join "," parts)
  | JObj fields =>
      match assoc "toString" fields with
      | Some _ => Throw TypeError
      | None => Normal "[object Object]"
      end
  end.

(** [JSON.parse(v)]: the argument is converted to a string first. *)
Definition JSON_parse_value (v : JSValue) : Completion JSValue :=
  text <- ToString v ;;
  match JSON_parse text with
  | Some x => Normal x
  | None => Throw SyntaxError
  end.

(** [v.startsWith(p)] on a value that is neither [undefined] nor [null]:
    only strings have the method. *)
Definition call_startsWith (v : JSValue) (p : string) : Completion bool :=
  match v with
  | JStr s => Normal (Str.startsWith s p)
  | _ => Throw TypeError
  end.

(** [v?.startsWith(p)], used as a condition. *)
Definition opt_startsWith (v : JSValue) (p : string) : Completion bool :=
  if nullish v then Normal false else call_startsWith v p.


(** ** MessageParser (src/unnamed/part_000) *)

(** [LEGACY_EVENT_MAPPING] and [KickEvent.KicksGifted] are imported from the
    [types.ts] of the parser's revision, which is not among the sources.
    The earlier revision of the parser, src/src/MessageParser.ts, has neither:
    it is the instance with an empty table and with [KicksGifted] set to a
    name that an earlier [case] already takes. *)
Variable LEGACY_EVENT_MAPPING : list (string * string).
Variable KickEvent_KicksGifted : string.

(** The pattern of [cleanEmotes]: [/\[emote:(\d+):(\w+)\]/g]. *)
Definition emote_re : list Regex.atom :=
  Regex.lits "[emote:"
  ++ [Regex.PlusGroup Regex.digit; Regex.Chr ":"%char;
      Regex.PlusGroup Regex.word; Regex.Chr "]"%char].

(** The replacement text ["$2"]: the second capture. *)
Definition dollar2 (caps : list string) : string := nth 1 caps "".

Definition cleanEmotes_string (content : string) : string :=
  Regex.replace_all emote_re dollar2 content.

Definition cleanEmotes (content : JSValue) : Completion string :=
  if negb (truthy content) then Normal ""
  else
    match content with
    | JStr s => Normal (cleanEmotes_string s)
    | _ => Throw TypeError (* no [replace] method *)
    end.

Definition parseChatMessage (data : JSValue) : Completion JSValue :=
  id <- get data "id" ;;
  content0 <- get data "content" ;;
  content <- cleanEmotes content0 ;;
  created_at <- get data "created_at" ;;
  sender <- get data "sender" ;;
  sender_id <- get sender "id" ;;
  username <- get sender "username" ;;
  slug <- get sender "slug" ;;
  identity <- get sender "identity" ;;
  color <- or_else (get_opt identity "color") (Normal (JStr "#ffffff")) ;;
  badges <- or_else (get_opt identity "badges") (Normal (JArr [])) ;;
  chatroom <- get data "chatroom" ;;
  chatroom_id <- or_else (get_opt chatroom "id") (Normal (JNum zero)) ;;
  Normal
    (JObj
       [ ("id", id);
         ("content", JStr content);
         ("type", JStr "message");
         ("created_at", created_at);
         ("sender",
           JObj [ ("id", sender_id);
                  ("username", username);
                  ("slug", slug);
                  ("identity", JObj [("color", color); ("badges", badges)]) ]);
         ("chatroom", JObj [("id", chatroom_id)]) ]).

Definition parseMessageDeleted (data : JSValue) : Completion JSValue :=
  message_id <- get data "message_id" ;;
  chatroom_id <- get data "chatroom_id" ;;
  Normal (JObj [ ("message_id", message_id);
                 ("chatroom_id", chatroom_id);
                 ("type", JStr "message_deleted") ]).

Definition parseUserBanned (data : JSValue) : Completion JSValue :=
  username <- or_else (get data "username")
                (or_else (get data "banned_username")
                   (Normal (JStr "unknown"))) ;;
  Normal (JObj [("username", username); ("type", JStr "user_banned")]).

Definition parseUserUnbanned (data : JSValue) : Completion JSValue :=
  username <- or_else (get data "username")
                (or_else (get data "unbanned_username")
                   (Normal (JStr "unknown"))) ;;
  Normal (JObj [("username", username); ("type", JStr "user_unbanned")]).

Definition parseSubscription (data : JSValue) : Completion JSValue :=
  username <- or_else (get data "username")
                (or_else (user <- get data "user" ;; get_opt user "username")
                   (Normal (JStr "unknown"))) ;;
  Normal (JObj [("username", username); ("type", JStr "subscription")]).

Definition parseGiftedSubscriptions (data : JSValue) : Completion JSValue :=
  gifter <-
    or_else (get data "gifted_by")
      (or_else
         (g <- get data "gifter" ;;
          if String.eqb (typeof g) "object" then get g "username"
          else Normal g)
         (Normal (JStr "unknown"))) ;;
  recipients0 <- get data "recipients" ;;
  recipients <-
    match recipients0 with
    | JArr items =>
        mapM (fun r =>
                if String.eqb (typeof r) "string" then Normal r
                else or_else (get r "username") (Normal (JStr "unknown")))
             items
    | _ => Normal []
    end ;;
  Normal (JObj [ ("gifted_by", gifter);
                 ("recipients", JArr recipients);
                 ("type", JStr "gifted_subscriptions") ]).

Definition parsePinnedMessageCreated (data : JSValue) : Completion JSValue :=
  m <- get data "message" ;;
  message <- parseChatMessage m ;;
  Normal (JObj [ ("message", message);
                 ("type", JStr "pinned_message_created") ]).

(** [typeof v === "string" ? v : v?.username || "unknown"] *)
Definition string_or_username (v : JSValue) : Completion JSValue :=
  if String.eqb (typeof v) "string" then Normal v
  else or_else (get_opt v "username") (Normal (JStr "unknown")).

Definition parseStreamHost (data : JSValue) : Completion JSValue :=
  h <- get data "hoster" ;;
  hoster <- string_or_username h ;;
  c <- get data "hosted_channel" ;;
  hostedChannel <- string_or_username c ;;
  Normal (JObj [ ("hoster", hoster);
                 ("hosted_channel", hostedChannel);
                 ("type", JStr "stream_host") ]).

Definition parsePollUpdate (data : JSValue) : Completion JSValue :=
  poll_id <- get data "id" ;;
  question <- get data "question" ;;
  opts <- or_else (get data "options") (Normal (JArr [])) ;;
  options <-
    match opts with
    | JArr items =>
        mapM (fun opt =>
                id <- get opt "id" ;;
                text <- get opt "text" ;;
                votes <- or_else (get opt "votes") (Normal (JNum zero)) ;;
                Normal (JObj [("id", id); ("text", text); ("votes", votes)]))
             items
    | _ => Throw TypeError (* no [map] method *)
    end ;;
  Normal (JObj [ ("poll_id", poll_id);
                 ("question", question);
                 ("options", JArr options);
                 ("type", JStr "poll_update") ]).

Definition parsePollDelete (data : JSValue) : Completion JSValue :=
  poll_id <- get data "id" ;;
  Normal (JObj [("poll_id", poll_id); ("type", JStr "poll_delete")]).

(** An object literal whose members are plain reads [k: v.k]. *)
Definition project (v : JSValue) (names : list string)
  : Completion (list (string * JSValue)) :=
  mapM (fun k => x <- get v k ;; Normal (k, x)) names.

Definition parseRewardRedeemed (data : JSValue) : Completion JSValue :=
  fields <- project data [ "reward_title"; "user_id"; "channel_id";
                           "username"; "user_input";
                           "reward_background_color" ] ;;
  Normal (JObj (fields ++ [("type", JStr "reward_redeemed")])).

Definition parseKicksGifted (data : JSValue) : Completion JSValue :=
  gift_transaction_id <- get data "gift_transaction_id" ;;
  message <- get data "message" ;;
  sender0 <- get data "sender" ;;
  sender <- project sender0 ["id"; "username"; "username_color"] ;;
  gift0 <- get data "gift" ;;
  gift <- project gift0 [ "gift_id"; "name"; "amount"; "type"; "tier";
                          "character_limit"; "pinned_time" ] ;;
  Normal (JObj [ ("gift_transaction_id", gift_transaction_id);
                 ("message", message);
                 ("sender", JObj sender);
                 ("gift", JObj gift);
                 ("type", JStr "kicks_gifted") ]).

(** The value returned by [parseMessage]: [{type, data, legacyType?}]. *)
Record Envelope : Type := mkEnvelope {
  env_type : string;
  env_data : JSValue;
  env_legacyType : option string
}.

(** [LEGACY_EVENT_MAPPING[event] || event]; [None] stands for an inherited
    member of [Object.prototype], which is truthy and equal to no string. *)
Definition normalizeEvent (event : string) : option string :=
  match record_get LEGACY_EVENT_MAPPING event with
  | Own v => if String.eqb v "" then Some event else Some v
  | Inherited => None
  | Absent => Some event
  end.

(** The [switch] of [parseMessage]: cases are tried in source order; [None]
    is the [default] branch. *)
Definition dispatch (normalizedEvent : string) (eventData : JSValue)
  : option (string * Completion JSValue) :=
  if String.eqb normalizedEvent KickEvent.ChatMessage then
    Some ("ChatMessage", parseChatMessage eventData)
  else if String.eqb normalizedEvent KickEvent.MessageDeleted then
    Some ("MessageDeleted", parseMessageDeleted eventData)
  else if String.eqb normalizedEvent KickEvent.UserBanned then
    Some ("UserBanned", parseUserBanned eventData)
  else if String.eqb normalizedEvent KickEvent.UserUnbanned then
    Some ("UserUnbanned", parseUserUnbanned eventData)
  else if String.eqb normalizedEvent KickEvent.Subscription then
    Some ("Subscription", parseSubscription eventData)
  else if String.eqb normalizedEvent KickEvent.GiftedSubscriptions then
    Some ("GiftedSubscriptions", parseGiftedSubscriptions eventData)
  else if String.eqb normalizedEvent KickEvent.PinnedMessageCreated then
    Some ("PinnedMessageCreated", parsePinnedMessageCreated eventData)
  else if String.eqb normalizedEvent KickEvent.StreamHost then
    Some ("StreamHost", parseStreamHost eventData)
  else if String.eqb normalizedEvent KickEvent.PollUpdate then
    Some ("PollUpdate", parsePollUpdate eventData)
  else if String.eqb normalizedEvent KickEvent.PollDelete then
    Some ("PollDelete", parsePollDelete eventData)
  else if String.eqb normalizedEvent KickEvent.RewardRedeemed then
    Some ("RewardRedeemed", parseRewardRedeemed eventData)
  else if String.eqb normalizedEvent KickEvent_KicksGifted then
    Some ("KicksGifted", parseKicksGifted eventData)
  else None.

(** The statements of [parseMessage] after the event data is decoded. *)
Definition parseMessage_mapped (event : string) (eventData : JSValue)
  : Completion (option Envelope) :=
  match normalizeEvent event with
  | None => Normal None
  | Some normalizedEvent =>
      let isLegacyFormat := negb (String.eqb event normalizedEvent) in
      match dispatch normalizedEvent eventData with
      | None => Normal None
      | Some (type, transform) =>
          data <- transform ;;
          Normal (Some {| env_type := type;
                          env_data := data;
                          env_legacyType :=
                            if isLegacyFormat then Some event else None |})
      end
  end.

(** The body of the outer [try] block of [parseMessage]. *)
Definition parseMessage_try (rawMessage : string)
  : Completion (option Envelope) :=
  if String.eqb rawMessage "" || Str.trim_is_empty rawMessage then Normal None
  else
    message <- JSON_parse_value (JStr rawMessage) ;;
    event <- get message "event" ;;
    if negb (truthy event) then Normal None
    else
      data <- get message "data" ;;
      if is_undefined data then Normal None
      else
        p1 <- call_startsWith event "pusher:" ;;
        p2 <- (if p1 then Normal true
               else call_startsWith event "pusher_internal:") ;;
        if p2 then Normal None
        else if is_str event "" || is_str data "" then Normal None
        else
          decoded <-
            try_catch
              (if is_undefined data || is_str data "" then Normal None
               else eventData <- JSON_parse_value data ;;
                    Normal (Some eventData))
              (fun _ => Normal None) ;;
          match decoded, event with
          | None, _ => Normal None
          | Some eventData, JStr ev => parseMessage_mapped ev eventData
          | Some _, _ => Throw TypeError (* excluded by [call_startsWith] *)
          end.

(** [MessageParser.parseMessage]: [None] is [null]. *)
Definition parseMessage (rawMessage : string) : Completion (option Envelope) :=
  try_catch (parseMessage_try rawMessage) (fun _ => Normal None).

(** [MessageParser.isValidMessage] *)
Definition isValidMessage (message : string) : Completion bool :=
  try_catch
    (if String.eqb message "" || Str.trim_is_empty message then Normal false
     else
       parsed <- JSON_parse_value (JStr message) ;;
       event <- get parsed "event" ;;
       if negb (truthy event) then Normal false
       else
         data <- get parsed "data" ;;
         Normal (negb (is_undefined data) && negb (is_str event "")
                 && negb (is_str data "")))
    (fun _ => Normal false).

(** [MessageParser.extractEventType]: [None] is [null]. *)
Definition extractEventType (rawMessage : string)
  : Completion (option JSValue) :=
  try_catch
    (if String.eqb rawMessage "" || Str.trim_is_empty rawMessage
     then Normal None
     else
       message <- JSON_parse_value (JStr rawMessage) ;;
       event <- get message "event" ;;
       if negb (truthy event) then Normal None
       else
         p1 <- call_startsWith event "pusher:" ;;
         p2 <- (if p1 then Normal true
                else call_startsWith event "pusher_internal:") ;;
         if p2 then Normal None
         else if is_str event "" then Normal None
         else Normal (Some event))
    (fun _ => Normal None).

(** ** MessageParser, earlier revision (src/src/MessageParser.ts)

    The transforms, [isValidMessage] and [extractEventType] are those of the
    later revision, word for word; [parseMessage] switches on the wire name
    itself, has no [KicksGifted] case and returns no [legacyType]. *)

Definition dispatch_v1 (event : string) (eventData : JSValue)
  : option (string * Completion JSValue) :=
  if String.eqb event KickEvent.ChatMessage then
    Some ("ChatMessage", parseChatMessage eventData)
  else if String.eqb event KickEvent.MessageDeleted then
    Some ("MessageDeleted", parseMessageDeleted eventData)
  else if String.eqb event KickEvent.UserBanned then
    Some ("UserBanned", parseUserBanned eventData)
  else if String.eqb event KickEvent.UserUnbanned then
    Some ("UserUnbanned", parseUserUnbanned eventData)
  else if String.eqb event KickEvent.Subscription then
    Some ("Subscription", parseSubscription eventData)
  else if String.eqb event KickEvent.GiftedSubscriptions then
    Some ("GiftedSubscriptions", parseGiftedSubscriptions eventData)
  else if String.eqb event KickEvent.PinnedMessageCreated then
    Some ("PinnedMessageCreated", parsePinnedMessageCreated eventData)
  else if String.eqb event KickEvent.StreamHost then
    Some ("StreamHost", parseStreamHost eventData)
  else if String.eqb event KickEvent.PollUpdate then
    Some ("PollUpdate", parsePollUpdate eventData)
  else if String.eqb event KickEvent.PollDelete then
    Some ("PollDelete", parsePollDelete eventData)
  else if String.eqb event KickEvent.RewardRedeemed then
    Some ("RewardRedeemed", parseRewardRedeemed eventData)
  else None.

Definition parseMessage_v1_try (rawMessage : string)
  : Completion (option Envelope) :=
  if String.eqb rawMessage "" || Str.trim_is_empty rawMessage then Normal None
  else
    message <- JSON_parse_value (JStr rawMessage) ;;
    event <- get message "event" ;;
    if negb (truthy event) then Normal None
    else
      data <- get message "data" ;;
      if is_undefined data then Normal None
      else
        p1 <- call_startsWith event "pusher:" ;;
        p2 <- (if p1 then Normal true
               else call_startsWith event "pusher_internal:") ;;
        if p2 then Normal None
        else if is_str event "" || is_str data "" then Normal None
        else
          decoded <-
            try_catch
              (if is_undefined data || is_str data "" then Normal None
               else eventData <- JSON_parse_value data ;;
                    Normal (Some eventData))
              (fun _ => Normal None) ;;
          match decoded, event with
          | None, _ => Normal None
          | Some eventData, JStr ev =>
              match dispatch_v1 ev eventData with
              | None => Normal None
              | Some (type, transform) =>
                  data <- transform ;;
                  Normal (Some {| env_type := type;
                                  env_data := data;
                                  env_legacyType := None |})
              end
          | Some _, _ => Throw TypeError (* excluded by [call_startsWith] *)
          end.

Definition parseMessage_v1 (rawMessage : string)
  : Completion (option Envelope) :=
  try_catch (parseMessage_v1_try rawMessage) (fun _ => Normal None).

(** ** WebSocketManager (src/src/index.ts) *)

Inductive ConnectionState : Type :=
| disconnected
| connecting
| connected
| reconnecting
| error.

Definition ConnectionState_eqb (a b : ConnectionState) : bool :=
  match a, b with
  | disconnected, disconnected
  | connecting, connecting
  | connected, connected
  | reconnecting, reconnecting
  | error, error => true
  | _, _ => false
  end.

(** [Required<KickWebSocketOptions>] *)
Record Options : Type := mkOptions {
  debug : bool;
  autoReconnect : bool;
  reconnectInterval : N;
  connectionTimeout : N;
  filteredEvents : list string
}.

(** [SubscriptionMessage]: [{event, data?: {auth?, channel?}}] *)
Record SubscriptionData : Type := mkSubscriptionData {
  auth : option string;
  channel : option string
}.

Record SubscriptionMessage : Type := mkSubscriptionMessage {
  sm_event : string;
  sm_data : option SubscriptionData
}.

(** [WebSocketConfig] *)
Record WebSocketConfig : Type := mkWebSocketConfig {
  url : option string;
  params : option (list (string * string))
}.

(** [Partial<ExtendedKickWebSocketOptions>] *)
Record PartialOptions : Type := mkPartialOptions {
  p_debug : option bool;
  p_autoReconnect : option bool;
  p_reconnectInterval : option N;
  p_connectionTimeout : option N;
  p_filteredEvents : option (list string);
  p_websocketConfig : option WebSocketConfig;
  p_customSubscriptions : option (list string);
  p_subscriptionMessages : option (list SubscriptionMessage)
}.

(** Handles handed out by the runtime.  A timer handle is a positive
    integer in browsers and an object in Node and Bun: it is always truthy,
    so [if (this.reconnectTimer)] tests for [null] only. *)
Definition TimerId : Type := positive.
Definition PromiseId : Type := positive.
Definition SocketId : Type := positive.
Definition FetchId : Type := positive.

Inductive ReadyState : Type := CONNECTING | OPEN | CLOSING | CLOSED.

(** [Error] values built by the manager, and the transport's error event. *)
Inductive ErrorValue : Type :=
| ConnectionTimeoutError (ms : N)
| WebSocketError
| DisconnectedError (code : N) (reason : string)
| AttemptError (message : string)
| ErrorEvent (socket : SocketId).

(** Frames handed to [ws.send] (before [JSON.stringify]). *)
Inductive Frame : Type :=
| Control (message : SubscriptionMessage)
| Ping.

Inductive Payload : Type :=
| RawPayload (text : string)
| DomainPayload (data : JSValue)
| ReadyPayload (channel : string) (customSubscriptions : list string)
| DisconnectPayload (code : N) (reason : string)
| ErrorPayload (e : ErrorValue)
| FramePayload (message : SubscriptionMessage)
| NoPayload.

(** What the manager does to the outside, in order of occurrence. *)
Inductive Effect : Type :=
| Emit (event : string) (payload : Payload)
| Send (socket : SocketId) (frame : Frame)
| Close (socket : SocketId) (code : N) (reason : string)
| Resolve (promise : PromiseId)
| Reject (promise : PromiseId) (e : ErrorValue)
| NewWebSocket (socket : SocketId) (url : string).

(** The private fields of the class. *)
Record Manager : Type := mkManager {
  ws : option SocketId;
  channelName : string;
  channelId : number;
  connectionState : ConnectionState;
  options : Options;
  reconnectTimer : option TimerId;
  isManualDisconnect : bool;
  connectionResolver : option PromiseId;
  connectionRejector : option PromiseId;
  websocketUrl : string;
  websocketParams : list (string * string);
  customSubscriptions : list string;
  subscriptionMessages : list SubscriptionMessage
}.

(** The callbacks held by the runtime on behalf of the manager. *)
Inductive TimerTask : Type :=
| ConnectTimeout (promise : PromiseId) (* the timeout closure of [connect] *)
| Reconnect.                           (* the closure of [scheduleReconnect] *)

(** Who awaits a [performConnection] in flight. *)
Inductive Awaiter : Type :=
| FromConnect (promise : PromiseId) (timeout : TimerId)
| FromReconnect.

(** The manager together with the part of the runtime it interacts with:
    pending timers, [getChannelInfo] calls in flight, the sockets created so
    far with their [readyState], the [cleanupTimeout] closures registered
    with [once], the next fresh handle, and the effects so far (latest
    last). *)
Record World : Type := mkWorld {
  mgr : Manager;
  timers : list (TimerId * TimerTask);
  fetches : list (FetchId * Awaiter);
  sockets : list (SocketId * ReadyState);
  onceHandlers : list (string * TimerId);
  next : positive;
  trace : list Effect
}.

(** *** Field updates *)

Definition set_ws v (m : Manager) : Manager :=
  mkManager v (channelName m) (channelId m) (connectionState m) (options m)
    (reconnectTimer m) (isManualDisconnect m) (connectionResolver m)
    (connectionRejector m) (websocketUrl m) (websocketParams m)
    (customSubscriptions m) (subscriptionMessages m).

Definition set_channelName v (m : Manager) : Manager :=
  mkManager (ws m) v (channelId m) (connectionState m) (options m)
    (reconnectTimer m) (isManualDisconnect m) (connectionResolver m)
    (connectionRejector m) (websocketUrl m) (websocketParams m)
    (customSubscriptions m) (subscriptionMessages m).

Definition set_channelId v (m : Manager) : Manager :=
  mkManager (ws m) (channelName m) v (connectionState m) (options m)
    (reconnectTimer m) (isManualDisconnect m) (connectionResolver m)
    (connectionRejector m) (websocketUrl m) (websocketParams m)
    (customSubscriptions m) (subscriptionMessages m).

Definition set_connectionState v (m : Manager) : Manager :=
  mkManager (ws m) (channelName m) (channelId m) v (options m)
    (reconnectTimer m) (isManualDisconnect m) (connectionResolver m)
    (connectionRejector m) (websocketUrl m) (websocketParams m)
    (customSubscriptions m) (subscriptionMessages m).

Definition set_options v (m : Manager) : Manager :=
  mkManager (ws m) (channelName m) (channelId m) (connectionState m) v
    (reconnectTimer m) (isManualDisconnect m) (connectionResolver m)
    (connectionRejector m) (websocketUrl m) (websocketParams m)
    (customSubscriptions m) (subscriptionMessages m).

Definition set_reconnectTimer v (m : Manager) : Manager :=
  mkManager (ws m) (channelName m) (channelId m) (connectionState m)
    (options m) v (isManualDisconnect m) (connectionResolver m)
    (connectionRejector m) (websocketUrl m) (websocketParams m)
    (customSubscriptions m) (subscriptionMessages m).

Definition set_isManualDisconnect v (m : Manager) : Manager :=
  mkManager (ws m) (channelName m) (channelId m) (connectionState m)
    (options m) (reconnectTimer m) v (connectionResolver m)
    (connectionRejector m) (websocketUrl m) (websocketParams m)
    (customSubscriptions m) (subscriptionMessages m).

(** [connectionResolver] and [connectionRejector] are always assigned
    together. *)
Definition set_connectionPair resolver rejector (m : Manager) : Manager :=
  mkManager (ws m) (channelName m) (channelId m) (connectionState m)
    (options m) (reconnectTimer m) (isManualDisconnect m) resolver rejector
    (websocketUrl m) (websocketParams m) (customSubscriptions m)
    (subscriptionMessages m).

Definition set_websocketUrl v (m : Manager) : Manager :=
  mkManager (ws m) (channelName m) (channelId m) (connectionState m)
    (options m) (reconnectTimer m) (isManualDisconnect m)
    (connectionResolver m) (connectionRejector m) v (websocketParams m)
    (customSubscriptions m) (subscriptionMessages m).

Definition set_websocketParams v (m : Manager) : Manager :=
  mkManager (ws m) (channelName m) (channelId m) (connectionState m)
    (options m) (reconnectTimer m) (isManualDisconnect m)
    (connectionResolver m) (connectionRejector m) (websocketUrl m) v
    (customSubscriptions m) (subscriptionMessages m).

Definition set_customSubscriptions v (m : Manager) : Manager :=
  mkManager (ws m) (channelName m) (channelId m) (connectionState m)
    (options m) (reconnectTimer m) (isManualDisconnect m)
    (connectionResolver m) (connectionRejector m) (websocketUrl m)
    (websocketParams m) v (subscriptionMessages m).

Definition set_subscriptionMessages v (m : Manager) : Manager :=
  mkManager (ws m) (channelName m) (channelId m) (connectionState m)
    (options m) (reconnectTimer m) (isManualDisconnect m)
    (connectionResolver m) (connectionRejector m) (websocketUrl m)
    (websocketParams m) (customSubscriptions m) v.

Definition with_mgr (f : Manager -> Manager) (w : World) : World :=
  mkWorld (f (mgr w)) (timers w) (fetches w) (sockets w) (onceHandlers w)
    (next w) (trace w).

Definition set_timers v (w : World) : World :=
  mkWorld (mgr w) v (fetches w) (sockets w) (onceHandlers w) (next w)
    (trace w).

Definition set_fetches v (w : World) : World :=
  mkWorld (mgr w) (timers w) v (sockets w) (onceHandlers w) (next w)
    (trace w).

Definition set_sockets v (w : World) : World :=
  mkWorld (mgr w) (timers w) (fetches w) v (onceHandlers w) (next w)
    (trace w).

Definition set_onceHandlers v (w : World) : World :=
  mkWorld (mgr w) (timers w) (fetches w) (sockets w) v (next w) (trace w).

Definition set_next v (w : World) : World :=
  mkWorld (mgr w) (timers w) (fetches w) (sockets w) (onceHandlers w) v
    (trace w).

(** Append one effect to the trace. *)
Definition effect (e : Effect) (w : World) : World :=
  mkWorld (mgr w) (timers w) (fetches w) (sockets w) (onceHandlers w)
    (next w) (trace w ++ [e]).

(** A fresh handle. *)
Definition fresh (w : World) : positive * World :=
  (next w, set_next (Pos.succ (next w)) w).

(** *** Runtime services: timers, sockets, the query string *)

(** [new URLSearchParams(params).toString()] *)
Variable URLSearchParams_toString : list (string * string) -> string.

Fixpoint lookup {V : Type} (k : positive) (l : list (positive * V))
  : option V :=
  match l with
  | [] => None
  | (k', v) :: rest => if Pos.eqb k k' then Some v else lookup k rest
  end.

Definition remove_key {V : Type} (k : positive) (l : list (positive * V))
  : list (positive * V) :=
  filter (fun kv => negb (Pos.eqb k (fst kv))) l.

(** [setTimeout(task, delay)]: the delay passes outside the model, a pending
    timer fires when the runtime says so. *)
Definition setTimeout (task : TimerTask) (w : World) : TimerId * World :=
  let (t, w1) := fresh w in
  (t, set_timers (timers w1 ++ [(t, task)]) w1).

(** [clearTimeout(t)] *)
Definition clearTimeout (t : TimerId) (w : World) : World :=
  set_timers (remove_key t (timers w)) w.

Definition readyState (s : SocketId) (w : World) : ReadyState :=
  match lookup s (sockets w) with
  | Some r => r
  | None => CLOSED
  end.

Definition set_readyState (s : SocketId) (r : ReadyState) (w : World)
  : World :=
  set_sockets
    (map (fun kv => if Pos.eqb s (fst kv) then (fst kv, r) else kv)
         (sockets w)) w.

Definition is_open (s : SocketId) (w : World) : bool :=
  match readyState s w with
  | OPEN => true
  | _ => false
  end.

(** *** EventEmitter *)

(** Modelled from the spec: [EventEmitter] (EventEmitter.ts is not among the
    sources).  [once] registers a handler that is removed after its first
    invocation; [emit] invokes the handlers of the event synchronously.  The
    only handlers the manager registers itself are the [cleanupTimeout]
    closures of [connect], each of which clears one timer. *)
Definition once (event : string) (cleanup : TimerId) (w : World) : World :=
  set_onceHandlers (onceHandlers w ++ [(event, cleanup)]) w.

Definition emit (event : string) (payload : Payload) (w : World) : World :=
  let w1 := effect (Emit event payload) w in
  let here := filter (fun h => String.eqb (fst h) event) (onceHandlers w1) in
  let rest :=
    filter (fun h => negb (String.eqb (fst h) event)) (onceHandlers w1) in
  fold_left (fun acc h => clearTimeout (snd h) acc) here
            (set_onceHandlers rest w1).

(** *** Configuration *)

Definition DEFAULT_WEBSOCKET_URL : string :=
  "wss://ws-us2.pusher.com/app/32cbd69e4b950bf97679".

Definition DEFAULT_WS_PARAMS : list (string * string) :=
  [ ("protocol", "7"); ("client", "js"); ("version", "8.4.0");
    ("flash", "false") ].

Definition put (kv : string * string) (l : list (string * string))
  : list (string * string) :=
  match assoc (fst kv) l with
  | Some _ =>
      map (fun e => if String.eqb (fst kv) (fst e) then kv else e) l
  | None => l ++ [kv]
  end.

(** [{...a, ...b}] *)
Definition spread (a b : list (string * string)) : list (string * string) :=
  fold_left (fun acc kv => put kv acc) b a.

Definition from_option {A : Type} (o : option A) (d : A) : A :=
  match o with
  | Some a => a
  | None => d
  end.

(** [{...o, ...p}] on the option fields. *)
Definition merge_options (o : Options) (p : PartialOptions) : Options :=
  mkOptions (from_option (p_debug p) (debug o))
            (from_option (p_autoReconnect p) (autoReconnect o))
            (from_option (p_reconnectInterval p) (reconnectInterval o))
            (from_option (p_connectionTimeout p) (connectionTimeout o))
            (from_option (p_filteredEvents p) (filteredEvents o)).

Definition default_options : Options := mkOptions false true 5000%N 10000%N [].

(** [constructor(options)] *)
Definition new_manager (o : PartialOptions) : World :=
  let config := p_websocketConfig o in
  let url0 := match config with Some c => url c | None => None end in
  let params0 := match config with Some c => params c | None => None end in
  mkWorld
    (mkManager None "" zero disconnected
       (merge_options default_options o) None false None None
       (match url0 with
        | Some u => if String.eqb u "" then DEFAULT_WEBSOCKET_URL else u
        | None => DEFAULT_WEBSOCKET_URL
        end)
       (spread DEFAULT_WS_PARAMS (from_option params0 []))
       (from_option (p_customSubscriptions o) [])
       (from_option (p_subscriptionMessages o) []))
    [] [] [] [] 1%positive [].

Definition buildWebSocketUrl (w : World) : string :=
  (websocketUrl (mgr w) ++ "?"
   ++ URLSearchParams_toString (websocketParams (mgr w)))%string.

Definition setWebSocketConfig (config : WebSocketConfig) (w : World)
  : World :=
  let w1 :=
    match url config with
    | Some u => if String.eqb u "" then w else with_mgr (set_websocketUrl u) w
    | None => w
    end in
  match params config with
  | Some ps =>
      with_mgr (fun m => set_websocketParams (spread (websocketParams m) ps) m)
               w1
  | None => w1
  end.

Definition getWebSocketConfig (w : World) : WebSocketConfig :=
  mkWebSocketConfig (Some (websocketUrl (mgr w)))
                    (Some (websocketParams (mgr w))).

Definition resetWebSocketConfig (w : World) : World :=
  with_mgr (fun m => set_websocketParams DEFAULT_WS_PARAMS
                       (set_websocketUrl DEFAULT_WEBSOCKET_URL m)) w.

Definition addCustomSubscriptions (channels : list string) (w : World)
  : World :=
  with_mgr (fun m => set_customSubscriptions
                       (customSubscriptions m ++ channels) m) w.

Definition addSubscriptionMessages (messages : list SubscriptionMessage)
           (w : World) : World :=
  with_mgr (fun m => set_subscriptionMessages
                       (subscriptionMessages m ++ messages) m) w.

Definition clearCustomSubscriptions (w : World) : World :=
  with_mgr (fun m => set_subscriptionMessages [] (set_customSubscriptions [] m))
           w.

(** [getCustomSubscriptions()]: [{channels, messages}] *)
Definition getCustomSubscriptions (w : World)
  : list string * list SubscriptionMessage :=
  (customSubscriptions (mgr w), subscriptionMessages (mgr w)).

Definition updateOptions (newOptions : PartialOptions) (w : World) : World :=
  let w1 := with_mgr (fun m => set_options
                                 (merge_options (options m) newOptions) m) w in
  let w2 := match p_websocketConfig newOptions with
            | Some c => setWebSocketConfig c w1
            | None => w1
            end in
  let w3 := match p_customSubscriptions newOptions with
            | Some l => addCustomSubscriptions l w2
            | None => w2
            end in
  match p_subscriptionMessages newOptions with
  | Some l => addSubscriptionMessages l w3
  | None => w3
  end.

(** *** Getters *)

Definition isConnected (w : World) : bool :=
  ConnectionState_eqb (connectionState (mgr w)) connected
  && match ws (mgr w) with
     | Some s => is_open s w
     | None => false
     end.

Definition getConnectionState (w : World) : ConnectionState :=
  connectionState (mgr w).

Definition setConnectionState (s : ConnectionState) (w : World) : World :=
  with_mgr (set_connectionState s) w.

(** *** Subscriptions *)

Definition subscribe_message (channel : string) : SubscriptionMessage :=
  mkSubscriptionMessage "pusher:subscribe"
    (Some (mkSubscriptionData (Some "") (Some channel))).

Definition unsubscribe_message (channel : string) : SubscriptionMessage :=
  mkSubscriptionMessage "pusher:unsubscribe"
    (Some (mkSubscriptionData None (Some channel))).

(** [message.data?.channel] *)
Definition channel_of (message : SubscriptionMessage) : option string :=
  match sm_data message with
  | Some d => channel d
  | None => None
  end.

(** [sendSubscription].  [ws.send] does not throw on an open socket, so the
    [catch] branch (emitting [subscriptionError]) is not reached. *)
Definition sendSubscription (message : SubscriptionMessage) (w : World)
  : World :=
  match ws (mgr w) with
  | Some s =>
      if is_open s w then
        emit "subscriptionSent" (FramePayload message)
             (effect (Send s (Control message)) w)
      else w
  | None => w
  end.

(** The six topics derived from [channelId], in the order they are pushed. *)
Definition derived_topics (id : string) : list string :=
  [ ("chatroom_" ++ id)%string;
    ("chatrooms." ++ id ++ ".v2")%string;
    ("channel_" ++ id)%string;
    ("chatrooms." ++ id)%string;
    ("channel." ++ id)%string;
    ("predictions-channel-" ++ id)%string ].

(** One round of the first loop of [subscribeToChannels]; [subscribed] is
    the [Set] in insertion order. *)
Definition subscribe_topic (acc : list string * World) (channel : string)
  : list string * World :=
  let (subscribed, w) := acc in
  if mem_string channel subscribed then acc
  else (subscribed ++ [channel],
        sendSubscription (subscribe_message channel) w).

(** One round of the second loop. *)
Definition subscribe_custom (acc : list string * World)
           (message : SubscriptionMessage) : list string * World :=
  let (subscribed, w) := acc in
  match channel_of message with
  | Some channel =>
      if negb (String.eqb channel "") && negb (mem_string channel subscribed)
      then (subscribed ++ [channel], sendSubscription message w)
      else acc
  | None => acc
  end.

Definition subscribeToChannels (w : World) : World :=
  match ws (mgr w) with
  | None => w
  | Some _ =>
      let id := number_toString (channelId (mgr w)) in
      let w1 := addCustomSubscriptions (derived_topics id) w in
      let acc1 :=
        fold_left subscribe_topic (customSubscriptions (mgr w1)) ([], w1) in
      let (subscribedChannels, w2) :=
        fold_left subscribe_custom (subscriptionMessages (mgr w1)) acc1 in
      let w3 := setConnectionState connected w2 in
      let w4 := emit "ready"
                  (ReadyPayload (channelName (mgr w3)) subscribedChannels)
                  w3 in
      let w5 := match connectionResolver (mgr w4) with
                | Some p => effect (Resolve p) w4
                | None => w4
                end in
      with_mgr (set_connectionPair None None) w5
  end.

Definition subscribeToChannel (channel : string) (w : World) : World :=
  if isConnected w then sendSubscription (subscribe_message channel) w else w.

Definition unsubscribeFromChannel (channel : string) (w : World) : World :=
  if isConnected w then
    match ws (mgr w) with
    | Some s => effect (Send s (Control (unsubscribe_message channel))) w
    | None => w
    end
  else w.

Definition sendPing (w : World) : World :=
  match ws (mgr w) with
  | Some s =>
      if is_open s w then emit "pingSent" NoPayload (effect (Send s Ping) w)
      else w
  | None => w
  end.

(** *** Connection life cycle *)

(** [this.connectionRejector?.(e)] *)
Definition call_rejector (e : ErrorValue) (w : World) : World :=
  match connectionRejector (mgr w) with
  | Some p => effect (Reject p e) w
  | None => w
  end.

(** The synchronous part of [performConnection], up to the [await] of
    [getChannelInfo]. *)
Definition performConnection (awaiter : Awaiter) (w : World) : World :=
  let w1 := setConnectionState connecting w in
  let (f, w2) := fresh w1 in
  set_fetches (fetches w2 ++ [(f, awaiter)]) w2.

Definition scheduleReconnect (w : World) : World :=
  let w1 := match reconnectTimer (mgr w) with
            | Some t => clearTimeout t w
            | None => w
            end in
  let w2 := setConnectionState reconnecting w1 in
  let (t, w3) := setTimeout Reconnect w2 in
  with_mgr (set_reconnectTimer (Some t)) w3.

(** [if (this.options.autoReconnect && !this.isManualDisconnect)] *)
Definition reconnect_if_enabled (w : World) : World :=
  if autoReconnect (options (mgr w)) && negb (isManualDisconnect (mgr w))
  then scheduleReconnect w
  else w.

Definition handleDisconnect (code : N) (reason : string) (w : World)
  : World :=
  let w1 := setConnectionState disconnected w in
  let w2 := emit "disconnect" (DisconnectPayload code reason) w1 in
  let w3 := call_rejector (DisconnectedError code reason) w2 in
  let w4 := with_mgr (set_connectionPair None None) w3 in
  reconnect_if_enabled w4.

Definition handleConnectionError (e : ErrorValue) (w : World) : World :=
  let w1 := setConnectionState error w in
  let w2 := emit "error" (ErrorPayload e) w1 in
  let w3 := call_rejector e w2 in
  let w4 := with_mgr (set_connectionPair None None) w3 in
  reconnect_if_enabled w4.

Definition connect (name : string) (w : World) : World :=
  match connectionState (mgr w) with
  | connected | connecting => w
  | _ =>
      let w1 := with_mgr (fun m => set_isManualDisconnect false
                                     (set_channelName name m)) w in
      let (p, w2) := fresh w1 in
      let w3 := with_mgr (set_connectionPair (Some p) (Some p)) w2 in
      let (timeout, w4) := setTimeout (ConnectTimeout p) w3 in
      let w5 := once "error" timeout (once "ready" timeout w4) in
      performConnection (FromConnect p timeout) w5
  end.

(** [ws.close(code, reason)] *)
Definition close_socket (s : SocketId) (code : N) (reason : string)
           (w : World) : World :=
  let w1 := effect (Close s code reason) w in
  match readyState s w1 with
  | CONNECTING | OPEN => set_readyState s CLOSING w1
  | _ => w1
  end.

Definition disconnect (w : World) : World :=
  let w1 := with_mgr (set_isManualDisconnect true) w in
  let w2 := match reconnectTimer (mgr w1) with
            | Some t => with_mgr (set_reconnectTimer None) (clearTimeout t w1)
            | None => w1
            end in
  let w3 := match ws (mgr w2) with
            | Some s =>
                with_mgr (set_ws None)
                         (close_socket s 1000%N "Manual disconnect" w2)
            | None => w2
            end in
  setConnectionState disconnected w3.

(** How the awaited part of [performConnection] ends: [getChannelInfo]
    rejects (or its answer has no [chatroom]), the [WebSocket] constructor
    throws, or the socket is created. *)
Inductive AttemptResult : Type :=
| InfoFailed (e : ErrorValue)
| SocketFailed (id : number) (e : ErrorValue)
| SocketCreated (id : number).

(** The [catch] attached to [performConnection()] by its caller. *)
Definition attempt_failed (awaiter : Awaiter) (e : ErrorValue) (w : World)
  : World :=
  match awaiter with
  | FromConnect p timeout => effect (Reject p e) (clearTimeout timeout w)
  | FromReconnect => w
  end.

(** [performConnection] after the [await]. *)
Definition performConnection_resume (awaiter : Awaiter)
           (result : AttemptResult) (w : World) : World :=
  match result with
  | InfoFailed e => attempt_failed awaiter e (handleConnectionError e w)
  | SocketFailed id e =>
      attempt_failed awaiter e
        (handleConnectionError e (with_mgr (set_channelId id) w))
  | SocketCreated id =>
      let w1 := with_mgr (set_channelId id) w in
      let wsUrl := buildWebSocketUrl w1 in
      let (s, w2) := fresh w1 in
      let w3 := effect (NewWebSocket s wsUrl)
                       (set_sockets (sockets w2 ++ [(s, CONNECTING)]) w2) in
      with_mgr (set_ws (Some s)) w3
  end.

(** *** Inbound messages *)

Definition EVENT_TYPE_MAP : list (string * string) :=
  [ (KickEvent.ChatMessage, "ChatMessage");
    (KickEvent.MessageDeleted, "MessageDeleted");
    (KickEvent.UserBanned, "UserBanned");
    (KickEvent.UserUnbanned, "UserUnbanned");
    (KickEvent.Subscription, "Subscription");
    (KickEvent.GiftedSubscriptions, "GiftedSubscriptions");
    (KickEvent.PinnedMessageCreated, "PinnedMessageCreated");
    (KickEvent.StreamHost, "StreamHost");
    (KickEvent.PollUpdate, "PollUpdate");
    (KickEvent.PollDelete, "PollDelete") ].

(** An inherited member of [Object.prototype] is truthy and no element of a
    list of strings. *)
Definition isEventFiltered (eventType : string) (w : World) : bool :=
  match filteredEvents (options (mgr w)) with
  | [] => false
  | _ :: _ =>
      match record_get EVENT_TYPE_MAP eventType with
      | Own standardEventType =>
          if String.eqb standardEventType "" then false
          else negb (mem_string standardEventType
                                (filteredEvents (options (mgr w))))
      | Inherited => true
      | Absent => false
      end
  end.

(** The first [try] block of [handleMessage]: [Some event] when the frame is
    a relay system event, [None] when it is not or when the block throws. *)
Definition system_event (rawMessage : string) : option JSValue :=
  match
    try_catch
      (message <- JSON_parse_value (JStr rawMessage) ;;
       event <- get message "event" ;;
       p1 <- opt_startsWith event "pusher:" ;;
       p2 <- (if p1 then Normal true
              else opt_startsWith event "pusher_internal:") ;;
       Normal (if p2 then Some event else None))
      (fun _ => Normal None)
  with
  | Normal r => r
  | Throw _ => None
  end.

(** [eventType && this.isEventFiltered(eventType)] *)
Definition filtered_out (rawMessage : string) (w : World) : bool :=
  match extractEventType rawMessage with
  | Normal (Some (JStr eventType)) =>
      negb (String.eqb eventType "") && isEventFiltered eventType w
  | _ => false
  end.

Definition handleMessage (rawMessage : string) (w : World) : World :=
  let w1 := emit "rawMessage" (RawPayload rawMessage) w in
  match system_event rawMessage with
  | Some event => if is_str event "pusher:pong" then sendPing w1 else w1
  | None =>
      if filtered_out rawMessage w1 then w1
      else
        match parseMessage rawMessage with
        | Normal (Some parsedMessage) =>
            emit (env_type parsedMessage)
                 (DomainPayload (env_data parsedMessage)) w1
        | _ => w1
        end
  end.

(** *** Callbacks run by the runtime *)

Definition run_timer (task : TimerTask) (w : World) : World :=
  match task with
  | ConnectTimeout p =>
      if ConnectionState_eqb (connectionState (mgr w)) connected then w
      else
        let e := ConnectionTimeoutError (connectionTimeout (options (mgr w))) in
        effect (Reject p e) (handleConnectionError e w)
  | Reconnect => performConnection FromReconnect w
  end.

(** [ws.onerror] *)
Definition onerror (s : SocketId) (w : World) : World :=
  call_rejector WebSocketError (emit "error" (ErrorPayload (ErrorEvent s)) w).

(** Everything that can happen to a manager: a call of its public interface
    or a callback from the runtime. *)
Inductive Event : Type :=
| Call_connect (channelName : string)
| Call_disconnect
| Call_addCustomSubscriptions (channels : list string)
| Call_addSubscriptionMessages (messages : list SubscriptionMessage)
| Call_clearCustomSubscriptions
| Call_subscribeToChannel (channel : string)
| Call_unsubscribeFromChannel (channel : string)
| Call_sendPing
| Call_setWebSocketConfig (config : WebSocketConfig)
| Call_resetWebSocketConfig
| Call_updateOptions (newOptions : PartialOptions)
| ChannelInfo (request : FetchId) (result : AttemptResult)
| TimerFires (timer : TimerId)
| Ws_onopen (socket : SocketId)
| Ws_onmessage (socket : SocketId) (data : string)
| Ws_onclose (socket : SocketId) (code : N) (reason : string)
| Ws_onerror (socket : SocketId).

(** [step w ev]: the world after [ev], or [None] when the runtime cannot
    produce [ev] in [w] (a timer that is not pending, a request that is not
    in flight, a socket in the wrong state).  Sockets keep their handlers
    after the manager has dropped them, so socket events are not restricted
    to the current [ws]. *)
Definition step (w : World) (ev : Event) : option World :=
  match ev with
  | Call_connect name => Some (connect name w)
  | Call_disconnect => Some (disconnect w)
  | Call_addCustomSubscriptions l => Some (addCustomSubscriptions l w)
  | Call_addSubscriptionMessages l => Some (addSubscriptionMessages l w)
  | Call_clearCustomSubscriptions => Some (clearCustomSubscriptions w)
  | Call_subscribeToChannel c => Some (subscribeToChannel c w)
  | Call_unsubscribeFromChannel c => Some (unsubscribeFromChannel c w)
  | Call_sendPing => Some (sendPing w)
  | Call_setWebSocketConfig c => Some (setWebSocketConfig c w)
  | Call_resetWebSocketConfig => Some (resetWebSocketConfig w)
  | Call_updateOptions o => Some (updateOptions o w)
  | ChannelInfo f result =>
      match lookup f (fetches w) with
      | Some awaiter =>
          Some (performConnection_resume awaiter result
                  (set_fetches (remove_key f (fetches w)) w))
      | None => None
      end
  | TimerFires t =>
      match lookup t (timers w) with
      | Some task => Some (run_timer task (clearTimeout t w))
      | None => None
      end
  | Ws_onopen s =>
      match lookup s (sockets w) with
      | Some CONNECTING => Some (subscribeToChannels (set_readyState s OPEN w))
      | _ => None
      end
  | Ws_onmessage s data =>
      match lookup s (sockets w) with
      | Some OPEN | Some CLOSING => Some (handleMessage data w)
      | _ => None
      end
  | Ws_onclose s code reason =>
      match lookup s (sockets w) with
      | Some CLOSED | None => None
      | Some _ => Some (handleDisconnect code reason (set_readyState s CLOSED w))
      end
  | Ws_onerror s =>
      match lookup s (sockets w) with
      | Some CLOSED | None => None
      | Some _ => Some (onerror s w)
      end
  end.

(** Runs of events from a world. *)
Fixpoint run (w : World) (evs : list Event) : option World :=
  match evs with
  | [] => Some w
  | ev :: rest =>
      match step w ev with
      | Some w' => run w' rest
      | None => None
      end
  end.

(** ** Notions used to state the properties *)

(** The emote placeholder [[emote:<digits>:<word>]]. *)
Definition placeholder (digits word : string) : string :=
  ("[emote:" ++ digits ++ ":" ++ word ++ "]")%string.

Definition nonempty_of (cls : ascii -> bool) (s : string) : Prop :=
  s <> "" /\ Regex.all_in cls s = true.

Definition begins_with_placeholder (s : string) : Prop :=
  exists digits word rest,
    nonempty_of Regex.digit digits /\ nonempty_of Regex.word word /\
    s = (placeholder digits word ++ rest)%string.

(** Emote stripping as the specification words it: every placeholder is
    replaced by its word, every other character is kept. *)
Inductive Stripped : string -> string -> Prop :=
| Stripped_end : Stripped "" ""
| Stripped_emote digits word rest out :
    nonempty_of Regex.digit digits ->
    nonempty_of Regex.word word ->
    Stripped rest out ->
    Stripped (placeholder digits word ++ rest) (word ++ out)
| Stripped_char c rest out :
    ~ begins_with_placeholder (String c rest) ->
    Stripped rest out ->
    Stripped (String c rest) (String c out).

(** A well-formed envelope: [type] is one of the twelve domain kinds and
    [data] is an object carrying the discriminator of that kind. *)
Definition well_formed (e : Envelope) : bool :=
  match assoc (env_type e) domain_kinds, env_data e with
  | Some tag, JObj fields =>
      match assoc "type" fields with
      | Some (JStr t) => String.eqb t tag
      | _ => false
      end
  | _, _ => false
  end.

(** The two prefixes reserved to the relay. *)
Definition reserved (event : string) : bool :=
  Str.startsWith event "pusher:" || Str.startsWith event "pusher_internal:".

(** [rawMessage] is the wire text of a frame [{event, data}] whose [data] is
    the JSON text of [eventData]. *)
Definition wire_message (rawMessage event : string) (eventData : JSValue)
  : Prop :=
  exists message text,
    (String.eqb rawMessage "" || Str.trim_is_empty rawMessage) = false /\
    JSON_parse rawMessage = Some message /\
    get message "event" = Normal (JStr event) /\
    get message "data" = Normal (JStr text) /\
    text <> "" /\
    JSON_parse text = Some eventData.

(** [bare] is a legacy alias of [canonical]: the table maps the one to the
    other, both are names a domain event can travel under (not empty, not
    reserved to the relay), and [canonical] is not aliased in turn. *)
Definition legacy_alias (bare canonical : string) : bool :=
  match record_get LEGACY_EVENT_MAPPING bare with
  | Own v => String.eqb v canonical
  | _ => false
  end
  && negb (String.eqb bare "") && negb (String.eqb canonical "")
  && negb (String.eqb bare canonical)
  && negb (reserved bare) && negb (reserved canonical)
  && match normalizeEvent canonical with
     | Some c => String.eqb c canonical
     | None => false
     end.

(** The topics of the control frames sent in a stretch of the trace. *)
Fixpoint sent_topics (effects : list Effect) : list string :=
  match effects with
  | [] => []
  | Send _ (Control message) :: rest =>
      match channel_of message with
      | Some c => c :: sent_topics rest
      | None => sent_topics rest
      end
  | _ :: rest => sent_topics rest
  end.

(** The settle calls made on promise [p] in a stretch of the trace. *)
Fixpoint settle_calls (p : PromiseId) (effects : list Effect) : nat :=
  match effects with
  | [] => 0
  | Resolve q :: rest | Reject q _ :: rest =>
      (if Pos.eqb p q then 1 else 0) + settle_calls p rest
  | _ :: rest => settle_calls p rest
  end.

(** The events emitted in a stretch of the trace. *)
Fixpoint emissions (effects : list Effect) : list (string * Payload) :=
  match effects with
  | [] => []
  | Emit event payload :: rest => (event, payload) :: emissions rest
  | _ :: rest => emissions rest
  end.

(** Along a run: the number of handshakes that went past the guard on [ws],
    and the topics added by callers. *)
Fixpoint handshakes (w : World) (evs : list Event) : nat :=
  match evs with
  | [] => 0
  | ev :: rest =>
      match step w ev with
      | Some w' =>
          match ev, ws (mgr w) with
          | Ws_onopen _, Some _ => S (handshakes w' rest)
          | _, _ => handshakes w' rest
          end
      | None => 0
      end
  end.

Fixpoint caller_added (evs : list Event) : list string :=
  match evs with
  | [] => []
  | Call_addCustomSubscriptions l :: rest => l ++ caller_added rest
  | Call_updateOptions o :: rest =>
      from_option (p_customSubscriptions o) [] ++ caller_added rest
  | _ :: rest => caller_added rest
  end.

Definition is_clear (ev : Event) : bool :=
  match ev with
  | Call_clearCustomSubscriptions => true
  | _ => false
  end.

(** Every channel lookup of the run resolves to the id printed as [id]. *)
Definition resolves_to (id : string) (ev : Event) : Prop :=
  match ev with
  | ChannelInfo _ (SocketCreated i) | ChannelInfo _ (SocketFailed i _) =>
      number_toString i = id
  | _ => True
  end.

(** A manager update that leaves the reconnect timer, the custom
    subscriptions and the channel id alone. *)
Definition keeps_tracked (f : Manager -> Manager) : Prop :=
  forall m,
    reconnectTimer (f m) = reconnectTimer m /\
    customSubscriptions (f m) = customSubscriptions m /\
    channelId (f m) = channelId m.

(** Timer [t] was handed out earlier and is not pending: it can no longer
    fire. *)
Definition timer_retired (t : TimerId) (w : World) : Prop :=
  (t < next w)%positive /\ lookup t (timers w) = None.

(** Timer [t] was handed out earlier and, as long as it is pending, it is the
    one the manager remembers in [reconnectTimer]. *)
Definition reconnect_tracked (t : TimerId) (w : World) : Prop :=
  (t < next w)%positive /\
  (lookup t (timers w) <> None -> reconnectTimer (mgr w) = Some t).

(** The custom subscriptions are [c] and the channel id prints as [id]. *)
Definition subscriptions_are (c : list string) (id : string) (w : World)
  : Prop :=
  customSubscriptions (mgr w) = c /\ number_toString (channelId (mgr w)) = id.

(** What one event appends to the custom subscriptions. *)
Definition appended (id : string) (w : World) (ev : Event) : list string :=
  match ev with
  | Call_addCustomSubscriptions l => l
  | Call_updateOptions o => from_option (p_customSubscriptions o) []
  | Ws_onopen _ =>
      match ws (mgr w) with
      | Some _ => derived_topics id
      | None => []
      end
  | _ => []
  end.

(** Sample configurations: the defaults, and an allow-list holding
    [ChatMessage] only. *)
Definition options_default : PartialOptions :=
  mkPartialOptions None None None None None None None None.

Definition options_chat_only : PartialOptions :=
  mkPartialOptions None None None None (Some ["ChatMessage"]) None None None.

(** *** Auxiliary notions of the proofs *)

(** [s] is empty or begins with a character outside [cls]. *)
Definition stops (cls : ascii -> bool) (s : string) : Prop :=
  match s with
  | EmptyString => True
  | String c _ => cls c = false
  end.

(** [v] is an object whose [type] member is [tag]. *)
Definition tagged (tag : string) (v : JSValue) : Prop :=
  exists fields, v = JObj fields /\ assoc "type" fields = Some (JStr tag).

(** While the handshake loops run: what was sent since [w0] names each topic
    at most once, and only topics recorded in the set. *)
Definition handshake_inv (w0 : World) (acc : list string * World) : Prop :=
  exists more,
    trace (snd acc) = trace w0 ++ more /\
    NoDup (sent_topics more) /\
    (forall t, In t (sent_topics more) -> In t (fst acc)).

(** ** Further notions *)

(** The wire names the [switch] of [parseMessage] knows, with their kinds,
    in the order of the cases. *)
Definition wire_kinds : list (string * string) :=
  EVENT_TYPE_MAP
  ++ [ (KickEvent.RewardRedeemed, "RewardRedeemed");
       (KickEvent_KicksGifted, "KicksGifted") ].

(** [v.k1.k2...] *)
Fixpoint get_path (v : JSValue) (path : list string) : Completion JSValue :=
  match path with
  | [] => Normal v
  | k :: rest => x <- get v k ;; get_path x rest
  end.

(** A normalised name: the input itself when it is a string, a truthy value
    otherwise. *)
Definition kept_or_truthy (input output : JSValue) : Prop :=
  if String.eqb (typeof input) "string" then output = input
  else truthy output = true.

Fixpoint no_bracket (s : string) : bool :=
  match s with
  | EmptyString => true
  | String c s' => negb (Ascii.eqb c "["%char) && no_bracket s'
  end.

(** [input ? input : fallback] for the value of an [a || b] whose left
    operand was read without an exception. *)
Definition or_default (input fallback : JSValue) : JSValue :=
  if truthy input then input else fallback.

(** One entry of the [options] of a poll and its image under the callback of
    [parsePollUpdate]. *)
Definition poll_option (opt out : JSValue) : Prop :=
  exists id text votes,
    get opt "id" = Normal id /\
    get opt "text" = Normal text /\
    get opt "votes" = Normal votes /\
    out = JObj [ ("id", id); ("text", text);
                 ("votes", or_default votes (JNum zero)) ].

(** The payloads on which [parseChatMessage] does not throw: the payload and
    its [sender] are neither [null] nor [undefined], and [content] is falsy
    or a string. *)
Definition chat_ok (d : JSValue) : bool :=
  match get d "content", get d "sender" with
  | Normal content, Normal sender =>
      (negb (truthy content) || String.eqb (typeof content) "string")
      && negb (nullish sender)
  | _, _ => false
  end.

(** The payloads on which [parseKicksGifted] does not throw. *)
Definition kicks_ok (d : JSValue) : bool :=
  match get d "sender", get d "gift" with
  | Normal sender, Normal gift => negb (nullish sender) && negb (nullish gift)
  | _, _ => false
  end.

(** Effects that notify listeners or answer the relay's keep-alive. *)
Definition is_notification (e : Effect) : bool :=
  match e with
  | Emit _ _ => true
  | Send _ Ping => true
  | _ => false
  end.

(** What [sendPing] adds to the trace. *)
Definition ping_effects (w : World) : list Effect :=
  match ws (mgr w) with
  | Some s =>
      if is_open s w then [Send s Ping; Emit "pingSent" NoPayload] else []
  | None => []
  end.

(** The handles of the pending timers that would start a reconnection. *)
Definition pending_reconnects (w : World) : list TimerId :=
  map fst
      (filter (fun kv => match snd kv with
                         | Reconnect => true
                         | ConnectTimeout _ => false
                         end)
              (timers w)).

(** At most one reconnection is pending, and it is the one the manager
    tracks in [reconnectTimer]. *)
Definition one_reconnect (w : World) : Prop :=
  match pending_reconnects w with
  | [] => True
  | [t] => reconnectTimer (mgr w) = Some t
  | _ :: _ :: _ => False
  end.

(** The [once] handlers registered for [event]: the timers they clear. *)
Definition handlers_of (event : string) (w : World) : list TimerId :=
  map snd (filter (fun h => String.eqb (fst h) event) (onceHandlers w)).

(** What the loops of the handshake add to the trace: frames on socket [s],
    which is open, and the notifications of their sending. *)
Definition handshake_frame (w1 : World) (s : SocketId) (e : Effect) : Prop :=
  match e with
  | Send s' _ => s' = s /\ is_open s w1 = true
  | Emit event _ => event = "subscriptionSent"
  | _ => False
  end.

(** The sockets on which the frames of a stretch of the trace were sent. *)
Fixpoint sends_on (effects : list Effect) : list SocketId :=
  match effects with
  | [] => []
  | Send s _ :: rest => s :: sends_on rest
  | _ :: rest => sends_on rest
  end.

(** While the loops of the handshake run on socket [s] from world [w1]:
    the manager and the sockets are untouched, the recorded topics are
    distinct, and the control frames sent so far name exactly the recorded
    topics when [s] is open, and nothing otherwise. *)
Definition handshake_sound (w1 : World) (s : SocketId)
           (acc : list string * World) : Prop :=
  mgr (snd acc) = mgr w1 /\
  sockets (snd acc) = sockets w1 /\
  fetches (snd acc) = fetches w1 /\
  incl (timers (snd acc)) (timers w1) /\
  handlers_of "ready" (snd acc) = handlers_of "ready" w1 /\
  NoDup (fst acc) /\
  exists frames,
    trace (snd acc) = trace w1 ++ frames /\
    sent_topics frames = (if is_open s w1 then fst acc else []) /\
    (forall p, settle_calls p frames = 0) /\
    Forall (handshake_frame w1 s) frames.

(** The topic of a raw subscription envelope that the handshake takes into
    account. *)
Definition envelope_topic (messages : list SubscriptionMessage) (t : string)
  : Prop :=
  exists m, In m messages /\ channel_of m = Some t /\ t <> "".

(** Along a run: the number of handshakes that went past the guard on [ws]
    while the channel id was one from which [topic] is derived. *)
Fixpoint opens_deriving (topic : string) (w : World) (evs : list Event)
  : nat :=
  match evs with
  | [] => 0
  | ev :: rest =>
      match step w ev with
      | Some w' =>
          match ev, ws (mgr w) with
          | Ws_onopen _, Some _ =>
              if mem_string topic
                   (derived_topics (number_toString (channelId (mgr w))))
              then S (opens_deriving topic w' rest)
              else opens_deriving topic w' rest
          | _, _ => opens_deriving topic w' rest
          end
      | None => 0
      end
  end.

(** * Properties *)

(** ** Strings and the emote pattern *)

Lemma string_length_app (a b : string) :
  String.length (a ++ b) = String.length a + String.length b.
Proof. induction a as [|c a IH]; simpl; [reflexivity | now rewrite IH]. Qed.

Lemma string_app_assoc (a b c : string) :
  ((a ++ b) ++ c = a ++ (b ++ c))%string.
Proof. induction a as [|x a IH]; simpl; [reflexivity | now rewrite IH]. Qed.

Lemma string_app_nil_r (a : string) : (a ++ "" = a)%string.
Proof. induction a as [|x a IH]; simpl; [reflexivity | now rewrite IH]. Qed.

Lemma match_plus_stops cls k acc s :
  stops cls s -> Regex.match_plus cls k acc s = None.
Proof.
  destruct s as [|c s]; simpl; [reflexivity|].
  intros ->. reflexivity.
Qed.

(** A repetition takes the whole run when the continuation accepts what
    follows it. *)
Lemma match_plus_greedy cls k taken :
  forall acc s caps rest,
    taken <> "" ->
    Regex.all_in cls taken = true ->
    stops cls s ->
    k s = Some (caps, rest) ->
    Regex.match_plus cls k acc (taken ++ s)
    = Some ((acc ++ taken)%string :: caps, rest).
Proof.
  induction taken as [|c t IH]; intros acc s caps rest Hne Hall Hstop Hk.
  - congruence.
  - simpl in Hall. apply andb_prop in Hall as [Hc Ht].
    simpl. rewrite Hc.
    destruct t as [|c' t'].
    + simpl. rewrite (match_plus_stops _ _ _ _ Hstop), Hk. reflexivity.
    + rewrite (IH (acc ++ String c "")%string s caps rest);
        [| discriminate | exact Ht | exact Hstop | exact Hk].
      rewrite string_app_assoc. reflexivity.
Qed.

(** Whatever a repetition returns, it took a non-empty run of the class and
    the continuation accepted the rest. *)
Lemma match_plus_sound cls k :
  forall s acc caps rest,
    Regex.match_plus cls k acc s = Some (caps, rest) ->
    exists taken s' caps',
      s = (taken ++ s')%string /\ taken <> "" /\
      Regex.all_in cls taken = true /\
      k s' = Some (caps', rest) /\ caps = (acc ++ taken)%string :: caps'.
Proof.
  induction s as [|c s IH]; intros acc caps rest H; simpl in H.
  - discriminate.
  - destruct (cls c) eqn:Hc; [|discriminate].
    destruct (Regex.match_plus cls k (acc ++ String c "") s) as [r|] eqn:Hm.
    + inversion H; subst r; clear H.
      apply IH in Hm as (taken & s' & caps' & -> & Hne & Hall & Hk & ->).
      exists (String c taken), s', caps'. simpl. rewrite Hc, Hall.
      repeat split; try assumption; try discriminate.
      rewrite string_app_assoc. reflexivity.
    + destruct (k s) as [[caps' rest']|] eqn:Hk; [|discriminate].
      inversion H; subst; clear H.
      exists (String c ""), s, caps'. simpl. rewrite Hc.
      repeat split; try assumption; discriminate.
Qed.

Lemma match_here_lits p re s :
  Regex.match_here (Regex.lits p ++ re) (p ++ s) = Regex.match_here re s.
Proof.
  induction p as [|c p IH]; simpl; [reflexivity|].
  rewrite Ascii.eqb_refl. exact IH.
Qed.

Lemma match_here_lits_inv p re :
  forall s r,
    Regex.match_here (Regex.lits p ++ re) s = Some r ->
    exists s', s = (p ++ s')%string /\ Regex.match_here re s' = Some r.
Proof.
  induction p as [|c p IH]; intros s r H; simpl in H.
  - exists s. split; [reflexivity | exact H].
  - destruct s as [|c' s]; [discriminate|].
    destruct (Ascii.eqb c c') eqn:E; [|discriminate].
    apply Ascii.eqb_eq in E; subst c'.
    apply IH in H as (s' & -> & H). exists s'. split; [reflexivity | exact H].
Qed.

Lemma placeholder_app digits word rest :
  (placeholder digits word ++ rest
   = "[emote:" ++ (digits ++ (":" ++ (word ++ ("]" ++ rest)))))%string.
Proof.
  unfold placeholder.
  rewrite !string_app_assoc. reflexivity.
Qed.

(** The pattern matches a placeholder at the head of the text, capturing its
    digits and its word. *)
Lemma emote_match digits word rest :
  nonempty_of Regex.digit digits ->
  nonempty_of Regex.word word ->
  Regex.match_here emote_re (placeholder digits word ++ rest)
  = Some ([digits; word], rest).
Proof.
  intros [Hd1 Hd2] [Hw1 Hw2].
  rewrite placeholder_app. unfold emote_re.
  rewrite match_here_lits.
  change (Regex.match_here (Regex.PlusGroup Regex.digit :: ?re) ?s)
    with (Regex.match_plus Regex.digit (Regex.match_here re) "" s).
  apply (match_plus_greedy Regex.digit _ digits "");
    [exact Hd1 | exact Hd2 | reflexivity |].
  change (Regex.match_here (Regex.Chr ":" :: Regex.PlusGroup Regex.word :: ?re)
            (":" ++ ?s)%string)
    with (Regex.match_plus Regex.word (Regex.match_here re) "" s).
  apply (match_plus_greedy Regex.word _ word "");
    [exact Hw1 | exact Hw2 | reflexivity | reflexivity].
Qed.

(** The pattern matches nothing else. *)
Lemma emote_match_inv s caps rest :
  Regex.match_here emote_re s = Some (caps, rest) ->
  exists digits word,
    nonempty_of Regex.digit digits /\ nonempty_of Regex.word word /\
    s = (placeholder digits word ++ rest)%string /\ caps = [digits; word].
Proof.
  unfold emote_re. intros H.
  apply match_here_lits_inv in H as (s1 & -> & H).
  change (Regex.match_here (Regex.PlusGroup Regex.digit :: ?re) ?s)
    with (Regex.match_plus Regex.digit (Regex.match_here re) "" s) in H.
  apply match_plus_sound in H as (digits & s2 & caps2 & -> & Hd1 & Hd2 & H & ->).
  destruct s2 as [|c s2]; [discriminate|].
  cbn [Regex.match_here] in H.
  destruct (Ascii.eqb ":" c) eqn:E; [|discriminate].
  apply Ascii.eqb_eq in E; subst c.
  apply match_plus_sound in H as (word & s3 & caps3 & -> & Hw1 & Hw2 & H & ->).
  destruct s3 as [|c s3]; [discriminate|].
  cbn [Regex.match_here] in H.
  destruct (Ascii.eqb "]" c) eqn:E; [|discriminate].
  apply Ascii.eqb_eq in E; subst c.
  inversion H; subst; clear H.
  exists digits, word. repeat split; try assumption.
  rewrite placeholder_app. reflexivity.
Qed.

Lemma replace_from_skip re subst a b :
  Regex.replace_from re subst (String.length a) (a ++ b)
  = Regex.replace_from re subst 0 b.
Proof.
  induction a as [|c a IH]; simpl; [reflexivity | exact IH].
Qed.

Lemma cleanEmotes_string_placeholder digits word rest :
  nonempty_of Regex.digit digits ->
  nonempty_of Regex.word word ->
  cleanEmotes_string (placeholder digits word ++ rest)
  = (word ++ cleanEmotes_string rest)%string.
Proof.
  intros Hd Hw.
  pose proof (emote_match digits word rest Hd Hw) as Hm.
  unfold cleanEmotes_string, Regex.replace_all.
  remember (placeholder digits word ++ rest)%string as s eqn:Hs.
  assert (Hshape : s = String "[" (("emote:" ++ digits ++ ":" ++ word ++ "]")
                                     ++ rest)).
  { subst s. unfold placeholder. reflexivity. }
  rewrite Hshape in Hm |- *.
  cbn [Regex.replace_from]. rewrite Hm.
  cbn [dollar2 nth]. f_equal.
  cbn [String.length]. rewrite string_length_app.
  replace (S (String.length ("emote:" ++ digits ++ ":" ++ word ++ "]")
              + String.length rest) - String.length rest - 1)
    with (String.length ("emote:" ++ digits ++ ":" ++ word ++ "]")) by lia.
  apply replace_from_skip.
Qed.

Lemma cleanEmotes_string_other c rest :
  Regex.match_here emote_re (String c rest) = None ->
  cleanEmotes_string (String c rest) = String c (cleanEmotes_string rest).
Proof.
  intros H. unfold cleanEmotes_string, Regex.replace_all.
  cbn [Regex.replace_from]. rewrite H. reflexivity.
Qed.

(** [cleanEmotes] on a string computes what the specification describes. *)
Lemma cleanEmotes_string_spec (s : string) :
  Stripped s (cleanEmotes_string s).
Proof.
  remember (String.length s) as n eqn:Hn.
  revert s Hn. induction n as [n IH] using lt_wf_ind. intros s Hn.
  destruct s as [|c s'].
  - apply Stripped_end.
  - destruct (Regex.match_here emote_re (String c s')) as [[caps rest]|] eqn:Hm.
    + apply emote_match_inv in Hm as (digits & word & Hd & Hw & Hs & _).
      rewrite Hs. rewrite cleanEmotes_string_placeholder by assumption.
      apply Stripped_emote; try assumption.
      apply (IH (String.length rest)); [|reflexivity].
      subst n. rewrite Hs, string_length_app. unfold placeholder. simpl. lia.
    + rewrite cleanEmotes_string_other by exact Hm.
      apply Stripped_char.
      * intros (digits & word & rest & Hd & Hw & Hs).
        rewrite Hs, (emote_match digits word rest Hd Hw) in Hm. discriminate.
      * apply (IH (String.length s')); [subst n; simpl; lia | reflexivity].
Qed.

(** The specification determines the output: nothing but what [cleanEmotes]
    computes is related to the input. *)
Lemma Stripped_unique (s out : string) :
  Stripped s out -> out = cleanEmotes_string s.
Proof.
  induction 1 as [|digits word rest out Hd Hw _ IH|c rest out Hno _ IH].
  - reflexivity.
  - rewrite cleanEmotes_string_placeholder by assumption. now rewrite IH.
  - rewrite cleanEmotes_string_other; [now rewrite IH|].
    destruct (Regex.match_here emote_re (String c rest)) as [[caps tail]|] eqn:Hm;
      [|reflexivity].
    exfalso. apply Hno.
    apply emote_match_inv in Hm as (digits & word & Hd & Hw & Hs & _).
    exists digits, word, tail. auto.
Qed.

(** ** The transforms produce objects tagged with their kind *)

Ltac bind_inv H :=
  repeat match type of H with
         | bind ?c _ = Normal _ =>
             let E := fresh "E" in
             destruct c eqn:E; cbn [bind] in H; [|discriminate H]
         end.

Ltac tagged_result H :=
  bind_inv H; inversion H; subst; eexists; split; [reflexivity | reflexivity].

Lemma parseChatMessage_tagged d v :
  parseChatMessage d = Normal v -> tagged "message" v.
Proof. unfold parseChatMessage. intros H. tagged_result H. Qed.

Lemma parseMessageDeleted_tagged d v :
  parseMessageDeleted d = Normal v -> tagged "message_deleted" v.
Proof. unfold parseMessageDeleted. intros H. tagged_result H. Qed.

Lemma parseUserBanned_tagged d v :
  parseUserBanned d = Normal v -> tagged "user_banned" v.
Proof. unfold parseUserBanned. intros H. tagged_result H. Qed.

Lemma parseUserUnbanned_tagged d v :
  parseUserUnbanned d = Normal v -> tagged "user_unbanned" v.
Proof. unfold parseUserUnbanned. intros H. tagged_result H. Qed.

Lemma parseSubscription_tagged d v :
  parseSubscription d = Normal v -> tagged "subscription" v.
Proof. unfold parseSubscription. intros H. tagged_result H. Qed.

Lemma parseGiftedSubscriptions_tagged d v :
  parseGiftedSubscriptions d = Normal v -> tagged "gifted_subscriptions" v.
Proof. unfold parseGiftedSubscriptions. intros H. tagged_result H. Qed.

Lemma parsePinnedMessageCreated_tagged d v :
  parsePinnedMessageCreated d = Normal v -> tagged "pinned_message_created" v.
Proof. unfold parsePinnedMessageCreated. intros H. tagged_result H. Qed.

Lemma parseStreamHost_tagged d v :
  parseStreamHost d = Normal v -> tagged "stream_host" v.
Proof. unfold parseStreamHost. intros H. tagged_result H. Qed.

Lemma parsePollUpdate_tagged d v :
  parsePollUpdate d = Normal v -> tagged "poll_update" v.
Proof. unfold parsePollUpdate. intros H. tagged_result H. Qed.

Lemma parsePollDelete_tagged d v :
  parsePollDelete d = Normal v -> tagged "poll_delete" v.
Proof. unfold parsePollDelete. intros H. tagged_result H. Qed.

Lemma project_names v : forall names fields,
  project v names = Normal fields -> map fst fields = names.
Proof.
  unfold project.
  induction names as [|k names IH]; intros fields H; cbn [mapM] in H.
  - inversion H. reflexivity.
  - destruct (get v k) as [x|]; cbn [bind] in H; [|discriminate].
    destruct (mapM _ names) as [l|]; cbn [bind] in H; [|discriminate].
    inversion H; subst; clear H.
    cbn [map fst]. f_equal. apply IH. reflexivity.
Qed.

Lemma assoc_app_absent {V : Type} k (l l' : list (string * V)) :
  mem_string k (map fst l) = false -> assoc k (l ++ l') = assoc k l'.
Proof.
  induction l as [|[k' x] l IH]; cbn; [reflexivity|].
  intros H. apply orb_false_elim in H as [-> H]. exact (IH H).
Qed.

Lemma parseRewardRedeemed_tagged d v :
  parseRewardRedeemed d = Normal v -> tagged "reward_redeemed" v.
Proof.
  unfold parseRewardRedeemed. intros H. bind_inv H.
  inversion H; subst; clear H.
  eexists; split; [reflexivity|].
  rewrite assoc_app_absent; [reflexivity|].
  rewrite (project_names _ _ _ E). reflexivity.
Qed.

Lemma parseKicksGifted_tagged d v :
  parseKicksGifted d = Normal v -> tagged "kicks_gifted" v.
Proof. unfold parseKicksGifted. intros H. tagged_result H. Qed.

Lemma dispatch_tagged normalizedEvent d type transform v :
  dispatch normalizedEvent d = Some (type, transform) ->
  transform = Normal v ->
  exists tag, assoc type domain_kinds = Some tag /\ tagged tag v.
Proof.
  unfold dispatch. intros H Hv.
  repeat match type of H with
         | (if ?b then _ else _) = _ =>
             destruct b;
             [inversion H; subst; clear H; eexists; split;
              [reflexivity
              | eauto using parseChatMessage_tagged, parseMessageDeleted_tagged,
                  parseUserBanned_tagged, parseUserUnbanned_tagged,
                  parseSubscription_tagged, parseGiftedSubscriptions_tagged,
                  parsePinnedMessageCreated_tagged, parseStreamHost_tagged,
                  parsePollUpdate_tagged, parsePollDelete_tagged,
                  parseRewardRedeemed_tagged, parseKicksGifted_tagged]
             |]
         end.
  discriminate.
Qed.

Lemma parseMessage_mapped_well_formed event d e :
  parseMessage_mapped event d = Normal (Some e) -> well_formed e = true.
Proof.
  unfold parseMessage_mapped. intros H.
  destruct (normalizeEvent event) as [n|]; [|discriminate].
  destruct (dispatch n d) as [[type transform]|] eqn:Hd; [|discriminate].
  destruct transform as [v|err] eqn:Ht; cbn [bind] in H; [|discriminate].
  inversion H; subst e; clear H.
  destruct (dispatch_tagged _ _ _ _ v Hd eq_refl)
    as (tag & Htag & fields & -> & Hfield).
  unfold well_formed; cbn [env_type env_data].
  rewrite Htag, Hfield. apply String.eqb_refl.
Qed.

(** Whatever [parseMessage] returns was produced by the [switch]. *)
Lemma parseMessage_try_mapped rawMessage e :
  parseMessage_try rawMessage = Normal (Some e) ->
  exists event d, parseMessage_mapped event d = Normal (Some e).
Proof.
  unfold parseMessage_try. intros H.
  destruct (_ || _); [discriminate|].
  destruct (JSON_parse_value (JStr rawMessage)) as [message|];
    cbn [bind] in H; [|discriminate].
  destruct (get message "event") as [event|]; cbn [bind] in H; [|discriminate].
  destruct (negb (truthy event)); [discriminate|].
  destruct (get message "data") as [data|]; cbn [bind] in H; [|discriminate].
  destruct (is_undefined data); [discriminate|].
  destruct (call_startsWith event "pusher:") as [p1|];
    cbn [bind] in H; [|discriminate].
  destruct (if p1 then _ else _) as [p2|]; cbn [bind] in H; [|discriminate].
  destruct p2; [discriminate|].
  destruct (_ || _); [discriminate|].
  destruct (try_catch _ _) as [decoded|]; cbn [bind] in H; [|discriminate].
  destruct decoded as [eventData|]; [|discriminate].
  destruct event; try discriminate.
  eauto.
Qed.

(** [C1]  For every input string, [parseMessage] completes normally (it never
    raises), and its result is [null] or a well-formed [{type, data}]
    envelope: [type] is one of the twelve domain kinds and [data] is the
    object tagged for that kind.  The outcome is unique: the parser is a
    function of its input. *)
Theorem parseMessage_total_well_formed (rawMessage : string) :
  exists! outcome,
    parseMessage rawMessage = Normal outcome /\
    match outcome with
    | None => True
    | Some e => well_formed e = true
    end.
Proof.
  unfold parseMessage, try_catch.
  destruct (parseMessage_try rawMessage) as [[e|]|err] eqn:H.
  - exists (Some e). split.
    + split; [reflexivity|].
      apply parseMessage_try_mapped in H as (event & d & H).
      exact (parseMessage_mapped_well_formed _ _ _ H).
    + intros o [Ho _]. congruence.
  - exists None. split; [split; [reflexivity | exact I]|].
    intros o [Ho _]. congruence.
  - exists None. split; [split; [reflexivity | exact I]|].
    intros o [Ho _]. congruence.
Qed.

(** ** Wire messages *)

Lemma JSON_parse_value_text text v :
  JSON_parse text = Some v -> JSON_parse_value (JStr text) = Normal v.
Proof. intros H. unfold JSON_parse_value. cbn [ToString bind]. now rewrite H. Qed.

Lemma parseMessage_wire rawMessage event d :
  wire_message rawMessage event d ->
  event <> "" ->
  reserved event = false ->
  parseMessage rawMessage
  = try_catch (parseMessage_mapped event d) (fun _ => Normal None).
Proof.
  intros (message & text & Hraw & Hparse & Hevent & Hdata & Htext & Hd)
         Hne Hres.
  apply String.eqb_neq in Hne, Htext.
  apply orb_false_elim in Hres as [Hp1 Hp2].
  unfold parseMessage, parseMessage_try.
  rewrite Hraw.
  rewrite (JSON_parse_value_text _ _ Hparse). cbn [bind].
  rewrite Hevent. cbn [bind truthy]. rewrite Hne. cbn [negb].
  rewrite Hdata. cbn [bind is_undefined call_startsWith is_str].
  rewrite Hp1, Hp2, Hne, Htext. cbn [orb bind].
  rewrite (JSON_parse_value_text _ _ Hd). cbn [bind try_catch].
  reflexivity.
Qed.

Lemma normalizeEvent_alias bare canonical :
  legacy_alias bare canonical = true ->
  normalizeEvent bare = Some canonical /\
  normalizeEvent canonical = Some canonical /\
  bare <> "" /\ canonical <> "" /\ bare <> canonical /\
  reserved bare = false /\ reserved canonical = false.
Proof.
  unfold legacy_alias. intros H.
  repeat (apply andb_prop in H as [H ?]).
  repeat match goal with
         | X : negb _ = true |- _ => apply negb_true_iff in X
         end.
  repeat match goal with
         | X : String.eqb _ _ = false |- _ => apply String.eqb_neq in X
         end.
  destruct (normalizeEvent canonical) as [c|] eqn:Hc; [|discriminate].
  match goal with
  | X : String.eqb c canonical = true |- _ =>
      apply String.eqb_eq in X; subst c
  end.
  repeat split; try assumption.
  unfold normalizeEvent.
  destruct (record_get LEGACY_EVENT_MAPPING bare) as [v| |]; try discriminate.
  apply String.eqb_eq in H; subst v.
  match goal with
  | X : canonical <> "" |- _ => apply String.eqb_neq in X; rewrite X
  end.
  reflexivity.
Qed.

(** [C7]  A wire message under a bare legacy alias and the same message
    under the canonical name the table maps the alias to are parsed alike:
    both are dropped, or both yield an envelope of the same domain kind with
    the same payload; only the envelope of the bare form carries
    [legacyType], and it holds the bare name.  Both yield an envelope
    whenever the canonical name is a case of the [switch] whose transform
    accepts the payload, and then the two envelopes are the kind of that
    case with the transformed payload; both are dropped only when the
    canonical name is no case of the [switch] or the transform throws. *)
Theorem legacy_alias_same_envelope
        (raw_bare raw_canonical bare canonical : string) (d : JSValue) :
  legacy_alias bare canonical = true ->
  wire_message raw_bare bare d ->
  wire_message raw_canonical canonical d ->
  match parseMessage raw_canonical, parseMessage raw_bare with
  | Normal (Some ec), Normal (Some eb) =>
      env_type eb = env_type ec /\ env_data eb = env_data ec /\
      env_legacyType eb = Some bare /\ env_legacyType ec = None
  | Normal None, Normal None => True
  | _, _ => False
  end /\
  (forall type v,
      dispatch canonical d = Some (type, Normal v) ->
      parseMessage raw_canonical
      = Normal (Some {| env_type := type; env_data := v;
                        env_legacyType := None |}) /\
      parseMessage raw_bare
      = Normal (Some {| env_type := type; env_data := v;
                        env_legacyType := Some bare |})) /\
  (parseMessage raw_canonical = Normal None \/
   parseMessage raw_bare = Normal None ->
   dispatch canonical d = None \/
   exists type err, dispatch canonical d = Some (type, Throw err)).
Proof.
  intros Halias Hb Hc.
  destruct (normalizeEvent_alias _ _ Halias)
    as (Hnb & Hnc & Hb0 & Hc0 & Hbc & Hrb & Hrc).
  rewrite (parseMessage_wire _ _ _ Hb Hb0 Hrb).
  rewrite (parseMessage_wire _ _ _ Hc Hc0 Hrc).
  unfold parseMessage_mapped. rewrite Hnb, Hnc.
  rewrite String.eqb_refl.
  apply String.eqb_neq in Hbc. rewrite Hbc. cbn [negb].
  destruct (dispatch canonical d) as [[type transform]|].
  - destruct transform as [v|err]; cbn [bind try_catch].
    + split; [repeat split|]. split.
      * intros type' v' H. inversion H; subst. split; reflexivity.
      * intros [H|H]; discriminate H.
    + split; [exact I|]. split.
      * intros type' v' H. discriminate H.
      * intros _. right. exists type, err. reflexivity.
  - cbn [try_catch]. split; [exact I|]. split.
    + intros type' v' H. discriminate H.
    + intros _. left. reflexivity.
Qed.

(** ** Chat messages *)

Lemma get_Normal_not_nullish v k x : get v k = Normal x -> nullish v = false.
Proof. destruct v; cbn; intros H; try reflexivity; discriminate. Qed.

Lemma get_total v k : nullish v = false -> exists x, get v k = Normal x.
Proof.
  destruct v; cbn; intros H; try discriminate; eauto.
  destruct (assoc k fields); eauto.
Qed.

Lemma get_opt_total v k : exists x, get_opt v k = Normal x.
Proof.
  unfold get_opt. destruct (nullish v) eqn:H; eauto using get_total.
Qed.

Lemma or_else_default a d : exists x, or_else (Normal a) (Normal d) = Normal x.
Proof. unfold or_else. cbn. destruct (truthy a); eauto. Qed.

Lemma cleanEmotes_JStr content :
  cleanEmotes (JStr content) = Normal (cleanEmotes_string content).
Proof.
  unfold cleanEmotes. cbn [truthy].
  destruct (String.eqb content "") eqn:E; cbn [negb]; [|reflexivity].
  apply String.eqb_eq in E. subst content. reflexivity.
Qed.

Lemma parseChatMessage_content d content sender :
  get d "content" = Normal (JStr content) ->
  get d "sender" = Normal sender ->
  nullish sender = false ->
  exists out,
    parseChatMessage d = Normal out /\
    get out "content" = Normal (JStr (cleanEmotes_string content)).
Proof.
  intros Hc Hs Hn.
  pose proof (get_Normal_not_nullish _ _ _ Hc) as Hd.
  unfold parseChatMessage.
  destruct (get_total d "id" Hd) as [id ->]. cbn [bind].
  rewrite Hc. cbn [bind]. rewrite cleanEmotes_JStr. cbn [bind].
  destruct (get_total d "created_at" Hd) as [created ->]. cbn [bind].
  rewrite Hs. cbn [bind].
  destruct (get_total sender "id" Hn) as [sid ->]. cbn [bind].
  destruct (get_total sender "username" Hn) as [un ->]. cbn [bind].
  destruct (get_total sender "slug" Hn) as [slug ->]. cbn [bind].
  destruct (get_total sender "identity" Hn) as [identity ->]. cbn [bind].
  destruct (get_opt_total identity "color") as [c0 ->].
  destruct (or_else_default c0 (JStr "#ffffff")) as [color ->]. cbn [bind].
  destruct (get_opt_total identity "badges") as [b0 ->].
  destruct (or_else_default b0 (JArr [])) as [badges ->]. cbn [bind].
  destruct (get_total d "chatroom" Hd) as [chatroom ->]. cbn [bind].
  destruct (get_opt_total chatroom "id") as [r0 ->].
  destruct (or_else_default r0 (JNum zero)) as [room ->]. cbn [bind].
  eexists. split; reflexivity.
Qed.

(** [C9]  Parsing a ChatMessage wire event whose payload has a string
    [content] (and a sender) yields a ChatMessage envelope whose content is
    the input content with every placeholder [[emote:<digits>:<word>]]
    replaced by [<word>] and everything else kept, and is the only string
    so related to the input; in particular
    ["gg [emote:123:Kappa] well played"] becomes ["gg Kappa well played"]. *)
Theorem chat_message_emotes_stripped
        (rawMessage content : string) (d sender : JSValue) :
  wire_message rawMessage KickEvent.ChatMessage d ->
  normalizeEvent KickEvent.ChatMessage = Some KickEvent.ChatMessage ->
  get d "content" = Normal (JStr content) ->
  get d "sender" = Normal sender ->
  nullish sender = false ->
  (exists e,
      parseMessage rawMessage = Normal (Some e) /\
      env_type e = "ChatMessage" /\
      get (env_data e) "content" = Normal (JStr (cleanEmotes_string content)) /\
      Stripped content (cleanEmotes_string content) /\
      (forall out, Stripped content out -> out = cleanEmotes_string content)) /\
  cleanEmotes_string "gg [emote:123:Kappa] well played"
  = "gg Kappa well played".
Proof.
  intros Hw Hn Hc Hs Hsn. split; [|reflexivity].
  rewrite (parseMessage_wire _ _ _ Hw); [|discriminate|reflexivity].
  unfold parseMessage_mapped. rewrite Hn. rewrite String.eqb_refl.
  unfold dispatch. rewrite String.eqb_refl.
  destruct (parseChatMessage_content d content sender Hc Hs Hsn)
    as (out & -> & Hout).
  cbn. eexists. split; [reflexivity|].
  cbn. repeat split;
    [exact Hout | apply cleanEmotes_string_spec | apply Stripped_unique].
Qed.

(** ** The trace of effects *)

Lemma fold_clearTimeout_trace (l : list (string * TimerId)) : forall w,
  trace (fold_left (fun acc h => clearTimeout (snd h) acc) l w) = trace w.
Proof. induction l as [|h l IH]; intros w; cbn; [reflexivity | now rewrite IH]. Qed.

Lemma fold_clearTimeout_mgr (l : list (string * TimerId)) : forall w,
  mgr (fold_left (fun acc h => clearTimeout (snd h) acc) l w) = mgr w.
Proof. induction l as [|h l IH]; intros w; cbn; [reflexivity | now rewrite IH]. Qed.

Lemma fold_clearTimeout_sockets (l : list (string * TimerId)) : forall w,
  sockets (fold_left (fun acc h => clearTimeout (snd h) acc) l w) = sockets w.
Proof. induction l as [|h l IH]; intros w; cbn; [reflexivity | now rewrite IH]. Qed.

Lemma trace_emit event payload w :
  trace (emit event payload w) = trace w ++ [Emit event payload].
Proof. unfold emit. rewrite fold_clearTimeout_trace. reflexivity. Qed.

Lemma mgr_emit event payload w : mgr (emit event payload w) = mgr w.
Proof. unfold emit. rewrite fold_clearTimeout_mgr. reflexivity. Qed.

Lemma sockets_emit event payload w :
  sockets (emit event payload w) = sockets w.
Proof. unfold emit. rewrite fold_clearTimeout_sockets. reflexivity. Qed.

Lemma sent_topics_app a b :
  sent_topics (a ++ b) = sent_topics a ++ sent_topics b.
Proof.
  induction a as [|e a IH]; cbn; [reflexivity|].
  destruct e; try exact IH.
  destruct frame; try exact IH.
  destruct (channel_of message); cbn; now rewrite IH.
Qed.

Lemma settle_calls_app p a b :
  settle_calls p (a ++ b) = settle_calls p a + settle_calls p b.
Proof.
  induction a as [|e a IH]; cbn; [reflexivity|].
  destruct e; try exact IH; rewrite IH; lia.
Qed.

Lemma emissions_app a b : emissions (a ++ b) = emissions a ++ emissions b.
Proof.
  induction a as [|e a IH]; cbn; [reflexivity|].
  destruct e; try exact IH. cbn. now rewrite IH.
Qed.

Lemma mem_string_In k l : mem_string k l = true <-> In k l.
Proof.
  unfold mem_string. rewrite existsb_exists. split.
  - intros (x & Hx & E). apply String.eqb_eq in E. now subst.
  - intros H. exists k. split; [exact H | apply String.eqb_refl].
Qed.

(** ** Inbound frames *)

Lemma trace_sendPing w : exists more, trace (sendPing w) = trace w ++ more.
Proof.
  unfold sendPing. destruct (ws (mgr w)) as [s|].
  - destruct (is_open s w).
    + rewrite trace_emit. cbn. rewrite <- app_assoc. eauto.
    + exists []. now rewrite app_nil_r.
  - exists []. now rewrite app_nil_r.
Qed.

(** [C8]  Whatever the frame, the first thing [handleMessage] does is to emit
    [rawMessage] with the frame text unchanged; interception of system
    events, filtering and parsing only add effects after it. *)
Theorem rawMessage_emitted_first (rawMessage : string) (w : World) :
  exists rest,
    trace (handleMessage rawMessage w)
    = trace w ++ Emit "rawMessage" (RawPayload rawMessage) :: rest.
Proof.
  unfold handleMessage.
  set (w1 := emit "rawMessage" (RawPayload rawMessage) w).
  assert (H1 : trace w1 = trace w ++ [Emit "rawMessage" (RawPayload rawMessage)])
    by apply trace_emit.
  assert (Hmore : forall w2 more,
             trace w2 = trace w1 ++ more ->
             exists rest,
               trace w2
               = trace w ++ Emit "rawMessage" (RawPayload rawMessage) :: rest).
  { intros w2 more E. exists more. rewrite E, H1, <- app_assoc. reflexivity. }
  assert (Hsame : trace w1 = trace w1 ++ []) by now rewrite app_nil_r.
  destruct (system_event rawMessage) as [event|].
  - destruct (is_str event "pusher:pong"); [|eauto].
    destruct (trace_sendPing w1) as [more E]. eauto.
  - destruct (filtered_out rawMessage w1); [eauto|].
    destruct (parseMessage rawMessage) as [[parsed|]|]; eauto.
    eapply Hmore. apply trace_emit.
Qed.

(** ** The event filter *)

Lemma system_event_wire rawMessage event d :
  wire_message rawMessage event d ->
  reserved event = false ->
  system_event rawMessage = None.
Proof.
  intros (message & text & _ & Hparse & Hevent & _) Hres.
  apply orb_false_elim in Hres as [Hp1 Hp2].
  unfold system_event.
  rewrite (JSON_parse_value_text _ _ Hparse). cbn [bind].
  rewrite Hevent. cbn [bind opt_startsWith nullish call_startsWith].
  rewrite Hp1, Hp2. reflexivity.
Qed.

Lemma extractEventType_wire rawMessage event d :
  wire_message rawMessage event d ->
  event <> "" ->
  reserved event = false ->
  extractEventType rawMessage = Normal (Some (JStr event)).
Proof.
  intros (message & text & Hraw & Hparse & Hevent & _) Hne Hres.
  apply String.eqb_neq in Hne.
  apply orb_false_elim in Hres as [Hp1 Hp2].
  unfold extractEventType. rewrite Hraw.
  rewrite (JSON_parse_value_text _ _ Hparse). cbn [bind].
  rewrite Hevent. cbn [bind truthy call_startsWith is_str].
  rewrite Hne. cbn [negb]. rewrite Hp1, Hp2. reflexivity.
Qed.

(** What [handleMessage] does with a domain frame: the frame is dropped by
    the filter, or handed to the parser. *)
Lemma handleMessage_wire rawMessage event d w :
  wire_message rawMessage event d ->
  event <> "" ->
  reserved event = false ->
  trace (handleMessage rawMessage w)
  = trace w ++ Emit "rawMessage" (RawPayload rawMessage)
      :: (if isEventFiltered event w then []
          else match parseMessage rawMessage with
               | Normal (Some parsed) =>
                   [Emit (env_type parsed) (DomainPayload (env_data parsed))]
               | _ => []
               end).
Proof.
  intros Hw Hne Hres. unfold handleMessage.
  rewrite (system_event_wire _ _ _ Hw Hres).
  unfold filtered_out. rewrite (extractEventType_wire _ _ _ Hw Hne Hres).
  apply String.eqb_neq in Hne. rewrite Hne. cbn [negb andb].
  assert (Hf : isEventFiltered event
                 (emit "rawMessage" (RawPayload rawMessage) w)
               = isEventFiltered event w).
  { unfold isEventFiltered. now rewrite mgr_emit. }
  rewrite Hf.
  destruct (isEventFiltered event w).
  - apply trace_emit.
  - destruct (parseMessage rawMessage) as [[parsed|]|].
    + rewrite !trace_emit, <- app_assoc. reflexivity.
    + apply trace_emit.
    + apply trace_emit.
Qed.

(** For the ten wire names of [EVENT_TYPE_MAP] the filter is the allow-list
    of the documentation: with a non-empty [filteredEvents], the frame is
    dropped exactly when its domain kind is not listed. *)
Lemma isEventFiltered_mapped event kind w :
  assoc event EVENT_TYPE_MAP = Some kind ->
  filteredEvents (options (mgr w)) <> [] ->
  isEventFiltered event w
  = negb (mem_string kind (filteredEvents (options (mgr w)))).
Proof.
  intros Hk Hne. unfold isEventFiltered, record_get. rewrite Hk.
  destruct (filteredEvents (options (mgr w))) as [|f fs]; [congruence|].
  assert (Hkind : String.eqb kind "" = false).
  { unfold EVENT_TYPE_MAP in Hk. cbn [assoc] in Hk.
    repeat match type of Hk with
           | (if ?b then _ else _) = _ =>
               destruct b; [inversion Hk; reflexivity|]
           end.
    discriminate. }
  now rewrite Hkind.
Qed.

(** With [filteredEvents = ["ChatMessage"]], a [UserBanned] frame under its
    namespaced name yields no domain emission, and a [ChatMessage] frame that
    parses yields exactly one. *)
Lemma filter_ChatMessage_only rawMessage d w :
  filteredEvents (options (mgr w)) = ["ChatMessage"] ->
  (wire_message rawMessage KickEvent.UserBanned d ->
   trace (handleMessage rawMessage w)
   = trace w ++ [Emit "rawMessage" (RawPayload rawMessage)]) /\
  (wire_message rawMessage KickEvent.ChatMessage d ->
   forall parsed,
     parseMessage rawMessage = Normal (Some parsed) ->
     trace (handleMessage rawMessage w)
     = trace w ++ [Emit "rawMessage" (RawPayload rawMessage);
                   Emit (env_type parsed) (DomainPayload (env_data parsed))]).
Proof.
  intros Hf. split.
  - intros Hw.
    rewrite (handleMessage_wire _ _ _ w Hw); [|discriminate|reflexivity].
    rewrite (isEventFiltered_mapped _ "UserBanned");
      [|reflexivity|rewrite Hf; discriminate].
    rewrite Hf. reflexivity.
  - intros Hw parsed Hp.
    rewrite (handleMessage_wire _ _ _ w Hw); [|discriminate|reflexivity].
    rewrite (isEventFiltered_mapped _ "ChatMessage");
      [|reflexivity|rewrite Hf; discriminate].
    rewrite Hf, Hp. reflexivity.
Qed.

(** [C4]  The filter does not know the [RewardRedeemed] kind: with
    [filteredEvents = ["ChatMessage"]], a [RewardRedeemed] frame is neither
    dropped before parsing nor after it, and its domain event is emitted
    although the kind is not in the allow-list. *)
Theorem filter_misses_RewardRedeemed
        (rawMessage : string) (d payload : JSValue) (w : World) :
  filteredEvents (options (mgr w)) = ["ChatMessage"] ->
  wire_message rawMessage KickEvent.RewardRedeemed d ->
  normalizeEvent KickEvent.RewardRedeemed = Some KickEvent.RewardRedeemed ->
  parseRewardRedeemed d = Normal payload ->
  isEventFiltered KickEvent.RewardRedeemed w = false /\
  trace (handleMessage rawMessage w)
  = trace w ++ [Emit "rawMessage" (RawPayload rawMessage);
                Emit "RewardRedeemed" (DomainPayload payload)].
Proof.
  intros Hf Hw Hn Hp.
  assert (Hfilter : isEventFiltered KickEvent.RewardRedeemed w = false).
  { unfold isEventFiltered. rewrite Hf. reflexivity. }
  split; [exact Hfilter|].
  rewrite (handleMessage_wire _ _ _ w Hw); [|discriminate|reflexivity].
  rewrite Hfilter.
  rewrite (parseMessage_wire _ _ _ Hw); [|discriminate|reflexivity].
  unfold parseMessage_mapped. rewrite Hn, String.eqb_refl.
  unfold dispatch. cbn [String.eqb Ascii.eqb Bool.eqb KickEvent.RewardRedeemed
    KickEvent.ChatMessage KickEvent.MessageDeleted KickEvent.UserBanned
    KickEvent.UserUnbanned KickEvent.Subscription
    KickEvent.GiftedSubscriptions KickEvent.PinnedMessageCreated
    KickEvent.StreamHost KickEvent.PollUpdate KickEvent.PollDelete].
  rewrite Hp. reflexivity.
Qed.

(** ** The subscription handshake *)

Lemma trace_sendSubscription message w :
  exists more,
    trace (sendSubscription message w) = trace w ++ more /\
    (sent_topics more = [] \/
     exists c, channel_of message = Some c /\ sent_topics more = [c]) /\
    mgr (sendSubscription message w) = mgr w.
Proof.
  unfold sendSubscription.
  destruct (ws (mgr w)) as [s|].
  - destruct (is_open s w).
    + rewrite trace_emit, mgr_emit. cbn [effect trace mgr].
      rewrite <- app_assoc. eexists. split; [reflexivity|]. split; [|reflexivity].
      cbn. destruct (channel_of message) as [c|]; eauto.
    + exists []. rewrite app_nil_r. auto.
  - exists []. rewrite app_nil_r. auto.
Qed.

Lemma NoDup_snoc (l : list string) (x : string) :
  NoDup l -> ~ In x l -> NoDup (l ++ [x]).
Proof.
  intros Hl Hx. apply NoDup_app; [exact Hl | repeat constructor; intros [] | ].
  intros y Hy [<-|[]]. exact (Hx Hy).
Qed.

Lemma handshake_inv_send w0 subscribed w message c :
  handshake_inv w0 (subscribed, w) ->
  channel_of message = Some c ->
  mem_string c subscribed = false ->
  handshake_inv w0 (subscribed ++ [c], sendSubscription message w).
Proof.
  intros (more & Ht & Hnd & Hin) Hc Hmem.
  assert (Hnot : ~ In c subscribed).
  { intros H. apply mem_string_In in H. congruence. }
  destruct (trace_sendSubscription message w) as (extra & He & Hs & _).
  exists (more ++ extra). cbn [fst snd] in *.
  rewrite He, Ht, <- app_assoc. split; [reflexivity|].
  rewrite sent_topics_app.
  destruct Hs as [-> | (c' & Hc' & ->)].
  - rewrite app_nil_r. split; [exact Hnd|].
    intros t H. apply in_or_app. left. auto.
  - assert (c' = c) by congruence. subst c'. split.
    + apply NoDup_snoc; [exact Hnd|]. intros H. apply Hnot. auto.
    + intros t H. apply in_app_or in H as [H|H]; apply in_or_app; auto.
Qed.

Lemma handshake_inv_topics w0 channels : forall acc,
  handshake_inv w0 acc ->
  handshake_inv w0 (fold_left subscribe_topic channels acc).
Proof.
  induction channels as [|c channels IH]; intros [subscribed w] H;
    cbn [fold_left]; [exact H|].
  apply IH. unfold subscribe_topic.
  destruct (mem_string c subscribed) eqn:Hmem; [exact H|].
  apply handshake_inv_send; [exact H | reflexivity | exact Hmem].
Qed.

Lemma handshake_inv_custom w0 messages : forall acc,
  handshake_inv w0 acc ->
  handshake_inv w0 (fold_left subscribe_custom messages acc).
Proof.
  induction messages as [|m messages IH]; intros [subscribed w] H;
    cbn [fold_left]; [exact H|].
  apply IH. unfold subscribe_custom.
  destruct (channel_of m) as [c|] eqn:Hc; [|exact H].
  destruct (String.eqb c ""); cbn [negb andb]; [exact H|].
  destruct (mem_string c subscribed) eqn:Hmem; cbn [negb]; [exact H|].
  apply handshake_inv_send; assumption.
Qed.

(** [C2]  In one subscription handshake every topic name is the topic of at
    most one control frame handed to the transport, whatever the number of
    times it occurs among the derived topics, the topics added by the caller
    and the raw subscription envelopes. *)
Theorem handshake_subscribes_once (w : World) :
  exists more,
    trace (subscribeToChannels w) = trace w ++ more /\
    forall topic, count_occ string_dec (sent_topics more) topic <= 1.
Proof.
  assert (Hfinal : forall more,
             NoDup (sent_topics more) ->
             forall topic, count_occ string_dec (sent_topics more) topic <= 1).
  { intros more H. apply (NoDup_count_occ string_dec). exact H. }
  unfold subscribeToChannels.
  destruct (ws (mgr w)) as [s|].
  2:{ exists []. rewrite app_nil_r. split; [reflexivity|].
      apply Hfinal. constructor. }
  set (w1 := addCustomSubscriptions _ w).
  assert (H0 : handshake_inv w ([], w1)).
  { exists []. cbn. rewrite app_nil_r.
    repeat split; [constructor | intros t []]. }
  apply (handshake_inv_topics w (customSubscriptions (mgr w1))) in H0.
  apply (handshake_inv_custom w (subscriptionMessages (mgr w1))) in H0.
  destruct (fold_left subscribe_custom _ _) as [subscribed w2].
  destruct H0 as (more & Ht & Hnd & _). cbn [snd] in Ht.
  cbn [with_mgr trace].
  match goal with
  | |- context [match ?o with Some p => effect (Resolve p) ?x | None => ?x end] =>
      assert (Hr : exists tail,
                 trace (match o with
                        | Some p => effect (Resolve p) x
                        | None => x
                        end)
                 = trace w ++ more ++ tail /\ sent_topics tail = [])
  end.
  { rewrite mgr_emit.
    destruct (connectionResolver _) as [p|]; cbn [effect trace];
      rewrite trace_emit; cbn [setConnectionState with_mgr trace];
      rewrite Ht, <- !app_assoc; eexists; split; reflexivity. }
  destruct Hr as (tail & -> & Htail).
  exists (more ++ tail). split; [reflexivity|].
  apply Hfinal. rewrite sent_topics_app, Htail, app_nil_r. exact Hnd.
Qed.

(** ** The guard of [connect] *)

(** [C5]  In state [connected] or [connecting], [connect] changes nothing:
    the manager's fields (state and promise pair included), the sockets, the
    pending timers, the lookups in flight and the trace are what they were,
    so no transport is created. *)
Theorem connect_twice_is_noop (name : string) (w : World) :
  connectionState (mgr w) = connected \/ connectionState (mgr w) = connecting ->
  connect name w = w.
Proof.
  intros [H|H]; unfold connect; rewrite H; reflexivity.
Qed.

(** ** The pending promise pair *)

Lemma trace_call_rejector e w :
  trace (call_rejector e w)
  = trace w ++ match connectionRejector (mgr w) with
               | Some p => [Reject p e]
               | None => []
               end.
Proof.
  unfold call_rejector. destruct (connectionRejector (mgr w)); cbn.
  - reflexivity.
  - now rewrite app_nil_r.
Qed.

Lemma mgr_call_rejector e w : mgr (call_rejector e w) = mgr w.
Proof. unfold call_rejector. now destruct (connectionRejector (mgr w)). Qed.

Lemma settle_calls_emit p event payload w :
  settle_calls p (trace (emit event payload w)) = settle_calls p (trace w).
Proof. rewrite trace_emit, settle_calls_app. cbn. lia. Qed.

Lemma trace_fresh_timer task w : trace (snd (setTimeout task w)) = trace w.
Proof. reflexivity. Qed.

Lemma settle_calls_reconnect_if_enabled p w :
  settle_calls p (trace (reconnect_if_enabled w)) = settle_calls p (trace w).
Proof.
  unfold reconnect_if_enabled, scheduleReconnect.
  destruct (_ && _); [|reflexivity].
  destruct (reconnectTimer (mgr w)); reflexivity.
Qed.

(** [C3]  The error callback of the transport settles the connect promise
    through the stored rejector and leaves the pair in place; the close
    callback that follows calls the same rejector again.  The pair is thus
    not cleared when the promise settles, and it is used twice. *)
Theorem onerror_keeps_pair
        (s : SocketId) (p : PromiseId) (code : N) (reason : string)
        (w : World) :
  connectionRejector (mgr w) = Some p ->
  connectionRejector (mgr (onerror s w)) = Some p /\
  connectionResolver (mgr (onerror s w)) = connectionResolver (mgr w) /\
  settle_calls p (trace (onerror s w)) = S (settle_calls p (trace w)) /\
  settle_calls p (trace (handleDisconnect code reason (onerror s w)))
  = S (S (settle_calls p (trace w))).
Proof.
  intros Hp.
  assert (Hm : mgr (onerror s w) = mgr w).
  { unfold onerror. now rewrite mgr_call_rejector, mgr_emit. }
  assert (Ht : settle_calls p (trace (onerror s w))
               = S (settle_calls p (trace w))).
  { unfold onerror. rewrite trace_call_rejector, mgr_emit, Hp.
    rewrite settle_calls_app, settle_calls_emit. cbn.
    rewrite Pos.eqb_refl. lia. }
  rewrite Hm. repeat split; try assumption.
  unfold handleDisconnect.
  rewrite settle_calls_reconnect_if_enabled. cbn [with_mgr trace].
  rewrite trace_call_rejector, mgr_emit. cbn [setConnectionState with_mgr mgr].
  cbn [connectionRejector set_connectionState]. rewrite Hm, Hp.
  rewrite settle_calls_app, settle_calls_emit.
  cbn [setConnectionState with_mgr trace]. rewrite Ht. cbn.
  rewrite Pos.eqb_refl. lia.
Qed.

(** ** Properties kept by every step

    A property of worlds that is kept by the elementary updates is kept by
    every operation built from them.  The operations that write
    [reconnectTimer], [customSubscriptions] or [channelId] are assumed
    separately, so that each lemma depends only on what its operation
    uses. *)

Section Preservation.

Variable P : World -> Prop.

Hypothesis P_effect : forall e w, P w -> P (effect e w).
Hypothesis P_clear : forall t w, P w -> P (clearTimeout t w).
Hypothesis P_timer : forall task w, P w -> P (snd (setTimeout task w)).
Hypothesis P_fresh : forall w, P w -> P (snd (fresh w)).
Hypothesis P_fetches : forall v w, P w -> P (set_fetches v w).
Hypothesis P_sockets : forall v w, P w -> P (set_sockets v w).
Hypothesis P_once : forall v w, P w -> P (set_onceHandlers v w).
Hypothesis P_mgr : forall f w, keeps_tracked f -> P w -> P (with_mgr f w).

Ltac tracked := intro; repeat split; reflexivity.

Ltac open_pair :=
  match goal with
  | |- context [setTimeout ?task ?w] =>
      generalize (P_timer task w);
      destruct (setTimeout task w) as [? ?]; cbn [snd]; intro
  | |- context [fresh ?w] =>
      generalize (P_fresh w);
      destruct (fresh w) as [? ?]; cbn [snd]; intro
  end.

Lemma pres_emit event payload w : P w -> P (emit event payload w).
Proof.
  intros H. unfold emit.
  generalize (filter (fun h => String.eqb (fst h) event)
                     (onceHandlers (effect (Emit event payload) w))).
  intros here.
  assert (H1 : P (set_onceHandlers
                    (filter (fun h => negb (String.eqb (fst h) event))
                            (onceHandlers (effect (Emit event payload) w)))
                    (effect (Emit event payload) w))) by auto.
  revert H1. generalize (set_onceHandlers
                    (filter (fun h => negb (String.eqb (fst h) event))
                            (onceHandlers (effect (Emit event payload) w)))
                    (effect (Emit event payload) w)).
  induction here as [|h here IH]; intros w0 H0; cbn [fold_left]; auto.
Qed.

Lemma pres_setConnectionState s w : P w -> P (setConnectionState s w).
Proof. intros H. apply P_mgr; [tracked | exact H]. Qed.

Lemma pres_set_readyState s r w : P w -> P (set_readyState s r w).
Proof. intros H. unfold set_readyState. auto. Qed.

Lemma pres_sendSubscription message w : P w -> P (sendSubscription message w).
Proof.
  intros H. unfold sendSubscription.
  destruct (ws (mgr w)) as [s|]; [|exact H].
  destruct (is_open s w); [|exact H].
  apply pres_emit. auto.
Qed.

Lemma pres_sendPing w : P w -> P (sendPing w).
Proof.
  intros H. unfold sendPing.
  destruct (ws (mgr w)) as [s|]; [|exact H].
  destruct (is_open s w); [|exact H].
  apply pres_emit. auto.
Qed.

Lemma pres_subscribeToChannel c w : P w -> P (subscribeToChannel c w).
Proof.
  intros H. unfold subscribeToChannel.
  destruct (isConnected w); [apply pres_sendSubscription|]; exact H.
Qed.

Lemma pres_unsubscribeFromChannel c w : P w -> P (unsubscribeFromChannel c w).
Proof.
  intros H. unfold unsubscribeFromChannel.
  destruct (isConnected w); [|exact H].
  destruct (ws (mgr w)); auto.
Qed.

Lemma pres_call_rejector e w : P w -> P (call_rejector e w).
Proof.
  intros H. unfold call_rejector. destruct (connectionRejector (mgr w)); auto.
Qed.

Lemma pres_onerror s w : P w -> P (onerror s w).
Proof.
  intros H. unfold onerror. apply pres_call_rejector, pres_emit, H.
Qed.

Lemma pres_handleMessage rawMessage w : P w -> P (handleMessage rawMessage w).
Proof.
  intros H. unfold handleMessage.
  assert (H1 := pres_emit "rawMessage" (RawPayload rawMessage) w H).
  destruct (system_event rawMessage) as [event|].
  - destruct (is_str event "pusher:pong"); [apply pres_sendPing|]; exact H1.
  - destruct (filtered_out rawMessage _); [exact H1|].
    destruct (parseMessage rawMessage) as [[parsed|]|]; try exact H1.
    apply pres_emit, H1.
Qed.

Lemma pres_setWebSocketConfig config w : P w -> P (setWebSocketConfig config w).
Proof.
  intros H. unfold setWebSocketConfig.
  assert (H1 : P match url config with
                 | Some u => if String.eqb u "" then w
                             else with_mgr (set_websocketUrl u) w
                 | None => w
                 end).
  { destruct (url config) as [u|]; [|exact H].
    destruct (String.eqb u ""); [exact H|].
    apply P_mgr; [tracked | exact H]. }
  destruct (params config); [|exact H1].
  apply P_mgr; [tracked | exact H1].
Qed.

Lemma pres_resetWebSocketConfig w : P w -> P (resetWebSocketConfig w).
Proof. intros H. apply P_mgr; [tracked | exact H]. Qed.

Lemma pres_addSubscriptionMessages l w : P w -> P (addSubscriptionMessages l w).
Proof. intros H. apply P_mgr; [tracked | exact H]. Qed.

Lemma pres_performConnection awaiter w : P w -> P (performConnection awaiter w).
Proof.
  intros H. unfold performConnection.
  generalize (pres_setConnectionState connecting w H). intros H1.
  open_pair. auto.
Qed.

Lemma pres_connect name w : P w -> P (connect name w).
Proof.
  intros H. unfold connect.
  assert (H1 : P (with_mgr (fun m => set_isManualDisconnect false
                                       (set_channelName name m)) w))
    by (apply P_mgr; [tracked | exact H]).
  destruct (connectionState (mgr w)); try exact H;
    open_pair;
    match goal with
    | |- context [with_mgr (set_connectionPair ?a ?b) ?x] =>
        assert (H2 : P (with_mgr (set_connectionPair a b) x))
          by (apply P_mgr; [tracked | auto])
    end;
    open_pair; apply pres_performConnection; unfold once; auto.
Qed.

Lemma pres_close_socket s code reason w :
  P w -> P (close_socket s code reason w).
Proof.
  intros H. unfold close_socket.
  destruct (readyState s _); auto using pres_set_readyState.
Qed.

Lemma pres_attempt_failed awaiter e w : P w -> P (attempt_failed awaiter e w).
Proof. intros H. unfold attempt_failed. destruct awaiter; auto. Qed.

Lemma pres_fold_subscribe_topic channels : forall acc,
  P (snd acc) -> P (snd (fold_left subscribe_topic channels acc)).
Proof.
  induction channels as [|c channels IH]; intros [subscribed w] H;
    cbn [fold_left]; [exact H|].
  apply IH. unfold subscribe_topic.
  destruct (mem_string c subscribed); cbn [snd] in *;
    auto using pres_sendSubscription.
Qed.

Lemma pres_fold_subscribe_custom messages : forall acc,
  P (snd acc) -> P (snd (fold_left subscribe_custom messages acc)).
Proof.
  induction messages as [|m messages IH]; intros [subscribed w] H;
    cbn [fold_left]; [exact H|].
  apply IH. unfold subscribe_custom.
  destruct (channel_of m); [|exact H].
  destruct (_ && _); cbn [snd] in *; auto using pres_sendSubscription.
Qed.

(** The handshake, given the property once the derived topics are pushed. *)
Lemma pres_handshake w :
  P (addCustomSubscriptions
       (derived_topics (number_toString (channelId (mgr w)))) w) ->
  ws (mgr w) <> None ->
  P (subscribeToChannels w).
Proof.
  intros H1 Hws. unfold subscribeToChannels.
  destruct (ws (mgr w)); [|congruence].
  set (w1 := addCustomSubscriptions _ w) in *.
  generalize (pres_fold_subscribe_custom (subscriptionMessages (mgr w1)) _
                (pres_fold_subscribe_topic (customSubscriptions (mgr w1))
                   ([], w1) H1)).
  destruct (fold_left subscribe_custom _ _) as [subscribed w2]. cbn [snd].
  intros H2.
  apply P_mgr; [tracked|].
  assert (H3 : P (emit "ready"
                    (ReadyPayload
                       (channelName (mgr (setConnectionState connected w2)))
                       subscribed)
                    (setConnectionState connected w2)))
    by apply pres_emit, pres_setConnectionState, H2.
  destruct (connectionResolver _); auto.
Qed.

Lemma subscribeToChannels_no_socket w :
  ws (mgr w) = None -> subscribeToChannels w = w.
Proof. intros H. unfold subscribeToChannels. now rewrite H. Qed.

Lemma pres_subscribeToChannels w :
  P (addCustomSubscriptions
       (derived_topics (number_toString (channelId (mgr w)))) w) ->
  P w -> P (subscribeToChannels w).
Proof.
  intros Hadd H. destruct (ws (mgr w)) eqn:Hws.
  - apply pres_handshake; [exact Hadd | congruence].
  - now rewrite subscribeToChannels_no_socket.
Qed.

Hypothesis P_schedule : forall w, P w -> P (scheduleReconnect w).

Lemma pres_reconnect_if_enabled w : P w -> P (reconnect_if_enabled w).
Proof.
  intros H. unfold reconnect_if_enabled. destruct (_ && _); auto.
Qed.

Lemma pres_handleDisconnect code reason w :
  P w -> P (handleDisconnect code reason w).
Proof.
  intros H. unfold handleDisconnect.
  apply pres_reconnect_if_enabled. apply P_mgr; [tracked|].
  apply pres_call_rejector, pres_emit, pres_setConnectionState, H.
Qed.

Lemma pres_handleConnectionError e w : P w -> P (handleConnectionError e w).
Proof.
  intros H. unfold handleConnectionError.
  apply pres_reconnect_if_enabled. apply P_mgr; [tracked|].
  apply pres_call_rejector, pres_emit, pres_setConnectionState, H.
Qed.

Lemma pres_run_timer task w : P w -> P (run_timer task w).
Proof.
  intros H. unfold run_timer. destruct task.
  - destruct (ConnectionState_eqb _ _); [exact H|].
    apply P_effect, pres_handleConnectionError, H.
  - apply pres_performConnection, H.
Qed.

(** The id a lookup result writes to [channelId], if any. *)
Lemma pres_performConnection_resume awaiter result w :
  (forall i w',
      (result = SocketCreated i \/ exists e, result = SocketFailed i e) ->
      P w' -> P (with_mgr (set_channelId i) w')) ->
  P w -> P (performConnection_resume awaiter result w).
Proof.
  intros Hid H. unfold performConnection_resume.
  destruct result as [e|i e|i].
  - apply pres_attempt_failed, pres_handleConnectionError, H.
  - apply pres_attempt_failed, pres_handleConnectionError.
    apply Hid; [right; eauto | exact H].
  - assert (H1 : P (with_mgr (set_channelId i) w))
      by (apply Hid; [left; reflexivity | exact H]).
    open_pair. apply P_mgr; [tracked|]. auto.
Qed.

Hypothesis P_disconnect : forall w, P w -> P (disconnect w).
Hypothesis P_add : forall l w, P w -> P (addCustomSubscriptions l w).
Hypothesis P_clearsubs : forall w, P w -> P (clearCustomSubscriptions w).
Hypothesis P_channelId : forall i w, P w -> P (with_mgr (set_channelId i) w).

Lemma pres_updateOptions o w : P w -> P (updateOptions o w).
Proof.
  intros H. unfold updateOptions.
  assert (H1 : P (with_mgr (fun m => set_options
                                       (merge_options (options m) o) m) w))
    by (apply P_mgr; [tracked | exact H]).
  assert (H2 : P match p_websocketConfig o with
                 | Some c => setWebSocketConfig c
                               (with_mgr (fun m => set_options
                                  (merge_options (options m) o) m) w)
                 | None => with_mgr (fun m => set_options
                                  (merge_options (options m) o) m) w
                 end)
    by (destruct (p_websocketConfig o); auto using pres_setWebSocketConfig).
  destruct (p_customSubscriptions o); destruct (p_subscriptionMessages o);
    auto using pres_addSubscriptionMessages.
Qed.

Lemma pres_step w ev w' : step w ev = Some w' -> P w -> P w'.
Proof.
  intros Hs H. destruct ev; cbn [step] in Hs;
    try (inversion Hs; subst; clear Hs;
         auto using pres_connect, pres_addSubscriptionMessages,
           pres_subscribeToChannel, pres_unsubscribeFromChannel, pres_sendPing,
           pres_setWebSocketConfig, pres_resetWebSocketConfig,
           pres_updateOptions; fail).
  - destruct (lookup request (fetches w)); inversion Hs; subst.
    apply pres_performConnection_resume; auto.
  - destruct (lookup timer (timers w)); inversion Hs; subst.
    apply pres_run_timer; auto.
  - destruct (lookup socket (sockets w)) as [[]|]; inversion Hs; subst.
    apply pres_subscribeToChannels; auto using pres_set_readyState.
  - destruct (lookup socket (sockets w)) as [[]|]; inversion Hs; subst;
      apply pres_handleMessage; exact H.
  - destruct (lookup socket (sockets w)) as [[]|]; inversion Hs; subst;
      apply pres_handleDisconnect; auto using pres_set_readyState.
  - destruct (lookup socket (sockets w)) as [[]|]; inversion Hs; subst;
      apply pres_onerror; exact H.
Qed.

Lemma pres_run evs : forall w w', run w evs = Some w' -> P w -> P w'.
Proof.
  induction evs as [|ev evs IH]; intros w w' Hr H; cbn [run] in Hr.
  - inversion Hr; subst; exact H.
  - destruct (step w ev) as [w1|] eqn:Hs; [|discriminate].
    exact (IH _ _ Hr (pres_step _ _ _ Hs H)).
Qed.

End Preservation.

(** ** Timers *)

Lemma lookup_app {V : Type} (k : positive) (l l' : list (positive * V)) :
  lookup k (l ++ l')
  = match lookup k l with
    | Some v => Some v
    | None => lookup k l'
    end.
Proof.
  induction l as [|[k' v] l IH]; cbn; [reflexivity|].
  destruct (Pos.eqb k k'); [reflexivity | exact IH].
Qed.

Lemma lookup_remove_key {V : Type} (k k' : positive) (l : list (positive * V)) :
  lookup k (remove_key k' l) = if Pos.eqb k' k then None else lookup k l.
Proof.
  unfold remove_key.
  induction l as [|[k0 v] l IH]; cbn; [now destruct (Pos.eqb k' k)|].
  destruct (Pos.eqb k' k0) eqn:E0; cbn.
  - rewrite IH. destruct (Pos.eqb k' k) eqn:E; [reflexivity|].
    apply Pos.eqb_eq in E0; subst k0.
    rewrite Pos.eqb_sym, E. reflexivity.
  - rewrite IH. destruct (Pos.eqb k k0) eqn:E1.
    + apply Pos.eqb_eq in E1; subst k0. now rewrite E0.
    + reflexivity.
Qed.

Lemma lookup_remove_key_None {V : Type} (k k' : positive)
      (l : list (positive * V)) :
  lookup k l = None -> lookup k (remove_key k' l) = None.
Proof. intros H. rewrite lookup_remove_key, H. now destruct (Pos.eqb k' k). Qed.

(** What [disconnect] leaves behind. *)
Lemma disconnect_fields w :
  next (disconnect w) = next w /\
  timers (disconnect w)
  = match reconnectTimer (mgr w) with
    | Some t => remove_key t (timers w)
    | None => timers w
    end /\
  reconnectTimer (mgr (disconnect w)) = None /\
  isManualDisconnect (mgr (disconnect w)) = true /\
  ws (mgr (disconnect w)) = None /\
  connectionState (mgr (disconnect w)) = disconnected /\
  trace (disconnect w)
  = trace w ++ match ws (mgr w) with
               | Some s => [Close s 1000 "Manual disconnect"]
               | None => []
               end.
Proof.
  unfold disconnect, setConnectionState, close_socket, set_readyState,
    readyState.
  cbn [with_mgr mgr reconnectTimer set_isManualDisconnect].
  destruct (reconnectTimer (mgr w)) as [old|] eqn:Hold; cbn;
    destruct (ws (mgr w)) as [s|] eqn:Hws; cbn; rewrite ?Hws; cbn;
    try destruct (lookup s (sockets w)) as [[]|];
    cbn; rewrite ?app_nil_r, ?Hold, ?Hws; repeat split; reflexivity.
Qed.

Section Retired.

Variable t : TimerId.

Lemma retired_view w w' :
  next w' = next w -> timers w' = timers w ->
  timer_retired t w -> timer_retired t w'.
Proof. unfold timer_retired. intros -> ->. auto. Qed.

Lemma retired_clear t' w :
  timer_retired t w -> timer_retired t (clearTimeout t' w).
Proof.
  intros [H1 H2]. split; [exact H1|].
  cbn. now apply lookup_remove_key_None.
Qed.

Lemma retired_timer task w :
  timer_retired t w -> timer_retired t (snd (setTimeout task w)).
Proof.
  intros [H1 H2]. split; cbn.
  - lia.
  - rewrite lookup_app, H2. cbn.
    destruct (Pos.eqb t (next w)) eqn:E; [|reflexivity].
    apply Pos.eqb_eq in E. lia.
Qed.

Lemma retired_fresh w : timer_retired t w -> timer_retired t (snd (fresh w)).
Proof. intros [H1 H2]. split; cbn; [lia | exact H2]. Qed.

Lemma retired_mgr f w : timer_retired t w -> timer_retired t (with_mgr f w).
Proof. apply retired_view; reflexivity. Qed.

Lemma retired_scheduleReconnect w :
  timer_retired t w -> timer_retired t (scheduleReconnect w).
Proof.
  intros H. unfold scheduleReconnect.
  assert (H1 : timer_retired t
                 (setConnectionState reconnecting
                    match reconnectTimer (mgr w) with
                    | Some t' => clearTimeout t' w
                    | None => w
                    end)).
  { apply retired_mgr. destruct (reconnectTimer (mgr w)); auto using retired_clear. }
  generalize (retired_timer Reconnect _ H1).
  destruct (setTimeout Reconnect _) as [t' w3]. cbn [snd].
  apply retired_mgr.
Qed.

Lemma retired_disconnect w :
  timer_retired t w -> timer_retired t (disconnect w).
Proof.
  intros H. unfold disconnect, setConnectionState.
  apply retired_mgr.
  assert (H1 : timer_retired t
                 match reconnectTimer (mgr (with_mgr (set_isManualDisconnect true) w)) with
                 | Some t' =>
                     with_mgr (set_reconnectTimer None)
                       (clearTimeout t' (with_mgr (set_isManualDisconnect true) w))
                 | None => with_mgr (set_isManualDisconnect true) w
                 end).
  { destruct (reconnectTimer _);
      auto using retired_mgr, retired_clear. }
  destruct (ws _) as [s|]; [|exact H1].
  apply retired_mgr. unfold close_socket.
  destruct (readyState s _); revert H1; apply retired_view; reflexivity.
Qed.

(** A retired timer stays retired whatever happens next. *)
Lemma retired_run evs w w' :
  run w evs = Some w' -> timer_retired t w -> timer_retired t w'.
Proof.
  apply (pres_run (timer_retired t));
    auto using retired_clear, retired_timer, retired_fresh, retired_mgr,
      retired_scheduleReconnect, retired_disconnect;
    try (intros; eapply retired_view; [| |eassumption]; reflexivity).
Qed.

Lemma tracked_clear t' w :
  reconnect_tracked t w -> reconnect_tracked t (clearTimeout t' w).
Proof.
  intros [H1 H2]. split; [exact H1|]. cbn.
  rewrite lookup_remove_key. destruct (Pos.eqb t' t); [congruence | exact H2].
Qed.

Lemma tracked_timer task w :
  reconnect_tracked t w -> reconnect_tracked t (snd (setTimeout task w)).
Proof.
  intros [H1 H2]. split; cbn.
  - lia.
  - rewrite lookup_app. destruct (lookup t (timers w)) eqn:E.
    + intros _. apply H2. congruence.
    + cbn. destruct (Pos.eqb t (next w)) eqn:E'; [|congruence].
      apply Pos.eqb_eq in E'. lia.
Qed.

Lemma tracked_fresh w :
  reconnect_tracked t w -> reconnect_tracked t (snd (fresh w)).
Proof. intros [H1 H2]. split; cbn; [lia | exact H2]. Qed.

Lemma tracked_mgr f w :
  keeps_tracked f -> reconnect_tracked t w -> reconnect_tracked t (with_mgr f w).
Proof.
  intros Hf [H1 H2]. split; [exact H1|]. cbn.
  destruct (Hf (mgr w)) as (-> & _). exact H2.
Qed.

(** Before the manager forgets a reconnect timer it clears it. *)
Lemma tracked_scheduleReconnect w :
  reconnect_tracked t w -> reconnect_tracked t (scheduleReconnect w).
Proof.
  intros [H1 H2]. unfold scheduleReconnect, reconnect_tracked.
  destruct (reconnectTimer (mgr w)) as [old|] eqn:Hold; cbn.
  - split; [lia|]. rewrite lookup_app, lookup_remove_key.
    destruct (Pos.eqb old t) eqn:E.
    + cbn. destruct (Pos.eqb t (next w)) eqn:E'; [|congruence].
      apply Pos.eqb_eq in E'. lia.
    + destruct (lookup t (timers w)) eqn:El.
      * intros _. assert (Some old = Some t) by (apply H2; congruence).
        apply Pos.eqb_neq in E. congruence.
      * cbn. destruct (Pos.eqb t (next w)) eqn:E'; [|congruence].
        apply Pos.eqb_eq in E'. lia.
  - split; [lia|]. rewrite lookup_app.
    destruct (lookup t (timers w)) eqn:El.
    + intros _. assert (None = Some t) by (apply H2; congruence). discriminate.
    + cbn. destruct (Pos.eqb t (next w)) eqn:E'; [|congruence].
      apply Pos.eqb_eq in E'. lia.
Qed.

Lemma tracked_disconnect w :
  reconnect_tracked t w -> reconnect_tracked t (disconnect w).
Proof.
  intros [H1 H2].
  destruct (disconnect_fields w) as (Hn & Ht & Hr & _).
  split; [now rewrite Hn|].
  rewrite Ht, Hr. intros Hl.
  destruct (reconnectTimer (mgr w)) as [old|].
  - rewrite lookup_remove_key in Hl.
    destruct (Pos.eqb old t) eqn:E; [congruence|].
    apply Pos.eqb_neq in E. specialize (H2 Hl). congruence.
  - specialize (H2 Hl). discriminate.
Qed.

(** While a timer scheduled for a reconnect is pending, it is the one held
    in [reconnectTimer]. *)
Lemma tracked_run evs w w' :
  run w evs = Some w' -> reconnect_tracked t w -> reconnect_tracked t w'.
Proof.
  apply (pres_run (reconnect_tracked t));
    auto using tracked_clear, tracked_timer, tracked_fresh, tracked_mgr,
      tracked_scheduleReconnect, tracked_disconnect;
    try (intros; apply tracked_mgr; [intro; repeat split; reflexivity | assumption]);
    intros ? ? [? ?]; split; assumption.
Qed.

End Retired.

Lemma scheduleReconnect_tracked w :
  reconnect_tracked (next w) (scheduleReconnect w).
Proof.
  unfold scheduleReconnect, reconnect_tracked.
  destruct (reconnectTimer (mgr w)); cbn; split; (lia || reflexivity).
Qed.

Lemma reconnect_if_enabled_manual w :
  isManualDisconnect (mgr w) = true -> reconnect_if_enabled w = w.
Proof.
  intros H. unfold reconnect_if_enabled. rewrite H.
  now rewrite andb_false_r.
Qed.

(** [X28]  Let a reconnect be scheduled, and let [disconnect] be called
    while its timer is still pending, whatever happened in between and
    whatever the connection state.  Then [disconnect] cancels the timer,
    sets the manual-disconnect flag, so that the reconnection test applied
    to the manager as [disconnect] leaves it schedules nothing, closes the
    transport, if there is one, with code 1000, clears the transport
    reference and leaves the state [disconnected]; and after any further
    run of events that timer cannot fire. *)
Theorem disconnect_cancels_reconnect
        (w0 w2 w4 : World) (evs1 evs2 : list Event) :
  run (scheduleReconnect w0) evs1 = Some w2 ->
  lookup (next w0) (timers w2) <> None ->
  run (disconnect w2) evs2 = Some w4 ->
  (lookup (next w0) (timers (disconnect w2)) = None /\
   reconnectTimer (mgr (disconnect w2)) = None /\
   isManualDisconnect (mgr (disconnect w2)) = true /\
   reconnect_if_enabled (disconnect w2) = disconnect w2 /\
   ws (mgr (disconnect w2)) = None /\
   connectionState (mgr (disconnect w2)) = disconnected /\
   trace (disconnect w2)
   = trace w2 ++ match ws (mgr w2) with
                 | Some s => [Close s 1000 "Manual disconnect"]
                 | None => []
                 end) /\
  step w4 (TimerFires (next w0)) = None.
Proof.
  intros Hrun1 Hpending Hrun2.
  set (t := next w0) in *.
  destruct (tracked_run t _ _ _ Hrun1 (scheduleReconnect_tracked w0))
    as [Hlt Hfield].
  specialize (Hfield Hpending).
  destruct (disconnect_fields w2) as (Hn & Ht & Hr & Hm & Hws & Hst & Htr).
  assert (Hgone : lookup t (timers (disconnect w2)) = None).
  { rewrite Ht, Hfield, lookup_remove_key, Pos.eqb_refl. reflexivity. }
  split.
  - repeat split; try assumption.
    apply reconnect_if_enabled_manual, Hm.
  - assert (Hret : timer_retired t (disconnect w2)).
    { split; [rewrite Hn; exact Hlt | exact Hgone]. }
    destruct (retired_run t _ _ _ Hrun2 Hret) as [_ Hnone].
    cbn [step]. now rewrite Hnone.
Qed.

(** ** Custom subscriptions across handshakes *)

Section Subscriptions.

Variable c : list string.
Variable id : string.

Lemma subs_view w w' :
  mgr w' = mgr w -> subscriptions_are c id w -> subscriptions_are c id w'.
Proof. unfold subscriptions_are. now intros ->. Qed.

Lemma subs_mgr f w :
  keeps_tracked f ->
  subscriptions_are c id w -> subscriptions_are c id (with_mgr f w).
Proof.
  intros Hf [H1 H2]. unfold subscriptions_are. cbn.
  destruct (Hf (mgr w)) as (_ & -> & ->). auto.
Qed.

Lemma subs_effect e w :
  subscriptions_are c id w -> subscriptions_are c id (effect e w).
Proof. apply subs_view. reflexivity. Qed.

Lemma subs_clear t w :
  subscriptions_are c id w -> subscriptions_are c id (clearTimeout t w).
Proof. apply subs_view. reflexivity. Qed.

Lemma subs_timer task w :
  subscriptions_are c id w -> subscriptions_are c id (snd (setTimeout task w)).
Proof. apply subs_view. reflexivity. Qed.

Lemma subs_fresh w :
  subscriptions_are c id w -> subscriptions_are c id (snd (fresh w)).
Proof. apply subs_view. reflexivity. Qed.

Lemma subs_fetches v w :
  subscriptions_are c id w -> subscriptions_are c id (set_fetches v w).
Proof. apply subs_view. reflexivity. Qed.

Lemma subs_sockets v w :
  subscriptions_are c id w -> subscriptions_are c id (set_sockets v w).
Proof. apply subs_view. reflexivity. Qed.

Lemma subs_once v w :
  subscriptions_are c id w -> subscriptions_are c id (set_onceHandlers v w).
Proof. apply subs_view. reflexivity. Qed.

Lemma subs_scheduleReconnect w :
  subscriptions_are c id w -> subscriptions_are c id (scheduleReconnect w).
Proof.
  intros [H1 H2]. unfold scheduleReconnect, subscriptions_are.
  destruct (reconnectTimer (mgr w)); cbn; auto.
Qed.

Lemma subs_disconnect w :
  subscriptions_are c id w -> subscriptions_are c id (disconnect w).
Proof.
  intros [H1 H2].
  unfold subscriptions_are, disconnect, setConnectionState, close_socket,
    set_readyState, readyState.
  cbn [with_mgr mgr reconnectTimer set_isManualDisconnect].
  destruct (reconnectTimer (mgr w)) as [old|] eqn:Hold; cbn;
    destruct (ws (mgr w)) as [s|] eqn:Hws; cbn; rewrite ?Hws; cbn;
    try destruct (lookup s (sockets w)) as [[]|]; cbn; auto.
Qed.

End Subscriptions.

Create HintDb subs.

#[local] Hint Resolve subs_effect subs_clear subs_timer subs_fresh
  subs_fetches subs_sockets subs_once subs_mgr subs_scheduleReconnect
  subs_disconnect : subs.

Lemma subs_add c id l w :
  subscriptions_are c id w ->
  subscriptions_are (c ++ l) id (addCustomSubscriptions l w).
Proof. intros [H1 H2]. split; cbn; [now rewrite H1 | exact H2]. Qed.

(** One event, other than [clearCustomSubscriptions], only appends to the
    custom subscriptions; a handshake appends the six derived topics. *)
Lemma step_appends c id w ev w' :
  step w ev = Some w' ->
  is_clear ev = false ->
  resolves_to id ev ->
  subscriptions_are c id w ->
  subscriptions_are (c ++ appended id w ev) id w'.
Proof.
  intros Hs Hclear Hid H.
  assert (Hsame : forall x, subscriptions_are c id x ->
                            subscriptions_are (c ++ []) id x)
    by (intro; now rewrite app_nil_r).
  destruct ev; cbn [step] in Hs; cbn [appended]; try discriminate Hclear;
    try match type of Hs with
        | Some _ = Some _ => inversion Hs; subst; clear Hs
        end.
  - apply Hsame, (pres_connect (subscriptions_are c id)); auto with subs.
  - apply Hsame. auto with subs.
  - apply subs_add, H.
  - apply Hsame, (pres_addSubscriptionMessages (subscriptions_are c id));
      auto with subs.
  - apply Hsame, (pres_subscribeToChannel (subscriptions_are c id));
      auto with subs.
  - apply Hsame, (pres_unsubscribeFromChannel (subscriptions_are c id));
      auto with subs.
  - apply Hsame, (pres_sendPing (subscriptions_are c id)); auto with subs.
  - apply Hsame, (pres_setWebSocketConfig (subscriptions_are c id));
      auto with subs.
  - apply Hsame, (pres_resetWebSocketConfig (subscriptions_are c id));
      auto with subs.
  - unfold updateOptions.
    set (w1 := with_mgr _ w).
    assert (H1 : subscriptions_are c id w1) by (apply subs_mgr; [|exact H];
      intro; repeat split; reflexivity).
    set (w2 := match p_websocketConfig newOptions with
               | Some cfg => setWebSocketConfig cfg w1
               | None => w1
               end).
    assert (H2 : subscriptions_are c id w2).
    { subst w2. destruct (p_websocketConfig newOptions); [|exact H1].
      apply (pres_setWebSocketConfig (subscriptions_are c id));
        auto with subs. }
    destruct (p_customSubscriptions newOptions) as [l|]; cbn [from_option].
    + destruct (p_subscriptionMessages newOptions).
      * apply (pres_addSubscriptionMessages (subscriptions_are (c ++ l) id));
          auto using subs_add with subs.
      * apply subs_add, H2.
    + apply Hsame. destruct (p_subscriptionMessages newOptions); [|exact H2].
      apply (pres_addSubscriptionMessages (subscriptions_are c id));
        auto with subs.
  - destruct (lookup request (fetches w)); inversion Hs; subst.
    apply Hsame.
    apply (pres_performConnection_resume (subscriptions_are c id));
      auto with subs.
    intros i x Hres [Hx1 Hx2]. split; [exact Hx1|]. cbn.
    cbn [resolves_to] in Hid.
    destruct Hres as [-> | [e ->]]; exact Hid.
  - destruct (lookup timer (timers w)); inversion Hs; subst.
    apply Hsame, (pres_run_timer (subscriptions_are c id)); auto with subs.
  - destruct (lookup socket (sockets w)) as [[]|] eqn:Hl; inversion Hs; subst.
    destruct (ws (mgr w)) as [s|] eqn:Hws.
    + apply (pres_handshake (subscriptions_are (c ++ derived_topics id) id));
        auto with subs.
      * destruct H as [H1 H2]. cbn [set_readyState set_sockets mgr]. rewrite H2.
        apply subs_add. split; assumption.
      * cbn. congruence.
    + rewrite subscribeToChannels_no_socket by exact Hws.
      apply Hsame. auto with subs.
  - destruct (lookup socket (sockets w)) as [[]|]; inversion Hs; subst;
      apply Hsame, (pres_handleMessage (subscriptions_are c id));
      auto with subs.
  - destruct (lookup socket (sockets w)) as [[]|]; inversion Hs; subst;
      apply Hsame, (pres_handleDisconnect (subscriptions_are c id));
      auto with subs.
  - destruct (lookup socket (sockets w)) as [[]|]; inversion Hs; subst;
      apply Hsame, (pres_onerror (subscriptions_are c id)); auto with subs.
Qed.

Lemma string_app_neq_self (s suffix : string) :
  suffix <> "" -> (s ++ suffix)%string <> s.
Proof.
  intros Hne H. apply (f_equal String.length) in H.
  rewrite string_length_app in H.
  destruct suffix; [congruence | cbn in H; lia].
Qed.

Lemma string_app_inv_head (p a b : string) :
  (p ++ a = p ++ b)%string -> a = b.
Proof.
  induction p as [|x p IH]; cbn; intros H; [exact H|].
  inversion H. auto.
Qed.

(** The six derived topics are pairwise different. *)
Lemma derived_topics_NoDup (id : string) : NoDup (derived_topics id).
Proof.
  assert (H1 : ("chatrooms." ++ id ++ ".v2")%string <> ("chatrooms." ++ id)%string).
  { intros H. apply string_app_inv_head in H.
    revert H. apply string_app_neq_self. discriminate. }
  unfold derived_topics.
  repeat constructor; cbn [In]; intros H;
    repeat match type of H with
           | _ \/ _ => destruct H as [H|H]
           | False => contradiction
           end;
    try (symmetry in H; contradiction);
    try contradiction;
    cbn in H; discriminate H.
Qed.

Lemma derived_topics_count (id topic : string) :
  In topic (derived_topics id) ->
  count_occ string_dec (derived_topics id) topic = 1.
Proof.
  intros H. apply NoDup_count_occ'; [apply derived_topics_NoDup | exact H].
Qed.

(** The case of one channel: along a run without [clearCustomSubscriptions]
    in which the channel keeps resolving to the same id, [channels] holds
    each topic derived from that id once per handshake, on top of the copies
    it held before and of those the caller added. *)
Lemma derived_topics_same_channel (id : string) (evs : list Event) :
  forall (w w' : World),
    run w evs = Some w' ->
    existsb is_clear evs = false ->
    Forall (resolves_to id) evs ->
    number_toString (channelId (mgr w)) = id ->
    forall topic,
      In topic (derived_topics id) ->
      count_occ string_dec (fst (getCustomSubscriptions w')) topic
      = count_occ string_dec (fst (getCustomSubscriptions w)) topic
        + count_occ string_dec (caller_added evs) topic
        + handshakes w evs.
Proof.
  unfold getCustomSubscriptions. cbn [fst].
  induction evs as [|ev evs IH]; intros w w' Hrun Hclear Hids Hid topic Hin;
    cbn [run] in Hrun.
  - inversion Hrun; subst. cbn. lia.
  - destruct (step w ev) as [w1|] eqn:Hs; [|discriminate].
    cbn [existsb] in Hclear. apply orb_false_elim in Hclear as [Hc1 Hc2].
    inversion Hids as [|? ? Hid1 Hids']; subst.
    destruct (step_appends (customSubscriptions (mgr w))
                (number_toString (channelId (mgr w))) w ev w1 Hs Hc1 Hid1
                (conj eq_refl eq_refl)) as [Hcs Hid'].
    rewrite (IH w1 w' Hrun Hc2 Hids' Hid' topic Hin).
    rewrite Hcs, count_occ_app.
    cbn [handshakes]. rewrite Hs.
    destruct ev; cbn [appended caller_added]; rewrite ?count_occ_app;
      cbn [count_occ]; try lia.
    destruct (ws (mgr w)).
    + rewrite (derived_topics_count _ _ Hin). lia.
    + cbn [count_occ]. lia.
Qed.

(** A channel lookup changes the channel id and leaves the custom
    subscriptions alone. *)
Lemma customSubscriptions_ChannelInfo w request result w' :
  step w (ChannelInfo request result) = Some w' ->
  customSubscriptions (mgr w') = customSubscriptions (mgr w).
Proof.
  cbn [step]. destruct (lookup request (fetches w)) as [awaiter|];
    intros Hs; inversion Hs; subst; clear Hs.
  apply (pres_performConnection_resume
           (fun x => customSubscriptions (mgr x) = customSubscriptions (mgr w)));
    try (intros; assumption); try reflexivity.
  - intros f x Hf Hx. cbn [with_mgr mgr].
    destruct (Hf (mgr x)) as (_ & -> & _). exact Hx.
  - intros x Hx. unfold scheduleReconnect.
    destruct (reconnectTimer (mgr x)); exact Hx.
Qed.

(** One event, other than [clearCustomSubscriptions], only appends to the
    custom subscriptions: what the caller hands over, and at a handshake the
    six topics derived from the channel id of that moment. *)
Lemma step_appends_now w ev w' :
  step w ev = Some w' ->
  is_clear ev = false ->
  customSubscriptions (mgr w')
  = customSubscriptions (mgr w)
    ++ appended (number_toString (channelId (mgr w))) w ev.
Proof.
  intros Hs Hclear.
  assert (Hcase : (exists request result, ev = ChannelInfo request result) \/
                  resolves_to (number_toString (channelId (mgr w))) ev).
  { destruct ev; cbn [resolves_to]; eauto. }
  destruct Hcase as [(request & result & ->)|Hres].
  - cbn [appended]. rewrite app_nil_r.
    exact (customSubscriptions_ChannelInfo _ _ _ _ Hs).
  - exact (proj1 (step_appends _ _ _ _ _ Hs Hclear Hres
                    (conj eq_refl eq_refl))).
Qed.

Lemma derived_topics_count_mem (id topic : string) :
  count_occ string_dec (derived_topics id) topic
  = if mem_string topic (derived_topics id) then 1 else 0.
Proof.
  destruct (mem_string topic (derived_topics id)) eqn:Hmem.
  - apply derived_topics_count, mem_string_In, Hmem.
  - apply count_occ_not_In. intros Hin.
    apply mem_string_In in Hin. congruence.
Qed.

Lemma opens_deriving_le topic evs : forall w,
  opens_deriving topic w evs <= handshakes w evs.
Proof.
  induction evs as [|ev evs IH]; intros w; cbn [opens_deriving handshakes];
    [constructor|].
  destruct (step w ev) as [w1|]; [|constructor].
  specialize (IH w1).
  destruct ev; try exact IH.
  destruct (ws (mgr w)); [|exact IH].
  destruct (mem_string _ _); lia.
Qed.

(** [C10]  Every handshake that passes the guard on the transport appends
    the six topics derived from the channel id of that moment to the custom
    subscriptions, and along a run without [clearCustomSubscriptions]
    nothing is ever removed: the list only grows at its end, and afterwards
    [getCustomSubscriptions().channels] holds each topic once per handshake
    made under a channel id from which it is derived, on top of the copies
    it held before and of those the caller added.  That is one copy per
    handshake when the channel keeps resolving to the same id, and fewer
    otherwise. *)
Theorem derived_topics_accumulate (evs : list Event) :
  forall (w w' : World),
    run w evs = Some w' ->
    existsb is_clear evs = false ->
    (exists more,
        fst (getCustomSubscriptions w')
        = fst (getCustomSubscriptions w) ++ more) /\
    (forall topic,
        count_occ string_dec (fst (getCustomSubscriptions w')) topic
        = count_occ string_dec (fst (getCustomSubscriptions w)) topic
          + count_occ string_dec (caller_added evs) topic
          + opens_deriving topic w evs) /\
    (forall topic, opens_deriving topic w evs <= handshakes w evs) /\
    (forall id,
        Forall (resolves_to id) evs ->
        number_toString (channelId (mgr w)) = id ->
        forall topic,
          In topic (derived_topics id) ->
          opens_deriving topic w evs = handshakes w evs).
Proof.
  unfold getCustomSubscriptions. cbn [fst].
  assert (Hmain : forall w w',
             run w evs = Some w' ->
             existsb is_clear evs = false ->
             (exists more,
                 customSubscriptions (mgr w')
                 = customSubscriptions (mgr w) ++ more) /\
             (forall topic,
                 count_occ string_dec (customSubscriptions (mgr w')) topic
                 = count_occ string_dec (customSubscriptions (mgr w)) topic
                   + count_occ string_dec (caller_added evs) topic
                   + opens_deriving topic w evs)).
  { induction evs as [|ev evs IH]; intros w w' Hrun Hclear; cbn [run] in Hrun.
    - inversion Hrun; subst. split.
      + exists []. now rewrite app_nil_r.
      + intros topic. cbn. lia.
    - destruct (step w ev) as [w1|] eqn:Hs; [|discriminate].
      cbn [existsb] in Hclear. apply orb_false_elim in Hclear as [Hc1 Hc2].
      pose proof (step_appends_now w ev w1 Hs Hc1) as Hcs.
      destruct (IH w1 w' Hrun Hc2) as [[more Hmore] Hcount].
      split.
      + eexists. rewrite Hmore, Hcs, <- app_assoc. reflexivity.
      + intros topic. rewrite (Hcount topic), Hcs, count_occ_app.
        cbn [opens_deriving]. rewrite Hs.
        destruct ev; cbn [appended caller_added]; rewrite ?count_occ_app;
          cbn [count_occ]; try lia.
        destruct (ws (mgr w)); cbn [count_occ]; [|lia].
        rewrite derived_topics_count_mem.
        destruct (mem_string _ _); lia. }
  intros w w' Hrun Hclear.
  destruct (Hmain w w' Hrun Hclear) as [Hgrow Hcount].
  split; [exact Hgrow|]. split; [exact Hcount|].
  split; [intros topic; apply opens_deriving_le|].
  intros id Hids Hid topic Hin.
  pose proof (derived_topics_same_channel id evs w w' Hrun Hclear Hids Hid
                topic Hin) as Hsame.
  unfold getCustomSubscriptions in Hsame. cbn [fst] in Hsame.
  rewrite (Hcount topic) in Hsame. lia.
Qed.

(** * Further properties of the parser *)

(** What an envelope returned by [parseMessage] says about the frame. *)
Lemma parseMessage_inv rawMessage e :
  parseMessage rawMessage = Normal (Some e) ->
  exists message ev data d,
    (String.eqb rawMessage "" || Str.trim_is_empty rawMessage) = false /\
    JSON_parse_value (JStr rawMessage) = Normal message /\
    get message "event" = Normal (JStr ev) /\
    ev <> "" /\ reserved ev = false /\
    get message "data" = Normal data /\
    is_undefined data = false /\ is_str data "" = false /\
    JSON_parse_value data = Normal d /\
    parseMessage_mapped ev d = Normal (Some e).
Proof.
  unfold parseMessage, try_catch.
  destruct (parseMessage_try rawMessage) as [[e0|]|err] eqn:H;
    intros He; inversion He; subst e0; clear He.
  unfold parseMessage_try in H.
  destruct (_ || _) eqn:Hblank; [discriminate|].
  destruct (JSON_parse_value (JStr rawMessage)) as [message|] eqn:Hm;
    cbn [bind] in H; [|discriminate].
  destruct (get message "event") as [event|] eqn:Hev;
    cbn [bind] in H; [|discriminate].
  destruct (negb (truthy event)) eqn:Htr; [discriminate|].
  destruct (get message "data") as [data|] eqn:Hdata;
    cbn [bind] in H; [|discriminate].
  destruct (is_undefined data) eqn:Hu; [discriminate|].
  destruct event as [| | | |ev| |]; cbn [call_startsWith bind] in H;
    try discriminate.
  destruct (Str.startsWith ev "pusher:") eqn:Hp1; cbn [bind] in H;
    [discriminate|].
  destruct (Str.startsWith ev "pusher_internal:") eqn:Hp2; [discriminate|].
  cbn [is_str] in H.
  destruct (String.eqb ev "") eqn:Hne; [discriminate|]. cbn [orb] in H.
  destruct (is_str data "") eqn:Hds; [discriminate|].
  cbn [orb] in H.
  destruct (JSON_parse_value data) as [d|] eqn:Hd;
    cbn [bind try_catch] in H; [|discriminate].
  exists message, ev, data, d.
  apply String.eqb_neq in Hne.
  unfold reserved. rewrite Hp1, Hp2.
  repeat split; assumption.
Qed.

(** The same frame seen by the two other entry points. *)
Lemma parseMessage_inv_entry rawMessage e :
  parseMessage rawMessage = Normal (Some e) ->
  exists ev d,
    isValidMessage rawMessage = Normal true /\
    extractEventType rawMessage = Normal (Some (JStr ev)) /\
    ev <> "" /\ reserved ev = false /\
    parseMessage_mapped ev d = Normal (Some e).
Proof.
  intros H.
  apply parseMessage_inv in H
    as (message & ev & data & d & Hb & Hm & Hev & Hne & Hres & Hdata
        & Hu & Hds & _ & Hmap).
  pose proof Hne as Hne'. apply String.eqb_neq in Hne'.
  pose proof Hres as Hres'. apply orb_false_elim in Hres' as [Hp1 Hp2].
  exists ev, d. repeat split; try assumption.
  - unfold isValidMessage. rewrite Hb, Hm. cbn [bind].
    rewrite Hev. cbn [bind truthy]. rewrite Hne'. cbn [negb].
    rewrite Hdata. cbn [bind is_str]. rewrite Hu, Hne', Hds. reflexivity.
  - unfold extractEventType. rewrite Hb, Hm. cbn [bind].
    rewrite Hev. cbn [bind truthy call_startsWith is_str].
    rewrite Hne', Hp1, Hp2. reflexivity.
Qed.

(** [X1]  A frame that [parseMessage] turns into an envelope is accepted by
    the two other entry points: [isValidMessage] answers [true] and
    [extractEventType] returns its wire name, which is not empty and not
    reserved to the relay. *)
Theorem parsed_frame_is_valid (rawMessage : string) (e : Envelope) :
  parseMessage rawMessage = Normal (Some e) ->
  isValidMessage rawMessage = Normal true /\
  exists ev,
    extractEventType rawMessage = Normal (Some (JStr ev)) /\
    ev <> "" /\ reserved ev = false.
Proof.
  intros H.
  apply parseMessage_inv_entry in H as (ev & d & Hv & Hx & Hne & Hres & _).
  split; [exact Hv|]. exists ev. repeat split; assumption.
Qed.

(** [X2]  A frame whose event name carries one of the two prefixes reserved
    to the relay is never turned into an envelope, whatever its data, and
    [extractEventType] does not report its name. *)
Theorem reserved_frame_is_dropped
        (rawMessage ev : string) (message : JSValue) :
  JSON_parse rawMessage = Some message ->
  get message "event" = Normal (JStr ev) ->
  reserved ev = true ->
  parseMessage rawMessage = Normal None /\
  extractEventType rawMessage = Normal None.
Proof.
  intros Hm Hev Hres.
  assert (Hne : String.eqb ev "" = false).
  { destruct ev; [discriminate Hres | reflexivity]. }
  assert (Hp : forall A (x y : Completion A),
             (p1 <- call_startsWith (JStr ev) "pusher:" ;;
              p2 <- (if p1 then Normal true
                     else call_startsWith (JStr ev) "pusher_internal:") ;;
              if p2 then x else y) = x).
  { intros A x y. cbn [call_startsWith bind]. unfold reserved in Hres.
    destruct (Str.startsWith ev "pusher:"); cbn [bind]; [reflexivity|].
    cbn [orb] in Hres. now rewrite Hres. }
  split.
  - unfold parseMessage, parseMessage_try.
    destruct (_ || _); [reflexivity|].
    rewrite (JSON_parse_value_text _ _ Hm). cbn [bind].
    rewrite Hev. cbn [bind truthy]. rewrite Hne. cbn [negb].
    destruct (get message "data") as [data|]; cbn [bind try_catch];
      [|reflexivity].
    destruct (is_undefined data); [reflexivity|].
    rewrite Hp. reflexivity.
  - unfold extractEventType.
    destruct (_ || _); [reflexivity|].
    rewrite (JSON_parse_value_text _ _ Hm). cbn [bind].
    rewrite Hev. cbn [bind truthy]. rewrite Hne. cbn [negb].
    rewrite Hp. reflexivity.
Qed.

Lemma dispatch_wire_kinds n d type transform :
  dispatch n d = Some (type, transform) ->
  assoc n wire_kinds = Some type.
Proof.
  unfold dispatch, wire_kinds, EVENT_TYPE_MAP. cbn [app assoc].
  intros H.
  repeat match type of H with
         | (if ?b then _ else _) = _ =>
             destruct b; [inversion H; reflexivity|]
         end.
  discriminate.
Qed.

(** [X3]  An envelope is only produced for a frame whose name, once mapped
    through the legacy table, is one of the twelve wire names of the
    [switch], and the envelope's [type] is the kind of that name: a frame
    under any other name is dropped whatever its data. *)
Theorem envelope_kind_of_wire_name (rawMessage : string) (e : Envelope) :
  parseMessage rawMessage = Normal (Some e) ->
  exists ev normalized,
    extractEventType rawMessage = Normal (Some (JStr ev)) /\
    normalizeEvent ev = Some normalized /\
    assoc normalized wire_kinds = Some (env_type e).
Proof.
  intros H.
  apply parseMessage_inv_entry in H as (ev & d & _ & Hx & _ & _ & Hmap).
  exists ev.
  unfold parseMessage_mapped in Hmap.
  destruct (normalizeEvent ev) as [n|]; [|discriminate].
  exists n. split; [exact Hx|]. split; [reflexivity|].
  destruct (dispatch n d) as [[type transform]|] eqn:Hd; [|discriminate].
  destruct transform as [v|]; cbn [bind] in Hmap; [|discriminate].
  inversion Hmap; subst e. cbn [env_type].
  exact (dispatch_wire_kinds _ _ _ _ Hd).
Qed.

(** [X4]  The [legacyType] of an envelope is decided by the legacy table
    alone: it is present exactly when the table has an own entry for the
    wire name whose value is neither empty nor the name itself, and it then
    holds the wire name. *)
Theorem legacyType_of_wire_name (rawMessage : string) (e : Envelope) :
  parseMessage rawMessage = Normal (Some e) ->
  exists ev,
    extractEventType rawMessage = Normal (Some (JStr ev)) /\
    env_legacyType e
    = match assoc ev LEGACY_EVENT_MAPPING with
      | Some v => if String.eqb v "" || String.eqb v ev then None else Some ev
      | None => None
      end.
Proof.
  intros H.
  apply parseMessage_inv_entry in H as (ev & d & _ & Hx & _ & _ & Hmap).
  exists ev. split; [exact Hx|].
  unfold parseMessage_mapped, normalizeEvent, record_get in Hmap.
  destruct (assoc ev LEGACY_EVENT_MAPPING) as [v|].
  - destruct (String.eqb v "") eqn:Hv; cbn [orb].
    + rewrite String.eqb_refl in Hmap. cbn [negb] in Hmap.
      destruct (dispatch ev d) as [[type transform]|]; [|discriminate].
      destruct transform; cbn [bind] in Hmap; [|discriminate].
      inversion Hmap. reflexivity.
    + rewrite (String.eqb_sym v ev).
      destruct (dispatch v d) as [[type transform]|]; [|discriminate].
      destruct transform; cbn [bind] in Hmap; [|discriminate].
      inversion Hmap. cbn [env_legacyType].
      now destruct (String.eqb ev v).
  - destruct (mem_string ev Object_prototype_names); [discriminate|].
    rewrite String.eqb_refl in Hmap. cbn [negb] in Hmap.
    destruct (dispatch ev d) as [[type transform]|]; [|discriminate].
    destruct transform; cbn [bind] in Hmap; [|discriminate].
    inversion Hmap. reflexivity.
Qed.

(** ** The two revisions of the parser *)

Lemma dispatch_split n d :
  dispatch n d
  = match dispatch_v1 n d with
    | Some r => Some r
    | None =>
        if String.eqb n KickEvent_KicksGifted
        then Some ("KicksGifted", parseKicksGifted d)
        else None
    end.
Proof.
  unfold dispatch, dispatch_v1.
  repeat match goal with
         | |- (if ?b then _ else _) = _ => destruct b; [reflexivity|]
         end.
  reflexivity.
Qed.

Lemma dispatch_v1_inherited ev d :
  mem_string ev Object_prototype_names = true -> dispatch_v1 ev d = None.
Proof.
  intros H. apply mem_string_In in H. cbn [Object_prototype_names In] in H.
  repeat destruct H as [H|H]; try contradiction; subst ev; reflexivity.
Qed.

(** [X5]  With an empty legacy table the later revision of [parseMessage]
    answers what the earlier one (src/src/MessageParser.ts) answers on every
    input, except where it returns a [KicksGifted] envelope, which the
    earlier revision drops. *)
Theorem revisions_agree (rawMessage : string) :
  LEGACY_EVENT_MAPPING = [] ->
  parseMessage_v1 rawMessage = parseMessage rawMessage \/
  exists e,
    parseMessage rawMessage = Normal (Some e) /\
    env_type e = "KicksGifted" /\
    parseMessage_v1 rawMessage = Normal None.
Proof.
  intros Htable.
  unfold parseMessage_v1, parseMessage, parseMessage_v1_try, parseMessage_try.
  destruct (_ || _); [left; reflexivity|].
  destruct (JSON_parse_value (JStr rawMessage)) as [message|];
    cbn [bind]; [|left; reflexivity].
  destruct (get message "event") as [event|]; cbn [bind]; [|left; reflexivity].
  destruct (negb (truthy event)); [left; reflexivity|].
  destruct (get message "data") as [data|]; cbn [bind]; [|left; reflexivity].
  destruct (is_undefined data); [left; reflexivity|].
  destruct event as [| | | |ev| |]; cbn [call_startsWith bind];
    try (left; reflexivity).
  destruct (Str.startsWith ev "pusher:"); cbn [bind]; [left; reflexivity|].
  destruct (Str.startsWith ev "pusher_internal:"); [left; reflexivity|].
  destruct (is_str (JStr ev) "" || is_str data ""); [left; reflexivity|].
  destruct (try_catch _ (fun _ : JSError => @Normal (option JSValue) None))
    as [decoded|]; cbn [bind]; [|left; reflexivity].
  destruct decoded as [d|]; [|left; reflexivity].
  unfold parseMessage_mapped, normalizeEvent, record_get.
  rewrite Htable. cbn [assoc].
  destruct (mem_string ev Object_prototype_names) eqn:Hproto.
  - rewrite (dispatch_v1_inherited _ d Hproto). left. reflexivity.
  - rewrite String.eqb_refl. cbn [negb]. rewrite dispatch_split.
    destruct (dispatch_v1 ev d) as [[type transform]|]; [left; reflexivity|].
    destruct (String.eqb ev KickEvent_KicksGifted); [|left; reflexivity].
    destruct (parseKicksGifted d) as [v|]; cbn [bind try_catch];
      [|left; reflexivity].
    right. eexists. repeat split.
Qed.

(** ** The transforms *)

Lemma get_nullish v k : nullish v = true -> get v k = Throw TypeError.
Proof. destruct v; cbn; intros H; try discriminate; reflexivity. Qed.

Lemma or_else_Normal x b :
  or_else (Normal x) b = if truthy x then Normal x else b.
Proof. reflexivity. Qed.

(** [a || b || "unknown"] on two reads that do not throw. *)
Lemma or_else_unknown a b :
  exists u,
    or_else (Normal a) (or_else (Normal b) (Normal (JStr "unknown")))
    = Normal u /\
    truthy u = true /\
    (truthy a = true -> u = a) /\
    (truthy a = false -> truthy b = true -> u = b) /\
    (truthy a = false -> truthy b = false -> u = JStr "unknown").
Proof.
  rewrite !or_else_Normal.
  destruct (truthy a) eqn:Ha; [exists a|destruct (truthy b) eqn:Hb;
    [exists b | exists (JStr "unknown")]];
    repeat split; auto; try discriminate.
Qed.

(** [X6]  The username of a ban, an unban and a subscription is never
    missing: on a payload that is not [null] the transform succeeds with a
    truthy username, the direct [username] field when it is truthy, else the
    alternative field when that is truthy, else ["unknown"]; on [null] it
    throws. *)
Theorem username_never_missing (d : JSValue) :
  (nullish d = false ->
   forall a, get d "username" = Normal a ->
   (forall b, get d "banned_username" = Normal b ->
    exists u,
      parseUserBanned d
      = Normal (JObj [("username", u); ("type", JStr "user_banned")]) /\
      truthy u = true /\
      (truthy a = true -> u = a) /\
      (truthy a = false -> truthy b = true -> u = b) /\
      (truthy a = false -> truthy b = false -> u = JStr "unknown")) /\
   (forall b, get d "unbanned_username" = Normal b ->
    exists u,
      parseUserUnbanned d
      = Normal (JObj [("username", u); ("type", JStr "user_unbanned")]) /\
      truthy u = true /\
      (truthy a = true -> u = a) /\
      (truthy a = false -> truthy b = true -> u = b) /\
      (truthy a = false -> truthy b = false -> u = JStr "unknown")) /\
   (forall user b,
      get d "user" = Normal user -> get_opt user "username" = Normal b ->
      exists u,
        parseSubscription d
        = Normal (JObj [("username", u); ("type", JStr "subscription")]) /\
        truthy u = true /\
        (truthy a = true -> u = a) /\
        (truthy a = false -> truthy b = true -> u = b) /\
        (truthy a = false -> truthy b = false -> u = JStr "unknown"))) /\
  (nullish d = true ->
   parseUserBanned d = Throw TypeError /\
   parseUserUnbanned d = Throw TypeError /\
   parseSubscription d = Throw TypeError).
Proof.
  split.
  - intros Hd a Ha. repeat split.
    + intros b Hb. destruct (or_else_unknown a b) as (u & Hu & Hrest).
      exists u. split; [|exact Hrest].
      unfold parseUserBanned. rewrite Ha, Hb, Hu. reflexivity.
    + intros b Hb. destruct (or_else_unknown a b) as (u & Hu & Hrest).
      exists u. split; [|exact Hrest].
      unfold parseUserUnbanned. rewrite Ha, Hb, Hu. reflexivity.
    + intros user b Huser Hb.
      destruct (or_else_unknown a b) as (u & Hu & Hrest).
      exists u. split; [|exact Hrest].
      unfold parseSubscription. rewrite Ha, Huser. cbn [bind].
      rewrite Hb, Hu. reflexivity.
  - intros Hd.
    unfold parseUserBanned, parseUserUnbanned, parseSubscription.
    rewrite (get_nullish d "username" Hd). repeat split.
Qed.

Lemma mapM_Forall2 {A B : Type} (f : A -> Completion B) (R : A -> B -> Prop)
      (l : list A) :
  Forall (fun x => exists y, f x = Normal y /\ R x y) l ->
  exists ys, mapM f l = Normal ys /\ Forall2 R l ys.
Proof.
  induction 1 as [|x l (y & Hy & HR) _ (ys & Hys & HF)]; cbn [mapM].
  - exists []. split; [reflexivity | constructor].
  - exists (y :: ys). rewrite Hy, Hys. split; [reflexivity|].
    constructor; assumption.
Qed.

Lemma mapM_Exists_Throw {A B : Type} (f : A -> Completion B) (e : JSError)
      (l : list A) :
  (forall x, In x l -> (exists y, f x = Normal y) \/ f x = Throw e) ->
  Exists (fun x => f x = Throw e) l ->
  mapM f l = Throw e.
Proof.
  intros Hall Hex. induction Hex as [x l Hx|x l _ IH]; cbn [mapM].
  - now rewrite Hx.
  - destruct (Hall x (or_introl eq_refl)) as [[y Hy]|Hx].
    + rewrite Hy. cbn [bind]. rewrite IH; [reflexivity|].
      intros z Hz. apply Hall. now right.
    + now rewrite Hx.
Qed.

(** The callback of [recipients.map]. *)
Lemma recipient_normalised r :
  (nullish r = false ->
   exists y,
     (if String.eqb (typeof r) "string" then Normal r
      else or_else (get r "username") (Normal (JStr "unknown"))) = Normal y /\
     kept_or_truthy r y) /\
  (nullish r = true ->
   (if String.eqb (typeof r) "string" then Normal r
    else or_else (get r "username") (Normal (JStr "unknown")))
   = Throw TypeError).
Proof.
  unfold kept_or_truthy. split; intros H.
  - destruct (String.eqb (typeof r) "string") eqn:Ht; [eauto|].
    destruct (get_total r "username" H) as [x ->].
    rewrite or_else_Normal. destruct (truthy x) eqn:Hx; eauto.
  - destruct r; try discriminate; reflexivity.
Qed.

(** [data.gifted_by || (typeof data.gifter === "object" ? ... ) || "unknown"]
    when [gifter] is not [null]. *)
Lemma gifter_normalised d :
  nullish d = false ->
  get d "gifter" <> Normal JNull ->
  exists g,
    or_else (get d "gifted_by")
      (or_else
         (g <- get d "gifter" ;;
          if String.eqb (typeof g) "object" then get g "username"
          else Normal g)
         (Normal (JStr "unknown"))) = Normal g /\
    truthy g = true.
Proof.
  intros Hd Hnull.
  destruct (get_total d "gifted_by" Hd) as [a ->].
  destruct (get_total d "gifter" Hd) as [gv Hgv]. rewrite Hgv in *.
  rewrite or_else_Normal. destruct (truthy a) eqn:Ha; [eauto|].
  cbn [bind].
  assert (Hx : exists x,
             (if String.eqb (typeof gv) "object" then get gv "username"
              else Normal gv) = Normal x).
  { destruct gv; cbn; eauto; [congruence|].
    destruct (assoc "username" fields); eauto. }
  destruct Hx as [x ->]. rewrite or_else_Normal.
  destruct (truthy x) eqn:Hx; eauto.
Qed.

(** [X7]  Gifted subscriptions, on a payload that is not [null] and whose
    [gifter] is not [null]: the gifter of the result is truthy; recipients
    that are no array become the empty list; an array without [null] or
    [undefined] entries is normalised entry by entry, strings kept as they
    are and everything else replaced by a truthy name; an array with a
    [null] or [undefined] entry makes the transform throw. *)
Theorem gifted_recipients_normalised (d : JSValue) :
  nullish d = false ->
  get d "gifter" <> Normal JNull ->
  (forall r,
      get d "recipients" = Normal r -> isArray r = false ->
      exists g,
        parseGiftedSubscriptions d
        = Normal (JObj [ ("gifted_by", g); ("recipients", JArr []);
                         ("type", JStr "gifted_subscriptions") ]) /\
        truthy g = true) /\
  (forall items,
      get d "recipients" = Normal (JArr items) ->
      Forall (fun r => nullish r = false) items ->
      exists g rs,
        parseGiftedSubscriptions d
        = Normal (JObj [ ("gifted_by", g); ("recipients", JArr rs);
                         ("type", JStr "gifted_subscriptions") ]) /\
        truthy g = true /\
        Forall2 kept_or_truthy items rs) /\
  (forall items,
      get d "recipients" = Normal (JArr items) ->
      Exists (fun r => nullish r = true) items ->
      parseGiftedSubscriptions d = Throw TypeError).
Proof.
  intros Hd Hnull.
  destruct (gifter_normalised d Hd Hnull) as (g & Hg & Htruthy).
  repeat split.
  - intros r Hr Harr. exists g. split; [|exact Htruthy].
    unfold parseGiftedSubscriptions. rewrite Hg, Hr. cbn [bind].
    destruct r; try discriminate; reflexivity.
  - intros items Hr Hall.
    destruct (mapM_Forall2
                (fun r => if String.eqb (typeof r) "string" then Normal r
                          else or_else (get r "username")
                                       (Normal (JStr "unknown")))
                kept_or_truthy items) as (rs & Hrs & HF).
    { eapply Forall_impl; [|exact Hall].
      intros r H. exact (proj1 (recipient_normalised r) H). }
    exists g, rs. split; [|split; assumption].
    unfold parseGiftedSubscriptions. rewrite Hg, Hr. cbn [bind].
    rewrite Hrs. reflexivity.
  - intros items Hr Hex.
    unfold parseGiftedSubscriptions. rewrite Hg, Hr. cbn [bind].
    rewrite (mapM_Exists_Throw _ TypeError items); [reflexivity| |].
    + intros x _. destruct (nullish x) eqn:Hx.
      * right. exact (proj2 (recipient_normalised x) Hx).
      * left. destruct (proj1 (recipient_normalised x) Hx) as (y & Hy & _).
        eauto.
    + eapply Exists_impl; [|exact Hex].
      intros r H. exact (proj2 (recipient_normalised r) H).
Qed.

Lemma string_or_username_total v :
  exists out,
    string_or_username v = Normal out /\
    kept_or_truthy v out /\
    (nullish v = true -> out = JStr "unknown").
Proof.
  unfold string_or_username, kept_or_truthy.
  destruct (String.eqb (typeof v) "string") eqn:Ht.
  - exists v. repeat split. destruct v; try discriminate.
  - destruct (get_opt_total v "username") as [x Hx]. rewrite Hx.
    rewrite or_else_Normal. destruct (truthy x) eqn:Htx.
    + exists x. repeat split; [exact Htx|].
      intros Hn. unfold get_opt in Hx. rewrite Hn in Hx.
      inversion Hx; subst. discriminate.
    + exists (JStr "unknown"). repeat split.
Qed.

(** [X8]  A host event is transformed without an exception whenever its
    payload is not [null]: each of [hoster] and [hosted_channel] is kept when
    it is a string and replaced by a truthy name otherwise, which is
    ["unknown"] when the field is missing or [null]. *)
Theorem stream_host_names_normalised (d : JSValue) :
  nullish d = false ->
  exists h c hoster hostedChannel,
    get d "hoster" = Normal h /\
    get d "hosted_channel" = Normal c /\
    parseStreamHost d
    = Normal (JObj [ ("hoster", hoster); ("hosted_channel", hostedChannel);
                     ("type", JStr "stream_host") ]) /\
    kept_or_truthy h hoster /\
    kept_or_truthy c hostedChannel /\
    (nullish h = true -> hoster = JStr "unknown") /\
    (nullish c = true -> hostedChannel = JStr "unknown").
Proof.
  intros Hd.
  destruct (get_total d "hoster" Hd) as [h Hh].
  destruct (get_total d "hosted_channel" Hd) as [c Hc].
  destruct (string_or_username_total h) as (h' & Hh' & Hk & Hu).
  destruct (string_or_username_total c) as (c' & Hc' & Hk' & Hu').
  exists h, c, h', c'. unfold parseStreamHost.
  rewrite Hh, Hc. cbn [bind]. rewrite Hh'. cbn [bind]. rewrite Hc'.
  repeat split; assumption.
Qed.

(** The callback of [options.map]. *)
Lemma poll_option_normalised opt :
  (nullish opt = false ->
   exists out,
     (id <- get opt "id" ;;
      text <- get opt "text" ;;
      votes <- or_else (get opt "votes") (Normal (JNum zero)) ;;
      Normal (JObj [("id", id); ("text", text); ("votes", votes)]))
     = Normal out /\
     poll_option opt out) /\
  (nullish opt = true ->
   (id <- get opt "id" ;;
    text <- get opt "text" ;;
    votes <- or_else (get opt "votes") (Normal (JNum zero)) ;;
    Normal (JObj [("id", id); ("text", text); ("votes", votes)]))
   = Throw TypeError).
Proof.
  split; intros H.
  - destruct (get_total opt "id" H) as [id Hid].
    destruct (get_total opt "text" H) as [text Htext].
    destruct (get_total opt "votes" H) as [votes Hvotes].
    rewrite Hid, Htext, Hvotes. cbn [bind]. rewrite or_else_Normal.
    exists (JObj [ ("id", id); ("text", text);
                   ("votes", or_default votes (JNum zero)) ]).
    split.
    + unfold or_default. destruct (truthy votes); reflexivity.
    + exists id, text, votes. repeat split; assumption.
  - rewrite (get_nullish opt "id" H). reflexivity.
Qed.

(** [X9]  A poll update, on a payload that is not [null]: falsy [options]
    become the empty list; an array without [null] or [undefined] entries is
    mapped entry by entry, the [votes] of an entry kept when truthy and
    replaced by [0] otherwise; truthy [options] that are no array, and an
    array with a [null] or [undefined] entry, make the transform throw. *)
Theorem poll_options_normalised (d : JSValue) :
  nullish d = false ->
  exists id question o,
    get d "id" = Normal id /\
    get d "question" = Normal question /\
    get d "options" = Normal o /\
    (truthy o = false ->
     parsePollUpdate d
     = Normal (JObj [ ("poll_id", id); ("question", question);
                      ("options", JArr []); ("type", JStr "poll_update") ])) /\
    (forall items,
        o = JArr items ->
        Forall (fun opt => nullish opt = false) items ->
        exists options,
          parsePollUpdate d
          = Normal (JObj [ ("poll_id", id); ("question", question);
                           ("options", JArr options);
                           ("type", JStr "poll_update") ]) /\
          Forall2 poll_option items options) /\
    (forall items,
        o = JArr items ->
        Exists (fun opt => nullish opt = true) items ->
        parsePollUpdate d = Throw TypeError) /\
    (truthy o = true -> isArray o = false ->
     parsePollUpdate d = Throw TypeError).
Proof.
  intros Hd.
  destruct (get_total d "id" Hd) as [id Hid].
  destruct (get_total d "question" Hd) as [question Hq].
  destruct (get_total d "options" Hd) as [o Ho].
  exists id, question, o.
  unfold parsePollUpdate. rewrite Hid, Hq, Ho. cbn [bind].
  rewrite or_else_Normal.
  repeat split.
  - intros ->. reflexivity.
  - intros items -> Hall. cbn [truthy bind].
    destruct (mapM_Forall2 _ poll_option items
                (Forall_impl _
                   (fun opt H => proj1 (poll_option_normalised opt) H) Hall))
      as (options & -> & HF).
    exists options. split; [reflexivity | exact HF].
  - intros items -> Hex. cbn [truthy bind].
    rewrite (mapM_Exists_Throw _ TypeError items); [reflexivity| |].
    + intros x _. destruct (nullish x) eqn:Hx.
      * right. exact (proj2 (poll_option_normalised x) Hx).
      * left. destruct (proj1 (poll_option_normalised x) Hx) as (y & Hy & _).
        eauto.
    + eapply Exists_impl; [|exact Hex].
      intros opt H. exact (proj2 (poll_option_normalised opt) H).
  - intros Ht Harr. rewrite Ht. cbn [bind].
    destruct o; try discriminate; reflexivity.
Qed.

(** ** Emote stripping *)

Lemma placeholder_length digits word :
  String.length (placeholder digits word)
  = 9 + String.length digits + String.length word.
Proof.
  unfold placeholder. cbn [String.append String.length].
  rewrite string_length_app. cbn [String.append String.length].
  rewrite string_length_app. cbn. lia.
Qed.

Lemma Stripped_length s out :
  Stripped s out ->
  String.length out <= String.length s /\
  (String.length out = String.length s -> out = s).
Proof.
  induction 1 as [|digits word rest out Hd Hw _ [IH1 IH2]
                  |c rest out Hno _ [IH1 IH2]].
  - split; [constructor | reflexivity].
  - rewrite !string_length_app, placeholder_length. split; lia.
  - cbn [String.length]. split; [lia|].
    intros H. f_equal. apply IH2. lia.
Qed.

Lemma Stripped_no_bracket s out :
  Stripped s out -> no_bracket s = true -> out = s.
Proof.
  induction 1 as [|digits word rest out Hd Hw _ IH|c rest out Hno _ IH].
  - reflexivity.
  - discriminate.
  - cbn [no_bracket]. intros H. apply andb_prop in H as [_ H].
    f_equal. exact (IH H).
Qed.

(** [X10]  Stripping emotes never makes a text longer, leaves the length
    unchanged only when it leaves the text unchanged, and returns a text
    without an opening bracket as it is. *)
Theorem cleanEmotes_only_shrinks (s : string) :
  String.length (cleanEmotes_string s) <= String.length s /\
  (String.length (cleanEmotes_string s) = String.length s ->
   cleanEmotes_string s = s) /\
  (no_bracket s = true -> cleanEmotes_string s = s).
Proof.
  pose proof (cleanEmotes_string_spec s) as H.
  destruct (Stripped_length _ _ H) as [H1 H2].
  repeat split; [exact H1 | exact H2 | exact (Stripped_no_bracket _ _ H)].
Qed.

(** ** Chat messages *)

Lemma cleanEmotes_outcome c :
  if negb (truthy c) || String.eqb (typeof c) "string"
  then exists s, cleanEmotes c = Normal s
  else cleanEmotes c = Throw TypeError.
Proof.
  unfold cleanEmotes.
  destruct c; cbn [truthy negb typeof String.eqb orb Ascii.eqb Bool.eqb];
    eauto.
  - destruct b; cbn; eauto.
  - destruct (number_truthy n); cbn; eauto.
  - rewrite orb_true_r. destruct (negb (negb (s =? ""))); eauto.
Qed.

Lemma parseChatMessage_not_ok d :
  chat_ok d = false -> parseChatMessage d = Throw TypeError.
Proof.
  unfold chat_ok, parseChatMessage. intros H.
  destruct (nullish d) eqn:Hd.
  { rewrite (get_nullish d "id" Hd). reflexivity. }
  destruct (get_total d "id" Hd) as [id ->].
  destruct (get_total d "content" Hd) as [c Hc].
  destruct (get_total d "created_at" Hd) as [created ->].
  destruct (get_total d "sender" Hd) as [sender Hs].
  rewrite Hc, Hs in *. cbn [bind].
  pose proof (cleanEmotes_outcome c) as Hclean.
  destruct (negb (truthy c) || String.eqb (typeof c) "string").
  - destruct Hclean as [s ->]. cbn [bind].
    cbn [andb] in H. apply negb_false_iff in H.
    rewrite (get_nullish sender "id" H). reflexivity.
  - rewrite Hclean. reflexivity.
Qed.

Lemma parseChatMessage_ok d :
  chat_ok d = true ->
  exists id content created sender sid username slug identity chatroom
         color badges room,
    get d "id" = Normal id /\
    get d "content" = Normal content /\
    get d "created_at" = Normal created /\
    get d "sender" = Normal sender /\
    get sender "id" = Normal sid /\
    get sender "username" = Normal username /\
    get sender "slug" = Normal slug /\
    get sender "identity" = Normal identity /\
    get d "chatroom" = Normal chatroom /\
    get_opt identity "color" = Normal color /\
    get_opt identity "badges" = Normal badges /\
    get_opt chatroom "id" = Normal room /\
    exists text,
      cleanEmotes content = Normal text /\
      parseChatMessage d
      = Normal
          (JObj
             [ ("id", id);
               ("content", JStr text);
               ("type", JStr "message");
               ("created_at", created);
               ("sender",
                 JObj [ ("id", sid);
                        ("username", username);
                        ("slug", slug);
                        ("identity",
                          JObj [ ("color", or_default color (JStr "#ffffff"));
                                 ("badges", or_default badges (JArr [])) ]) ]);
               ("chatroom",
                 JObj [("id", or_default room (JNum zero))]) ]).
Proof.
  unfold chat_ok. intros H.
  destruct (get d "content") as [c|] eqn:Hc; [|discriminate].
  destruct (get d "sender") as [sender|] eqn:Hs; [|discriminate].
  apply andb_prop in H as [Hcontent Hsender].
  apply negb_true_iff in Hsender.
  pose proof (get_Normal_not_nullish _ _ _ Hc) as Hd.
  destruct (get_total d "id" Hd) as [id Hid].
  destruct (get_total d "created_at" Hd) as [created Hcreated].
  destruct (get_total sender "id" Hsender) as [sid Hsid].
  destruct (get_total sender "username" Hsender) as [un Hun].
  destruct (get_total sender "slug" Hsender) as [slug Hslug].
  destruct (get_total sender "identity" Hsender) as [identity Hidentity].
  destruct (get_total d "chatroom" Hd) as [chatroom Hchatroom].
  destruct (get_opt_total identity "color") as [color Hcolor].
  destruct (get_opt_total identity "badges") as [badges Hbadges].
  destruct (get_opt_total chatroom "id") as [room Hroom].
  pose proof (cleanEmotes_outcome c) as Hclean. rewrite Hcontent in Hclean.
  destruct Hclean as [text Htext].
  exists id, c, created, sender, sid, un, slug, identity, chatroom,
         color, badges, room.
  do 12 (split; [first [assumption | reflexivity]|]).
  exists text. split; [exact Htext|].
  unfold parseChatMessage.
  rewrite Hid, Hc. cbn [bind]. rewrite Htext, Hcreated, Hs. cbn [bind].
  rewrite Hsid, Hun, Hslug, Hidentity. cbn [bind].
  rewrite Hcolor, Hbadges, Hchatroom. rewrite !or_else_Normal. cbn [bind].
  rewrite Hroom. rewrite !or_else_Normal. unfold or_default.
  destruct (truthy color), (truthy badges), (truthy room); reflexivity.
Qed.

(** [X11]  The transform of a chat message succeeds exactly on the payloads
    that are not [null], have a sender that is not [null] and a content that
    is falsy or a string; everywhere else it throws a [TypeError].  On
    success the identifiers are copied, a missing or falsy colour becomes
    ["#ffffff"], missing or falsy badges become the empty list and a missing
    or falsy chatroom id becomes [0]. *)
Theorem chat_transform_outcome (d : JSValue) :
  (chat_ok d = true ->
   exists out sender identity chatroom color badges room,
     parseChatMessage d = Normal out /\
     get d "sender" = Normal sender /\
     get sender "identity" = Normal identity /\
     get d "chatroom" = Normal chatroom /\
     get_opt identity "color" = Normal color /\
     get_opt identity "badges" = Normal badges /\
     get_opt chatroom "id" = Normal room /\
     get out "id" = get d "id" /\
     get out "created_at" = get d "created_at" /\
     get out "type" = Normal (JStr "message") /\
     get_path out ["sender"; "id"] = get sender "id" /\
     get_path out ["sender"; "username"] = get sender "username" /\
     get_path out ["sender"; "slug"] = get sender "slug" /\
     get_path out ["sender"; "identity"; "color"]
     = Normal (or_default color (JStr "#ffffff")) /\
     get_path out ["sender"; "identity"; "badges"]
     = Normal (or_default badges (JArr [])) /\
     get_path out ["chatroom"; "id"] = Normal (or_default room (JNum zero))) /\
  (chat_ok d = false -> parseChatMessage d = Throw TypeError).
Proof.
  split; [|apply parseChatMessage_not_ok].
  intros H.
  destruct (parseChatMessage_ok d H)
    as (id & c & created & sender & sid & un & slug & identity & chatroom
        & color & badges & room & Hid & Hc & Hcreated & Hs & Hsid & Hun
        & Hslug & Hidentity & Hchatroom & Hcolor & Hbadges & Hroom
        & text & Htext & Hout).
  eexists. exists sender, identity, chatroom, color, badges, room.
  split; [exact Hout|].
  rewrite Hid, Hcreated, Hsid, Hun, Hslug.
  repeat split; assumption.
Qed.

(** [X12]  A pinned message is transformed exactly when its [message] is a
    payload the chat transform accepts, and then carries the transformed
    message; a [null] payload, and a message the chat transform rejects,
    throw a [TypeError]. *)
Theorem pinned_message_follows_chat (d : JSValue) :
  (nullish d = true -> parsePinnedMessageCreated d = Throw TypeError) /\
  (forall m,
      get d "message" = Normal m ->
      if chat_ok m then
        exists message,
          parseChatMessage m = Normal message /\
          parsePinnedMessageCreated d
          = Normal (JObj [ ("message", message);
                           ("type", JStr "pinned_message_created") ])
      else parsePinnedMessageCreated d = Throw TypeError).
Proof.
  unfold parsePinnedMessageCreated. split.
  - intros H. rewrite (get_nullish d "message" H). reflexivity.
  - intros m ->. cbn [bind].
    destruct (chat_ok m) eqn:Hm.
    + destruct (parseChatMessage_ok m Hm)
        as (? & ? & ? & ? & ? & ? & ? & ? & ? & ? & ? & ? & _ & _ & _ & _ & _
            & _ & _ & _ & _ & _ & _ & _ & ? & _ & Hout).
      rewrite Hout. eexists. split; reflexivity.
    + rewrite (parseChatMessage_not_ok m Hm). reflexivity.
Qed.

(** ** Transforms that copy fields *)

Lemma project_total v : forall names,
  nullish v = false ->
  exists fields,
    project v names = Normal fields /\
    map fst fields = names /\
    Forall (fun kv => get v (fst kv) = Normal (snd kv)) fields.
Proof.
  unfold project. intros names Hv.
  induction names as [|k names (fields & Hf & Hnames & Hall)]; cbn [mapM].
  - exists []. repeat split. constructor.
  - destruct (get_total v k Hv) as [x Hx]. rewrite Hx, Hf. cbn [bind].
    exists ((k, x) :: fields). cbn [map fst]. rewrite Hnames.
    repeat split. constructor; assumption.
Qed.

Lemma project_nullish v k names :
  nullish v = true -> project v (k :: names) = Throw TypeError.
Proof.
  intros H. unfold project. cbn [mapM].
  rewrite (get_nullish v k H). reflexivity.
Qed.

(** [X13]  The transforms of a redeemed reward and of gifted kicks copy the
    fields they name and nothing else.  The first fails only on a [null]
    payload, the second exactly when the payload, its [sender] or its [gift]
    is [null] or missing; the failure is a [TypeError]. *)
Theorem copying_transforms_outcome (d : JSValue) :
  (if nullish d then parseRewardRedeemed d = Throw TypeError
   else
     exists fields,
       parseRewardRedeemed d
       = Normal (JObj (fields ++ [("type", JStr "reward_redeemed")])) /\
       map fst fields = [ "reward_title"; "user_id"; "channel_id"; "username";
                          "user_input"; "reward_background_color" ] /\
       Forall (fun kv => get d (fst kv) = Normal (snd kv)) fields) /\
  (if kicks_ok d then
     exists id message sender0 gift0 sender gift,
       get d "gift_transaction_id" = Normal id /\
       get d "message" = Normal message /\
       get d "sender" = Normal sender0 /\
       get d "gift" = Normal gift0 /\
       parseKicksGifted d
       = Normal (JObj [ ("gift_transaction_id", id);
                        ("message", message);
                        ("sender", JObj sender);
                        ("gift", JObj gift);
                        ("type", JStr "kicks_gifted") ]) /\
       map fst sender = ["id"; "username"; "username_color"] /\
       Forall (fun kv => get sender0 (fst kv) = Normal (snd kv)) sender /\
       map fst gift = [ "gift_id"; "name"; "amount"; "type"; "tier";
                        "character_limit"; "pinned_time" ] /\
       Forall (fun kv => get gift0 (fst kv) = Normal (snd kv)) gift
   else parseKicksGifted d = Throw TypeError).
Proof.
  split.
  - unfold parseRewardRedeemed. destruct (nullish d) eqn:Hd.
    + rewrite (project_nullish d _ _ Hd). reflexivity.
    + destruct (project_total d
                  [ "reward_title"; "user_id"; "channel_id"; "username";
                    "user_input"; "reward_background_color" ] Hd)
        as (fields & -> & Hnames & Hall).
      exists fields. repeat split; assumption.
  - unfold kicks_ok, parseKicksGifted.
    destruct (nullish d) eqn:Hd.
    { rewrite (get_nullish d "sender" Hd),
              (get_nullish d "gift_transaction_id" Hd). reflexivity. }
    destruct (get_total d "gift_transaction_id" Hd) as [id Hid].
    destruct (get_total d "message" Hd) as [message Hmessage].
    destruct (get_total d "sender" Hd) as [sender0 Hsender].
    destruct (get_total d "gift" Hd) as [gift0 Hgift].
    rewrite Hid, Hmessage, Hsender, Hgift. cbn [bind].
    destruct (nullish sender0) eqn:Hs; cbn [negb andb].
    { rewrite (project_nullish sender0 _ _ Hs). reflexivity. }
    destruct (project_total sender0 ["id"; "username"; "username_color"] Hs)
      as (sender & -> & Hsn & Hsall). cbn [bind].
    destruct (nullish gift0) eqn:Hg; cbn [negb].
    { rewrite (project_nullish gift0 _ _ Hg). reflexivity. }
    destruct (project_total gift0
                [ "gift_id"; "name"; "amount"; "type"; "tier";
                  "character_limit"; "pinned_time" ] Hg)
      as (gift & -> & Hgn & Hgall). cbn [bind].
    exists id, message, sender0, gift0, sender, gift.
    repeat split; assumption.
Qed.

(** ** Failures inside [parseMessage] *)

Lemma parseMessage_transform_throws rawMessage event d n type err :
  wire_message rawMessage event d ->
  event <> "" ->
  reserved event = false ->
  normalizeEvent event = Some n ->
  dispatch n d = Some (type, Throw err) ->
  parseMessage rawMessage = Normal None.
Proof.
  intros Hw Hne Hres Hn Hd.
  rewrite (parseMessage_wire _ _ _ Hw Hne Hres).
  unfold parseMessage_mapped. rewrite Hn, Hd. reflexivity.
Qed.

(** [X14]  An exception thrown by a transform does not leave [parseMessage]:
    a frame that reaches a case of the [switch] whose transform throws is
    answered with [null].  In particular a chat frame whose payload the chat
    transform rejects is answered with [null]. *)
Theorem transform_failure_is_null
        (rawMessage event : string) (d : JSValue) (n : string) :
  wire_message rawMessage event d ->
  event <> "" ->
  reserved event = false ->
  normalizeEvent event = Some n ->
  (forall type err,
      dispatch n d = Some (type, Throw err) ->
      parseMessage rawMessage = Normal None) /\
  (n = KickEvent.ChatMessage -> chat_ok d = false ->
   parseMessage rawMessage = Normal None).
Proof.
  intros Hw Hne Hres Hn. split.
  - intros type err Hd.
    exact (parseMessage_transform_throws _ _ _ _ _ _ Hw Hne Hres Hn Hd).
  - intros -> Hchat.
    apply (parseMessage_transform_throws _ _ _ _ "ChatMessage" TypeError
             Hw Hne Hres Hn).
    unfold dispatch. rewrite String.eqb_refl.
    rewrite (parseChatMessage_not_ok d Hchat). reflexivity.
Qed.

(** * Further properties of the manager *)

(** ** Inbound frames *)

Lemma fold_clearTimeout_fetches (l : list (string * TimerId)) : forall w,
  fetches (fold_left (fun acc h => clearTimeout (snd h) acc) l w) = fetches w.
Proof. induction l as [|h l IH]; intros w; cbn; [reflexivity | now rewrite IH]. Qed.

Lemma fold_clearTimeout_next (l : list (string * TimerId)) : forall w,
  next (fold_left (fun acc h => clearTimeout (snd h) acc) l w) = next w.
Proof. induction l as [|h l IH]; intros w; cbn; [reflexivity | now rewrite IH]. Qed.

Lemma fold_clearTimeout_timers (l : list (string * TimerId)) : forall w,
  incl (timers (fold_left (fun acc h => clearTimeout (snd h) acc) l w))
       (timers w).
Proof.
  induction l as [|h l IH]; intros w; cbn [fold_left]; [apply incl_refl|].
  eapply incl_tran; [apply IH|].
  unfold clearTimeout, remove_key. cbn [set_timers timers].
  intros x Hx. apply filter_In in Hx. tauto.
Qed.

Lemma fetches_emit event payload w :
  fetches (emit event payload w) = fetches w.
Proof. unfold emit. rewrite fold_clearTimeout_fetches. reflexivity. Qed.

Lemma next_emit event payload w : next (emit event payload w) = next w.
Proof. unfold emit. rewrite fold_clearTimeout_next. reflexivity. Qed.

Lemma timers_emit event payload w :
  incl (timers (emit event payload w)) (timers w).
Proof.
  unfold emit. eapply incl_tran; [apply fold_clearTimeout_timers|].
  apply incl_refl.
Qed.

Lemma is_open_emit s event payload w :
  is_open s (emit event payload w) = is_open s w.
Proof. unfold is_open, readyState. now rewrite sockets_emit. Qed.

Lemma trace_sendPing_exact w :
  trace (sendPing w) = trace w ++ ping_effects w.
Proof.
  unfold sendPing, ping_effects. destruct (ws (mgr w)) as [s|].
  - destruct (is_open s w).
    + rewrite trace_emit. cbn [effect trace]. now rewrite <- app_assoc.
    + now rewrite app_nil_r.
  - now rewrite app_nil_r.
Qed.

(** What [sendPing] leaves alone. *)
Lemma sendPing_frame w :
  mgr (sendPing w) = mgr w /\
  sockets (sendPing w) = sockets w /\
  fetches (sendPing w) = fetches w /\
  next (sendPing w) = next w /\
  incl (timers (sendPing w)) (timers w).
Proof.
  unfold sendPing. destruct (ws (mgr w)) as [s|].
  - destruct (is_open s w).
    + rewrite mgr_emit, sockets_emit, fetches_emit, next_emit.
      repeat split.
      eapply incl_tran; [apply timers_emit | apply incl_refl].
    + repeat split. apply incl_refl.
  - repeat split. apply incl_refl.
Qed.

Lemma Forall_ping_effects w :
  Forall (fun e => is_notification e = true) (ping_effects w).
Proof.
  unfold ping_effects. destruct (ws (mgr w)) as [s|]; [|constructor].
  destruct (is_open s w); repeat constructor.
Qed.

Lemma sends_on_app a b : sends_on (a ++ b) = sends_on a ++ sends_on b.
Proof.
  induction a as [|e a IH]; cbn; [reflexivity|].
  destruct e; cbn; now rewrite ?IH.
Qed.

Lemma sends_on_ping_effects w s :
  In s (sends_on (ping_effects w)) ->
  ws (mgr w) = Some s /\ is_open s w = true.
Proof.
  unfold ping_effects. destruct (ws (mgr w)) as [s'|]; [|intros []].
  destruct (is_open s' w) eqn:Ho; [|intros []].
  cbn. intros [<-|[]]. auto.
Qed.

(** What [handleMessage] leaves alone, and what it adds to the trace. *)
Lemma handleMessage_frame rawMessage w :
  mgr (handleMessage rawMessage w) = mgr w /\
  sockets (handleMessage rawMessage w) = sockets w /\
  fetches (handleMessage rawMessage w) = fetches w /\
  next (handleMessage rawMessage w) = next w /\
  incl (timers (handleMessage rawMessage w)) (timers w) /\
  exists more,
    trace (handleMessage rawMessage w) = trace w ++ more /\
    Forall (fun e => is_notification e = true) more /\
    (forall s, In s (sends_on more) ->
               ws (mgr w) = Some s /\ is_open s w = true).
Proof.
  unfold handleMessage.
  set (w1 := emit "rawMessage" (RawPayload rawMessage) w).
  assert (Hm : mgr w1 = mgr w) by (unfold w1; now rewrite mgr_emit).
  assert (Hs : sockets w1 = sockets w) by (unfold w1; now rewrite sockets_emit).
  assert (Hf : fetches w1 = fetches w) by (unfold w1; now rewrite fetches_emit).
  assert (Hn : next w1 = next w) by (unfold w1; now rewrite next_emit).
  assert (Ht : incl (timers w1) (timers w)) by (unfold w1; apply timers_emit).
  assert (Htr : trace w1
                = trace w ++ [Emit "rawMessage" (RawPayload rawMessage)])
    by (unfold w1; apply trace_emit).
  assert (Hquiet : mgr w1 = mgr w /\ sockets w1 = sockets w /\
                   fetches w1 = fetches w /\ next w1 = next w /\
                   incl (timers w1) (timers w) /\
                   exists more,
                     trace w1 = trace w ++ more /\
                     Forall (fun e => is_notification e = true) more /\
                     (forall s, In s (sends_on more) ->
                                ws (mgr w) = Some s /\ is_open s w = true)).
  { repeat split; try assumption.
    exists [Emit "rawMessage" (RawPayload rawMessage)].
    repeat split; [exact Htr | repeat constructor | destruct H | destruct H]. }
  destruct (system_event rawMessage) as [event|].
  - destruct (is_str event "pusher:pong"); [|exact Hquiet].
    destruct (sendPing_frame w1) as (Hm' & Hs' & Hf' & Hn' & Ht').
    rewrite Hm', Hs', Hf', Hn', Hm, Hs, Hf, Hn.
    repeat split; [eapply incl_tran; eassumption|].
    exists (Emit "rawMessage" (RawPayload rawMessage) :: ping_effects w1).
    rewrite trace_sendPing_exact, Htr, <- app_assoc.
    split; [reflexivity|]. split.
    + constructor; [reflexivity | apply Forall_ping_effects].
    + cbn [sends_on]. intros s Hin.
      destruct (sends_on_ping_effects w1 s Hin) as [Hws Hopen].
      rewrite Hm in Hws. split; [exact Hws|].
      unfold is_open, readyState in *. now rewrite <- Hs.
  - destruct (filtered_out rawMessage w1); [exact Hquiet|].
    destruct (parseMessage rawMessage) as [[parsed|]|];
      [|exact Hquiet|exact Hquiet].
    rewrite mgr_emit, sockets_emit, fetches_emit, next_emit.
    repeat split; try assumption.
    { eapply incl_tran; [apply timers_emit | exact Ht]. }
    exists [Emit "rawMessage" (RawPayload rawMessage);
            Emit (env_type parsed) (DomainPayload (env_data parsed))].
    rewrite trace_emit, Htr, <- app_assoc.
    repeat split; [repeat constructor | destruct H | destruct H].
Qed.

(** [X15]  An inbound frame never changes the manager: whatever the text,
    [handleMessage] leaves every field of the manager, the sockets and the
    lookups in flight as they were, starts no timer, and adds to the trace
    nothing but emissions and keep-alive pings: no subscription, no close,
    no settlement of the connect promise. *)
Theorem inbound_frame_keeps_manager (rawMessage : string) (w : World) :
  mgr (handleMessage rawMessage w) = mgr w /\
  sockets (handleMessage rawMessage w) = sockets w /\
  fetches (handleMessage rawMessage w) = fetches w /\
  next (handleMessage rawMessage w) = next w /\
  incl (timers (handleMessage rawMessage w)) (timers w) /\
  exists more,
    trace (handleMessage rawMessage w) = trace w ++ more /\
    Forall (fun e => is_notification e = true) more.
Proof.
  destruct (handleMessage_frame rawMessage w)
    as (Hm & Hs & Hf & Hn & Ht & more & Htr & Hall & _).
  repeat split; try assumption. exists more. split; assumption.
Qed.

Lemma system_event_reserved rawMessage message ev :
  JSON_parse rawMessage = Some message ->
  get message "event" = Normal (JStr ev) ->
  reserved ev = true ->
  system_event rawMessage = Some (JStr ev).
Proof.
  intros Hm Hev Hres. unfold system_event.
  rewrite (JSON_parse_value_text _ _ Hm). cbn [bind].
  rewrite Hev. cbn [bind opt_startsWith nullish call_startsWith].
  unfold reserved in Hres.
  destruct (Str.startsWith ev "pusher:"); cbn [bind try_catch];
    [reflexivity|].
  cbn [orb] in Hres. rewrite Hres. reflexivity.
Qed.

(** [X16]  A frame under a name reserved to the relay is reported as
    [rawMessage] and nothing else, whatever the filter and whatever its
    data; the one exception is [pusher:pong], which is answered with a ping
    when the current socket is open. *)
Theorem relay_frame_is_intercepted
        (rawMessage ev : string) (message : JSValue) (w : World) :
  JSON_parse rawMessage = Some message ->
  get message "event" = Normal (JStr ev) ->
  reserved ev = true ->
  trace (handleMessage rawMessage w)
  = trace w ++ Emit "rawMessage" (RawPayload rawMessage)
      :: (if String.eqb ev "pusher:pong" then ping_effects w else []).
Proof.
  intros Hm Hev Hres. unfold handleMessage.
  rewrite (system_event_reserved _ _ _ Hm Hev Hres). cbn [is_str].
  destruct (String.eqb ev "pusher:pong").
  - rewrite trace_sendPing_exact, trace_emit, <- app_assoc. cbn [app].
    do 2 f_equal. unfold ping_effects. rewrite mgr_emit.
    destruct (ws (mgr w)) as [s|]; [|reflexivity].
    now rewrite is_open_emit.
  - now rewrite trace_emit.
Qed.

Lemma assoc_app_Some {V : Type} k (l l' : list (string * V)) v :
  assoc k l = Some v -> assoc k (l ++ l') = Some v.
Proof.
  induction l as [|[k' x] l IH]; cbn; [discriminate|].
  destruct (String.eqb k k'); [auto | exact IH].
Qed.

(** [X17]  For the ten wire names the manager maps to a kind, the filter is
    an allow-list: a frame under such a name that the parser accepts is
    delivered, under its kind, exactly when [filteredEvents] is empty or
    lists the kind, and [rawMessage] is emitted either way. *)
Theorem filter_is_allow_list_on_mapped_kinds
        (rawMessage event kind : string) (d : JSValue) (e : Envelope)
        (w : World) :
  assoc event EVENT_TYPE_MAP = Some kind ->
  wire_message rawMessage event d ->
  normalizeEvent event = Some event ->
  parseMessage rawMessage = Normal (Some e) ->
  env_type e = kind /\
  trace (handleMessage rawMessage w)
  = trace w ++ Emit "rawMessage" (RawPayload rawMessage)
      :: (match filteredEvents (options (mgr w)) with
          | [] => [Emit kind (DomainPayload (env_data e))]
          | listed =>
              if mem_string kind listed
              then [Emit kind (DomainPayload (env_data e))]
              else []
          end).
Proof.
  intros Hk Hw Hn Hp.
  assert (Hev : event <> "" /\ reserved event = false).
  { unfold EVENT_TYPE_MAP in Hk. cbn [assoc] in Hk.
    repeat match type of Hk with
           | (if ?b then _ else _) = _ =>
               let E := fresh "E" in
               destruct b eqn:E;
               [apply String.eqb_eq in E; subst event;
                split; [discriminate | reflexivity]|]
           end.
    discriminate. }
  destruct Hev as [Hne Hres].
  assert (Hkind : env_type e = kind).
  { rewrite (parseMessage_wire _ _ _ Hw Hne Hres) in Hp.
    unfold parseMessage_mapped in Hp. rewrite Hn in Hp.
    destruct (dispatch event d) as [[type transform]|] eqn:Hd;
      [|discriminate].
    pose proof (dispatch_wire_kinds _ _ _ _ Hd) as Hwk.
    unfold wire_kinds in Hwk.
    rewrite (assoc_app_Some _ _ _ _ Hk) in Hwk.
    destruct transform as [v|]; cbn [bind try_catch] in Hp; [|discriminate].
    inversion Hp; subst e. cbn [env_type]. congruence. }
  split; [exact Hkind|].
  rewrite (handleMessage_wire _ _ _ w Hw Hne Hres), Hp, Hkind.
  do 2 f_equal.
  destruct (filteredEvents (options (mgr w))) as [|f fs] eqn:Hf.
  - unfold isEventFiltered. rewrite Hf. reflexivity.
  - rewrite (isEventFiltered_mapped _ kind w Hk); [|rewrite Hf; discriminate].
    rewrite Hf. destruct (mem_string kind (f :: fs)); reflexivity.
Qed.

(** ** The subscription handshake *)

Lemma fold_clearTimeout_onceHandlers (l : list (string * TimerId)) : forall w,
  onceHandlers (fold_left (fun acc h => clearTimeout (snd h) acc) l w)
  = onceHandlers w.
Proof. induction l as [|h l IH]; intros w; cbn; [reflexivity | now rewrite IH]. Qed.

Lemma onceHandlers_emit event payload w :
  onceHandlers (emit event payload w)
  = filter (fun h => negb (String.eqb (fst h) event)) (onceHandlers w).
Proof. unfold emit. rewrite fold_clearTimeout_onceHandlers. reflexivity. Qed.

(** Emitting one event leaves the handlers of another registered. *)
Lemma handlers_of_emit_other event other payload w :
  other <> event ->
  handlers_of other (emit event payload w) = handlers_of other w.
Proof.
  intros Hne. unfold handlers_of. rewrite onceHandlers_emit. f_equal.
  induction (onceHandlers w) as [|[k t] l IH]; cbn [filter fst];
    [reflexivity|].
  destruct (String.eqb k event) eqn:E; cbn [negb filter fst].
  - apply String.eqb_eq in E. subst k.
    apply String.eqb_neq in Hne. rewrite String.eqb_sym, Hne. exact IH.
  - destruct (String.eqb k other); [now rewrite IH | exact IH].
Qed.

Lemma fold_clearTimeout_cleared (l : list (string * TimerId)) t : forall w,
  In t (map snd l) \/ lookup t (timers w) = None ->
  lookup t (timers (fold_left (fun acc h => clearTimeout (snd h) acc) l w))
  = None.
Proof.
  induction l as [|[k t'] l IH]; intros w H; cbn [fold_left snd].
  - destruct H as [[]|H]. exact H.
  - apply IH. cbn [map snd In] in H.
    destruct H as [[->|H]|H]; [right|left; exact H|right].
    + unfold clearTimeout. cbn [set_timers timers].
      now rewrite lookup_remove_key, Pos.eqb_refl.
    + unfold clearTimeout. cbn [set_timers timers].
      now apply lookup_remove_key_None.
Qed.

(** Emitting an event runs its [once] handlers: their timers are no longer
    pending. *)
Lemma emit_clears event payload w t :
  In t (handlers_of event w) ->
  lookup t (timers (emit event payload w)) = None.
Proof.
  intros H. unfold emit. apply fold_clearTimeout_cleared. left. exact H.
Qed.

Lemma handshake_sound_send w1 s subscribed w message c :
  ws (mgr w1) = Some s ->
  handshake_sound w1 s (subscribed, w) ->
  channel_of message = Some c ->
  ~ In c subscribed ->
  handshake_sound w1 s (subscribed ++ [c], sendSubscription message w).
Proof.
  intros Hws
         (Hm & Hs & Hf & Hti & Hh & Hnd & frames & Ht & Hsent & Hsettle & Hall)
         Hc Hnot.
  cbn [fst snd] in *.
  assert (Hopen : is_open s w = is_open s w1).
  { unfold is_open, readyState. now rewrite Hs. }
  unfold handshake_sound, sendSubscription. cbn [fst snd].
  rewrite Hm, Hws, Hopen.
  destruct (is_open s w1) eqn:Ho.
  - rewrite mgr_emit, sockets_emit, fetches_emit, trace_emit.
    cbn [effect mgr sockets fetches trace].
    repeat split; try assumption;
      [eapply incl_tran; [apply timers_emit | exact Hti]
      |rewrite handlers_of_emit_other by discriminate; exact Hh
      |apply NoDup_snoc; assumption|].
    exists (frames ++ [Send s (Control message);
                       Emit "subscriptionSent" (FramePayload message)]).
    rewrite Ht, <- !app_assoc. split; [reflexivity|].
    rewrite sent_topics_app, Hsent. cbn [sent_topics]. rewrite Hc.
    split; [reflexivity|]. split.
    + intros p. rewrite settle_calls_app, Hsettle. reflexivity.
    + apply Forall_app. split; [exact Hall|].
      repeat constructor. exact Ho.
  - repeat split; try assumption; [apply NoDup_snoc; assumption|].
    exists frames. repeat split; assumption.
Qed.

Lemma handshake_sound_topics w1 s channels :
  ws (mgr w1) = Some s ->
  forall acc,
    handshake_sound w1 s acc ->
    handshake_sound w1 s (fold_left subscribe_topic channels acc) /\
    (forall t, In t (fst (fold_left subscribe_topic channels acc))
               <-> In t (fst acc) \/ In t channels).
Proof.
  intros Hws.
  induction channels as [|c channels IH]; intros [subscribed w] H;
    cbn [fold_left].
  - split; [exact H|]. intros t. cbn [In]. tauto.
  - unfold subscribe_topic at 2 4.
    destruct (mem_string c subscribed) eqn:Hmem.
    + destruct (IH _ H) as [H1 H2]. split; [exact H1|].
      intros t. rewrite H2. cbn [fst In].
      apply mem_string_In in Hmem. split; [tauto|].
      intros [Ht|[<-|Ht]]; auto.
    + assert (Hnot : ~ In c subscribed).
      { intros Hin. apply mem_string_In in Hin. congruence. }
      destruct (IH _ (handshake_sound_send w1 s subscribed w
                        (subscribe_message c) c Hws H eq_refl Hnot))
        as [H1 H2].
      split; [exact H1|].
      intros t. rewrite H2. cbn [fst In]. rewrite in_app_iff. cbn [In].
      tauto.
Qed.

Lemma handshake_sound_custom w1 s messages :
  ws (mgr w1) = Some s ->
  forall acc,
    handshake_sound w1 s acc ->
    handshake_sound w1 s (fold_left subscribe_custom messages acc) /\
    (forall t, In t (fst (fold_left subscribe_custom messages acc))
               <-> In t (fst acc) \/ envelope_topic messages t).
Proof.
  intros Hws. unfold envelope_topic.
  induction messages as [|m messages IH]; intros [subscribed w] H;
    cbn [fold_left].
  - split; [exact H|]. intros t. split; [tauto|].
    intros [Ht|(m & [] & _)]. exact Ht.
  - assert (Hskip :
             (forall t, channel_of m = Some t -> t <> "" -> In t subscribed) ->
             handshake_sound w1 s
               (fold_left subscribe_custom messages (subscribed, w)) /\
             (forall t,
                 In t (fst (fold_left subscribe_custom messages
                              (subscribed, w)))
                 <-> In t subscribed \/
                     exists m0, In m0 (m :: messages) /\
                                channel_of m0 = Some t /\ t <> "")).
    { intros Hcov. destruct (IH _ H) as [H1 H2]. split; [exact H1|].
      intros t. rewrite H2. cbn [fst In]. split.
      - intros [Ht|(m0 & Hin & Hc0 & Hne)]; [auto|].
        right. exists m0. auto.
      - intros [Ht|(m0 & [<-|Hin] & Hc0 & Hne)]; [auto| |].
        + left. auto.
        + right. exists m0. auto. }
    unfold subscribe_custom at 2 4.
    destruct (channel_of m) as [c|] eqn:Hc.
    2:{ apply Hskip. intros t Ht. discriminate. }
    destruct (String.eqb c "") eqn:Hempty; cbn [negb andb].
    { apply String.eqb_eq in Hempty. apply Hskip.
      intros t Ht Hne. congruence. }
    destruct (mem_string c subscribed) eqn:Hmem; cbn [negb].
    { apply mem_string_In in Hmem. apply Hskip.
      intros t Ht _. congruence. }
    assert (Hnot : ~ In c subscribed).
    { intros Hin. apply mem_string_In in Hin. congruence. }
    apply String.eqb_neq in Hempty.
    destruct (IH _ (handshake_sound_send w1 s subscribed w m c Hws H Hc Hnot))
      as [H1 H2].
    split; [exact H1|].
    intros t. rewrite H2. cbn [fst In]. rewrite in_app_iff. cbn [In]. split.
    + intros [[Ht|[<-|[]]]|(m0 & Hin & Hc0 & Hne)].
      * auto.
      * right. exists m. auto.
      * right. exists m0. auto.
    + intros [Ht|(m0 & [<-|Hin] & Hc0 & Hne)].
      * auto.
      * left. right. left. congruence.
      * right. exists m0. auto.
Qed.

(** What the handshake does on a manager that holds a socket. *)
Lemma handshake_outcome w s :
  ws (mgr w) = Some s ->
  exists subscribed frames,
    trace (subscribeToChannels w)
    = trace w ++ frames
      ++ Emit "ready" (ReadyPayload (channelName (mgr w)) subscribed)
      :: match connectionResolver (mgr w) with
         | Some p => [Resolve p]
         | None => []
         end /\
    sent_topics frames = (if is_open s w then subscribed else []) /\
    (forall p, settle_calls p frames = 0) /\
    Forall (handshake_frame w s) frames /\
    NoDup subscribed /\
    (forall t,
        In t subscribed
        <-> In t (customSubscriptions (mgr w)
                  ++ derived_topics (number_toString (channelId (mgr w))))
            \/ envelope_topic (subscriptionMessages (mgr w)) t) /\
    mgr (subscribeToChannels w)
    = set_connectionPair None None
        (set_connectionState connected
           (set_customSubscriptions
              (customSubscriptions (mgr w)
               ++ derived_topics (number_toString (channelId (mgr w))))
              (mgr w))) /\
    sockets (subscribeToChannels w) = sockets w /\
    fetches (subscribeToChannels w) = fetches w /\
    incl (timers (subscribeToChannels w)) (timers w) /\
    (forall t, In t (handlers_of "ready" w) ->
               lookup t (timers (subscribeToChannels w)) = None).
Proof.
  intros Hws. unfold subscribeToChannels. rewrite Hws.
  set (id := number_toString (channelId (mgr w))).
  set (w1 := addCustomSubscriptions (derived_topics id) w).
  assert (Hws1 : ws (mgr w1) = Some s) by exact Hws.
  assert (H0 : handshake_sound w1 s ([], w1)).
  { repeat split; [apply incl_refl|constructor|]. exists []. cbn [fst snd].
    rewrite app_nil_r. repeat split; [|constructor].
    destruct (is_open s w1); reflexivity. }
  destruct (handshake_sound_topics w1 s (customSubscriptions (mgr w1)) Hws1
              _ H0) as [H1 Hset1].
  destruct (handshake_sound_custom w1 s (subscriptionMessages (mgr w1)) Hws1
              _ H1) as [H2 Hset2].
  destruct (fold_left subscribe_custom _ _) as [subscribed w2] eqn:Hfold.
  destruct H2
    as (Hm & Hs & Hf & Hti & Hh & Hnd & frames & Ht & Hsent & Hsettle & Hall).
  cbn [fst snd] in *.
  exists subscribed, frames.
  assert (Hm3 : mgr (setConnectionState connected w2)
                = set_connectionState connected (mgr w1)).
  { cbn [setConnectionState with_mgr mgr]. now rewrite Hm. }
  rewrite !mgr_emit, Hm3.
  assert (Hres : connectionResolver (set_connectionState connected (mgr w1))
                 = connectionResolver (mgr w)) by reflexivity.
  assert (Hname : channelName (set_connectionState connected (mgr w1))
                  = channelName (mgr w)) by reflexivity.
  rewrite Hres, Hname.
  assert (Hfinal :
            forall w5,
              trace w5
              = trace w ++ frames
                ++ Emit "ready" (ReadyPayload (channelName (mgr w)) subscribed)
                :: match connectionResolver (mgr w) with
                   | Some p => [Resolve p]
                   | None => []
                   end ->
              mgr w5 = set_connectionState connected (mgr w1) ->
              sockets w5 = sockets w ->
              fetches w5 = fetches w ->
              incl (timers w5) (timers w) ->
              (forall t, In t (handlers_of "ready" w) ->
                         lookup t (timers w5) = None) ->
              trace (with_mgr (set_connectionPair None None) w5)
              = trace w ++ frames
                ++ Emit "ready" (ReadyPayload (channelName (mgr w)) subscribed)
                :: match connectionResolver (mgr w) with
                   | Some p => [Resolve p]
                   | None => []
                   end /\
              sent_topics frames = (if is_open s w then subscribed else []) /\
              (forall p, settle_calls p frames = 0) /\
              Forall (handshake_frame w s) frames /\
              NoDup subscribed /\
              (forall t,
                  In t subscribed
                  <-> In t (customSubscriptions (mgr w) ++ derived_topics id)
                      \/ envelope_topic (subscriptionMessages (mgr w)) t) /\
              mgr (with_mgr (set_connectionPair None None) w5)
              = set_connectionPair None None
                  (set_connectionState connected
                     (set_customSubscriptions
                        (customSubscriptions (mgr w) ++ derived_topics id)
                        (mgr w))) /\
              sockets (with_mgr (set_connectionPair None None) w5)
              = sockets w /\
              fetches (with_mgr (set_connectionPair None None) w5)
              = fetches w /\
              incl (timers (with_mgr (set_connectionPair None None) w5))
                   (timers w) /\
              (forall t, In t (handlers_of "ready" w) ->
                         lookup t (timers (with_mgr
                                             (set_connectionPair None None)
                                             w5)) = None)).
  { intros w5 Htr Hm5 Hs5 Hf5 Ht5 Hc5. cbn [with_mgr trace mgr sockets fetches timers].
    rewrite Hm5.
    repeat split; try assumption.
    - intros Hin. apply Hset2 in Hin as [Hin|Hin]; [|right; exact Hin].
      apply Hset1 in Hin as [[]|Hin]. left. exact Hin.
    - intros [Hin|Hin]; apply Hset2; [left|right; exact Hin].
      apply Hset1. right. exact Hin. }
  assert (Htr4 : trace (emit "ready"
                          (ReadyPayload (channelName (mgr w)) subscribed)
                          (setConnectionState connected w2))
                 = trace w ++ frames
                   ++ [Emit "ready"
                         (ReadyPayload (channelName (mgr w)) subscribed)]).
  { rewrite trace_emit. cbn [setConnectionState with_mgr trace].
    rewrite Ht, <- app_assoc. reflexivity. }
  assert (Hs4 : sockets (emit "ready"
                           (ReadyPayload (channelName (mgr w)) subscribed)
                           (setConnectionState connected w2))
                = sockets w).
  { rewrite sockets_emit. cbn [setConnectionState with_mgr sockets].
    exact Hs. }
  assert (Hf4 : fetches (emit "ready"
                           (ReadyPayload (channelName (mgr w)) subscribed)
                           (setConnectionState connected w2))
                = fetches w).
  { rewrite fetches_emit. cbn [setConnectionState with_mgr fetches].
    exact Hf. }
  assert (Ht4 : incl (timers (emit "ready"
                                (ReadyPayload (channelName (mgr w)) subscribed)
                                (setConnectionState connected w2)))
                     (timers w)).
  { eapply incl_tran; [apply timers_emit|].
    cbn [setConnectionState with_mgr timers]. exact Hti. }
  assert (Hc4 : forall t,
             In t (handlers_of "ready" w) ->
             lookup t (timers (emit "ready"
                                 (ReadyPayload (channelName (mgr w)) subscribed)
                                 (setConnectionState connected w2))) = None).
  { intros t Hin. apply emit_clears.
    unfold handlers_of in *. cbn [setConnectionState with_mgr onceHandlers].
    rewrite Hh. exact Hin. }
  destruct (connectionResolver (mgr w)) as [p|].
  - apply Hfinal.
    + cbn [effect trace]. rewrite Htr4, <- !app_assoc. reflexivity.
    + cbn [effect mgr]. now rewrite mgr_emit.
    + exact Hs4.
    + exact Hf4.
    + exact Ht4.
    + exact Hc4.
  - apply Hfinal.
    + exact Htr4.
    + now rewrite mgr_emit.
    + exact Hs4.
    + exact Hf4.
    + exact Ht4.
    + exact Hc4.
Qed.

(** ** Pending reconnects *)

Lemma one_reconnect_view w w' :
  timers w' = timers w ->
  reconnectTimer (mgr w') = reconnectTimer (mgr w) ->
  one_reconnect w -> one_reconnect w'.
Proof.
  unfold one_reconnect, pending_reconnects. intros -> ->. exact id.
Qed.

Lemma pending_reconnects_clear t w :
  pending_reconnects (clearTimeout t w)
  = filter (fun k => negb (Pos.eqb t k)) (pending_reconnects w).
Proof.
  unfold pending_reconnects, clearTimeout, remove_key.
  cbn [set_timers timers].
  induction (timers w) as [|[k task] l IH]; cbn [filter map fst snd];
    [reflexivity|].
  destruct (Pos.eqb t k) eqn:E; destruct task;
    cbn [negb filter map fst snd]; rewrite ?E; cbn [negb];
    rewrite ?IH; reflexivity.
Qed.

Lemma pending_reconnects_setTimeout task w :
  pending_reconnects (snd (setTimeout task w))
  = pending_reconnects w
    ++ match task with
       | Reconnect => [next w]
       | ConnectTimeout _ => []
       end.
Proof.
  unfold pending_reconnects, setTimeout. cbn [fresh snd set_timers timers
    set_next].
  rewrite filter_app, map_app. f_equal. destruct task; reflexivity.
Qed.

Lemma one_reconnect_effect e w : one_reconnect w -> one_reconnect (effect e w).
Proof. now apply one_reconnect_view. Qed.

Lemma one_reconnect_fresh w : one_reconnect w -> one_reconnect (snd (fresh w)).
Proof. now apply one_reconnect_view. Qed.

Lemma one_reconnect_fetches v w :
  one_reconnect w -> one_reconnect (set_fetches v w).
Proof. now apply one_reconnect_view. Qed.

Lemma one_reconnect_sockets v w :
  one_reconnect w -> one_reconnect (set_sockets v w).
Proof. now apply one_reconnect_view. Qed.

Lemma one_reconnect_once v w :
  one_reconnect w -> one_reconnect (set_onceHandlers v w).
Proof. now apply one_reconnect_view. Qed.

Lemma one_reconnect_mgr f w :
  keeps_tracked f -> one_reconnect w -> one_reconnect (with_mgr f w).
Proof.
  intros Hf. apply one_reconnect_view; [reflexivity|].
  cbn [with_mgr mgr]. apply Hf.
Qed.

Lemma one_reconnect_clear t w :
  one_reconnect w -> one_reconnect (clearTimeout t w).
Proof.
  unfold one_reconnect. rewrite pending_reconnects_clear.
  cbn [clearTimeout set_timers mgr].
  destruct (pending_reconnects w) as [|t0 [|t1 rest]]; cbn [filter];
    [auto| |contradiction].
  destruct (negb (Pos.eqb t t0)); auto.
Qed.

(** After the pending reconnect the manager tracks is cleared, none is
    left. *)
Lemma pending_reconnects_cleared w :
  one_reconnect w ->
  match reconnectTimer (mgr w) with
  | Some t => filter (fun k => negb (Pos.eqb t k)) (pending_reconnects w)
  | None => pending_reconnects w
  end = [].
Proof.
  unfold one_reconnect.
  destruct (pending_reconnects w) as [|t0 [|t1 rest]];
    [now destruct (reconnectTimer (mgr w))| |contradiction].
  intros ->. cbn [filter]. now rewrite Pos.eqb_refl.
Qed.

Lemma pending_reconnects_scheduleReconnect w :
  one_reconnect w ->
  pending_reconnects (scheduleReconnect w) = [next w] /\
  reconnectTimer (mgr (scheduleReconnect w)) = Some (next w).
Proof.
  intros H. pose proof (pending_reconnects_cleared w H) as Hc.
  unfold scheduleReconnect.
  destruct (reconnectTimer (mgr w)) as [t|].
  - rewrite <- pending_reconnects_clear in Hc.
    unfold pending_reconnects in *. cbn in *.
    rewrite filter_app, map_app, Hc. split; reflexivity.
  - unfold pending_reconnects in *. cbn in *.
    rewrite filter_app, map_app, Hc. split; reflexivity.
Qed.

Lemma one_reconnect_scheduleReconnect w :
  one_reconnect w -> one_reconnect (scheduleReconnect w).
Proof.
  intros H. unfold one_reconnect.
  destruct (pending_reconnects_scheduleReconnect w H) as [-> ->].
  reflexivity.
Qed.

Lemma pending_reconnects_disconnect w :
  one_reconnect w -> pending_reconnects (disconnect w) = [].
Proof.
  intros H. pose proof (pending_reconnects_cleared w H) as Hc.
  destruct (disconnect_fields w) as (_ & Ht & _).
  unfold pending_reconnects at 1. rewrite Ht.
  destruct (reconnectTimer (mgr w)) as [t|]; [|exact Hc].
  rewrite <- pending_reconnects_clear in Hc. exact Hc.
Qed.

Lemma one_reconnect_disconnect w :
  one_reconnect w -> one_reconnect (disconnect w).
Proof.
  intros H. unfold one_reconnect.
  now rewrite (pending_reconnects_disconnect w H).
Qed.

Lemma one_reconnect_connect name w :
  one_reconnect w -> one_reconnect (connect name w).
Proof.
  intros H. unfold connect.
  destruct (connectionState (mgr w)); try exact H;
    (revert H; unfold one_reconnect, pending_reconnects, performConnection;
     cbn; rewrite filter_app, map_app, app_nil_r; exact id).
Qed.

Create HintDb recon.

#[local] Hint Resolve one_reconnect_effect one_reconnect_fresh
  one_reconnect_fetches one_reconnect_sockets one_reconnect_once
  one_reconnect_mgr one_reconnect_clear one_reconnect_scheduleReconnect
  one_reconnect_disconnect one_reconnect_connect : recon.

Lemma one_reconnect_tracked_update f w :
  (forall m, reconnectTimer (f m) = reconnectTimer m) ->
  one_reconnect w -> one_reconnect (with_mgr f w).
Proof.
  intros Hf. apply one_reconnect_view; [reflexivity|].
  cbn [with_mgr mgr]. apply Hf.
Qed.

Lemma one_reconnect_step w ev w' :
  step w ev = Some w' -> one_reconnect w -> one_reconnect w'.
Proof.
  intros Hs H. destruct ev; cbn [step] in Hs.
  - inversion Hs; subst. auto with recon.
  - inversion Hs; subst. auto with recon.
  - inversion Hs; subst. now apply one_reconnect_tracked_update.
  - inversion Hs; subst. now apply one_reconnect_tracked_update.
  - inversion Hs; subst. now apply one_reconnect_tracked_update.
  - inversion Hs; subst. apply pres_subscribeToChannel; auto with recon.
  - inversion Hs; subst. apply pres_unsubscribeFromChannel; auto with recon.
  - inversion Hs; subst. apply pres_sendPing; auto with recon.
  - inversion Hs; subst. apply pres_setWebSocketConfig; auto with recon.
  - inversion Hs; subst. apply pres_resetWebSocketConfig; auto with recon.
  - inversion Hs; subst.
    apply pres_updateOptions; auto with recon;
      intros; now apply one_reconnect_tracked_update.
  - destruct (lookup request (fetches w)); inversion Hs; subst.
    apply pres_performConnection_resume; auto with recon;
      intros; now apply one_reconnect_tracked_update.
  - destruct (lookup timer (timers w)); inversion Hs; subst.
    apply pres_run_timer; auto with recon.
  - destruct (lookup socket (sockets w)) as [[]|]; inversion Hs; subst.
    apply pres_subscribeToChannels; auto with recon;
      try (intros; now apply one_reconnect_tracked_update);
      apply pres_set_readyState; auto with recon.
  - destruct (lookup socket (sockets w)) as [[]|]; inversion Hs; subst;
      apply pres_handleMessage; auto with recon.
  - destruct (lookup socket (sockets w)) as [[]|]; inversion Hs; subst;
      apply pres_handleDisconnect; auto with recon;
      try (apply pres_set_readyState; auto with recon).
  - destruct (lookup socket (sockets w)) as [[]|]; inversion Hs; subst;
      apply pres_onerror; auto with recon.
Qed.

Lemma one_reconnect_run evs : forall w w',
  run w evs = Some w' -> one_reconnect w -> one_reconnect w'.
Proof.
  induction evs as [|ev evs IH]; intros w w' Hr H; cbn [run] in Hr.
  - inversion Hr; subst; exact H.
  - destruct (step w ev) as [w1|] eqn:Hs; [|discriminate].
    exact (IH _ _ Hr (one_reconnect_step _ _ _ Hs H)).
Qed.

(** [X19]  Whatever is done to a manager after its construction, at most one
    reconnection is pending at any time, and it is the one recorded in
    [reconnectTimer]; hence a call of [disconnect] leaves no reconnection
    pending at all, and a newly scheduled reconnection replaces the pending
    one. *)
Theorem at_most_one_reconnect_pending
        (o : PartialOptions) (evs : list Event) (w : World) :
  run (new_manager o) evs = Some w ->
  one_reconnect w /\
  pending_reconnects (disconnect w) = [] /\
  pending_reconnects (scheduleReconnect w) = [next w].
Proof.
  intros Hr.
  assert (H : one_reconnect w).
  { apply (one_reconnect_run _ _ _ Hr). exact I. }
  split; [exact H|]. split.
  - exact (pending_reconnects_disconnect w H).
  - exact (proj1 (pending_reconnects_scheduleReconnect w H)).
Qed.

(** [X18]  A handshake on a manager that holds a socket emits [ready] once,
    after the control frames and before the promise is resolved, with the
    list of the distinct topics it recorded: the caller's topics, the six
    derived ones and the non-empty topics of the raw envelopes, and nothing
    else.  When the socket is open the control frames name exactly these
    topics, in this order; when it is not, no frame is sent, and yet [ready]
    carries the same list, the state becomes [connected] and the promise
    pair is cleared. *)
Theorem ready_lists_recorded_topics (w : World) (s : SocketId) :
  ws (mgr w) = Some s ->
  exists subscribed frames,
    trace (subscribeToChannels w)
    = trace w ++ frames
      ++ Emit "ready" (ReadyPayload (channelName (mgr w)) subscribed)
      :: match connectionResolver (mgr w) with
         | Some p => [Resolve p]
         | None => []
         end /\
    sent_topics frames = (if is_open s w then subscribed else []) /\
    (forall p, settle_calls p frames = 0) /\
    NoDup subscribed /\
    (forall t,
        In t subscribed
        <-> In t (customSubscriptions (mgr w)
                  ++ derived_topics (number_toString (channelId (mgr w))))
            \/ envelope_topic (subscriptionMessages (mgr w)) t) /\
    connectionState (mgr (subscribeToChannels w)) = connected /\
    connectionResolver (mgr (subscribeToChannels w)) = None /\
    connectionRejector (mgr (subscribeToChannels w)) = None.
Proof.
  intros Hws.
  destruct (handshake_outcome w s Hws)
    as (subscribed & frames & Htr & Hsent & Hsettle & _ & Hnd & Hset & Hm
        & _).
  exists subscribed, frames. rewrite Hm.
  repeat split; try assumption; apply Hset.
Qed.

(** ** A connection attempt from start to end *)

(** [connect] on a manager that is neither connected nor connecting. *)
Lemma connect_idle name w :
  connectionState (mgr w) <> connected ->
  connectionState (mgr w) <> connecting ->
  connect name w
  = mkWorld
      (set_connectionState connecting
         (set_connectionPair (Some (next w)) (Some (next w))
            (set_isManualDisconnect false (set_channelName name (mgr w)))))
      (timers w ++ [(Pos.succ (next w), ConnectTimeout (next w))])
      (fetches w
       ++ [(Pos.succ (Pos.succ (next w)),
            FromConnect (next w) (Pos.succ (next w)))])
      (sockets w)
      ((onceHandlers w ++ [("ready", Pos.succ (next w))])
       ++ [("error", Pos.succ (next w))])
      (Pos.succ (Pos.succ (Pos.succ (next w))))
      (trace w).
Proof.
  intros H1 H2. unfold connect.
  destruct (connectionState (mgr w)); try congruence; reflexivity.
Qed.

Lemma lookup_snoc_fresh {V : Type} (k : positive) (v : V)
      (l : list (positive * V)) :
  lookup k l = None -> lookup k (l ++ [(k, v)]) = Some v.
Proof.
  intros H. rewrite lookup_app, H. cbn. now rewrite Pos.eqb_refl.
Qed.

Lemma lookup_map_readyState s (r : ReadyState) k
      (l : list (SocketId * ReadyState)) :
  lookup k (map (fun kv => if Pos.eqb s (fst kv) then (fst kv, r) else kv) l)
  = match lookup k l with
    | Some r0 => Some (if Pos.eqb s k then r else r0)
    | None => None
    end.
Proof.
  induction l as [|[k0 r0] l IH]; cbn [map lookup fst]; [reflexivity|].
  destruct (Pos.eqb s k0) eqn:E; cbn [lookup fst].
  - destruct (Pos.eqb k k0) eqn:E'; [|exact IH].
    apply Pos.eqb_eq in E, E'. subst. now rewrite Pos.eqb_refl.
  - destruct (Pos.eqb k k0) eqn:E'; [|exact IH].
    apply Pos.eqb_eq in E'. subst. now rewrite E.
Qed.

Lemma lookup_set_readyState s r k w :
  lookup k (sockets (set_readyState s r w))
  = match lookup k (sockets w) with
    | Some r0 => Some (if Pos.eqb s k then r else r0)
    | None => None
    end.
Proof. apply lookup_map_readyState. Qed.

Lemma handlers_of_In event t w :
  In (event, t) (onceHandlers w) -> In t (handlers_of event w).
Proof.
  intros H. unfold handlers_of. apply in_map_iff.
  exists (event, t). split; [reflexivity|].
  apply filter_In. split; [exact H | apply String.eqb_refl].
Qed.

(** A lookup in flight that succeeds, followed by the opening of the socket
    it creates: the handshake runs on the open socket, whatever happened to
    the manager since the lookup was started. *)
Lemma attempt_opens w f awaiter id :
  lookup f (fetches w) = Some awaiter ->
  lookup (next w) (sockets w) = None ->
  exists w' subscribed frames,
    run w [ChannelInfo f (SocketCreated id); Ws_onopen (next w)] = Some w' /\
    trace w'
    = trace w
      ++ NewWebSocket (next w)
           (buildWebSocketUrl (with_mgr (set_channelId id) w))
      :: frames
      ++ Emit "ready" (ReadyPayload (channelName (mgr w)) subscribed)
      :: match connectionResolver (mgr w) with
         | Some p => [Resolve p]
         | None => []
         end /\
    sent_topics frames = subscribed /\
    (forall p, settle_calls p frames = 0) /\
    NoDup subscribed /\
    (forall t, In t (derived_topics (number_toString id)) ->
               In t subscribed) /\
    mgr w'
    = set_connectionPair None None
        (set_connectionState connected
           (set_customSubscriptions
              (customSubscriptions (mgr w)
               ++ derived_topics (number_toString id))
              (set_ws (Some (next w)) (set_channelId id (mgr w))))) /\
    isConnected w' = true /\
    fetches w' = remove_key f (fetches w) /\
    (forall t, In t (handlers_of "ready" w) -> lookup t (timers w') = None).
Proof.
  intros Hf Hs.
  set (s := next w).
  set (w1 := performConnection_resume awaiter (SocketCreated id)
               (set_fetches (remove_key f (fetches w)) w)).
  assert (Hstep1 : step w (ChannelInfo f (SocketCreated id)) = Some w1).
  { cbn [step]. now rewrite Hf. }
  assert (Hsock1 : lookup s (sockets w1) = Some CONNECTING).
  { subst w1. cbn. apply lookup_snoc_fresh. exact Hs. }
  set (w2 := set_readyState s OPEN w1).
  assert (Hstep2 : step w1 (Ws_onopen s) = Some (subscribeToChannels w2)).
  { cbn [step]. now rewrite Hsock1. }
  assert (Hws2 : ws (mgr w2) = Some s) by reflexivity.
  assert (Hopen : is_open s w2 = true).
  { unfold is_open, readyState. subst w2.
    rewrite lookup_set_readyState, Hsock1, Pos.eqb_refl. reflexivity. }
  destruct (handshake_outcome w2 s Hws2)
    as (subscribed & frames & Htr & Hsent & Hsettle & _ & Hnd & Hset & Hm
        & Hsockets & Hfetches & _ & Hclear).
  rewrite Hopen in Hsent.
  exists (subscribeToChannels w2), subscribed, frames.
  split; [cbn [run]; rewrite Hstep1; cbn [run]; rewrite Hstep2; reflexivity|].
  split.
  { rewrite Htr. subst w2 w1. cbn. rewrite <- app_assoc. reflexivity. }
  split; [exact Hsent|]. split; [exact Hsettle|]. split; [exact Hnd|].
  split.
  { intros t Ht. apply Hset. left. apply in_or_app. right. exact Ht. }
  split; [rewrite Hm; reflexivity|].
  split.
  { unfold isConnected. rewrite Hm. cbn [connectionState set_connectionPair
      set_connectionState ConnectionState_eqb ws set_customSubscriptions
      andb].
    change (ws (mgr w2)) with (Some s).
    unfold is_open, readyState. rewrite Hsockets.
    fold (readyState s w2). fold (is_open s w2). exact Hopen. }
  split; [rewrite Hfetches; reflexivity|].
  exact Hclear.
Qed.

(** [X20]  On a manager that is neither connected nor connecting, [connect]
    followed by the answer of the channel lookup and the opening of the
    socket ends in a connected manager: one socket is created with the
    configured address, the control frames of the handshake are sent on it,
    [ready] is emitted with the channel name, the promise is resolved, once,
    as the last effect, the connection timeout is cancelled and the promise
    pair is cleared. *)
Theorem connect_resolves_when_socket_opens
        (name : string) (id : number) (w : World) :
  connectionState (mgr w) <> connected ->
  connectionState (mgr w) <> connecting ->
  lookup (Pos.succ (Pos.succ (next w))) (fetches w) = None ->
  lookup (Pos.succ (Pos.succ (Pos.succ (next w)))) (sockets w) = None ->
  exists w' subscribed frames,
    run w [ Call_connect name;
            ChannelInfo (Pos.succ (Pos.succ (next w))) (SocketCreated id);
            Ws_onopen (Pos.succ (Pos.succ (Pos.succ (next w)))) ]
    = Some w' /\
    trace w'
    = trace w
      ++ NewWebSocket (Pos.succ (Pos.succ (Pos.succ (next w))))
           (buildWebSocketUrl w)
      :: frames
      ++ [ Emit "ready" (ReadyPayload name subscribed);
           Resolve (next w) ] /\
    sent_topics frames = subscribed /\
    (forall p, settle_calls p frames = 0) /\
    NoDup subscribed /\
    (forall t, In t (derived_topics (number_toString id)) ->
               In t subscribed) /\
    isConnected w' = true /\
    channelName (mgr w') = name /\
    connectionResolver (mgr w') = None /\
    connectionRejector (mgr w') = None /\
    lookup (Pos.succ (next w)) (timers w') = None.
Proof.
  intros H1 H2 Hf Hs.
  set (p := next w) in *.
  set (f := Pos.succ (Pos.succ p)) in *.
  set (s := Pos.succ f) in *.
  pose proof (connect_idle name w H1 H2) as Hc. fold p f s in Hc.
  destruct (attempt_opens (connect name w) f
              (FromConnect p (Pos.succ p)) id)
    as (w' & subscribed & frames & Hrun & Htr & Hsent & Hsettle & Hnd
        & Hder & Hm & Hconn & _ & Hclear).
  { rewrite Hc. cbn [fetches]. apply lookup_snoc_fresh. exact Hf. }
  { rewrite Hc. cbn [next sockets]. exact Hs. }
  assert (Hnext : next (connect name w) = s) by (rewrite Hc; reflexivity).
  rewrite Hnext in *.
  exists w', subscribed, frames.
  split.
  { cbn [run step]. cbn [run] in Hrun. exact Hrun. }
  split.
  { rewrite Htr, Hc. reflexivity. }
  split; [exact Hsent|]. split; [exact Hsettle|]. split; [exact Hnd|].
  split; [exact Hder|]. split; [exact Hconn|].
  rewrite Hm, Hc. cbn. repeat split.
  apply Hclear. apply handlers_of_In. rewrite Hc. cbn [onceHandlers].
  apply in_or_app. left. apply in_or_app. right. left. reflexivity.
Qed.

(** What [disconnect] does not touch. *)
Lemma disconnect_frame w :
  fetches (disconnect w) = fetches w /\
  next (disconnect w) = next w /\
  onceHandlers (disconnect w) = onceHandlers w /\
  connectionResolver (mgr (disconnect w)) = connectionResolver (mgr w) /\
  connectionRejector (mgr (disconnect w)) = connectionRejector (mgr w) /\
  channelName (mgr (disconnect w)) = channelName (mgr w) /\
  customSubscriptions (mgr (disconnect w)) = customSubscriptions (mgr w) /\
  websocketUrl (mgr (disconnect w)) = websocketUrl (mgr w) /\
  websocketParams (mgr (disconnect w)) = websocketParams (mgr w) /\
  (forall k, lookup k (sockets w) = None ->
             lookup k (sockets (disconnect w)) = None).
Proof.
  unfold disconnect, setConnectionState, close_socket.
  cbn [with_mgr mgr reconnectTimer set_isManualDisconnect].
  destruct (reconnectTimer (mgr w)) as [old|] eqn:Hold; cbn;
    destruct (ws (mgr w)) as [s|] eqn:Hws; cbn; rewrite ?Hws; cbn.
  all: repeat match goal with
              | |- context [match readyState ?s ?x with _ => _ end] =>
                  destruct (readyState s x)
              end.
  all: cbn.
  all: repeat split.
  all: try (intros k Hk).
  all: rewrite ?lookup_map_readyState.
  all: rewrite ?Hk.
  all: reflexivity.
Qed.

(** [X21]  A call of [disconnect] while the channel lookup of [connect] is
    in flight does not abandon the attempt: when the lookup answers, the
    socket is created all the same, and when that socket opens the
    handshake runs, the promise is resolved and the manager reports
    connected, with the manual-disconnect flag still set. *)
Theorem disconnect_does_not_cancel_lookup
        (name : string) (id : number) (w : World) :
  connectionState (mgr w) <> connected ->
  connectionState (mgr w) <> connecting ->
  lookup (Pos.succ (Pos.succ (next w))) (fetches w) = None ->
  lookup (Pos.succ (Pos.succ (Pos.succ (next w)))) (sockets w) = None ->
  exists w' subscribed frames,
    run w [ Call_connect name;
            Call_disconnect;
            ChannelInfo (Pos.succ (Pos.succ (next w))) (SocketCreated id);
            Ws_onopen (Pos.succ (Pos.succ (Pos.succ (next w)))) ]
    = Some w' /\
    trace w'
    = (trace w
       ++ match ws (mgr w) with
          | Some old => [Close old 1000 "Manual disconnect"]
          | None => []
          end)
      ++ NewWebSocket (Pos.succ (Pos.succ (Pos.succ (next w))))
           (buildWebSocketUrl w)
      :: frames
      ++ [ Emit "ready" (ReadyPayload name subscribed);
           Resolve (next w) ] /\
    sent_topics frames = subscribed /\
    (forall t, In t (derived_topics (number_toString id)) ->
               In t subscribed) /\
    isConnected w' = true /\
    isManualDisconnect (mgr w') = true.
Proof.
  intros H1 H2 Hf Hs.
  set (p := next w) in *.
  set (f := Pos.succ (Pos.succ p)) in *.
  set (s := Pos.succ f) in *.
  pose proof (connect_idle name w H1 H2) as Hc. fold p f s in Hc.
  set (w1 := connect name w) in *.
  destruct (disconnect_frame w1)
    as (Hfetches & Hnext & _ & Hres & _ & Hname & _ & Hurl & Hparams
        & Hsockets).
  destruct (disconnect_fields w1) as (_ & _ & _ & Hmanual & _ & _ & Htrace).
  destruct (attempt_opens (disconnect w1) f (FromConnect p (Pos.succ p)) id)
    as (w' & subscribed & frames & Hrun & Htr & Hsent & _ & _
        & Hder & Hm & Hconn & _).
  { rewrite Hfetches, Hc. cbn [fetches]. apply lookup_snoc_fresh. exact Hf. }
  { rewrite Hnext. apply Hsockets. rewrite Hc. cbn [next sockets]. exact Hs. }
  assert (Hn : next (disconnect w1) = s) by (rewrite Hnext, Hc; reflexivity).
  rewrite Hn in *.
  exists w', subscribed, frames.
  split.
  { cbn [run step]. fold w1. cbn [run] in Hrun. exact Hrun. }
  split.
  { rewrite Htr, Htrace, Hname, Hres.
    unfold buildWebSocketUrl. cbn [with_mgr mgr websocketUrl websocketParams
      set_channelId]. rewrite Hurl, Hparams, Hc. reflexivity. }
  split; [exact Hsent|]. split; [exact Hder|]. split; [exact Hconn|].
  rewrite Hm. cbn [isManualDisconnect set_connectionPair set_connectionState
    set_customSubscriptions set_ws set_channelId]. exact Hmanual.
Qed.

(** ** Failed attempts *)

Lemma scheduleReconnect_fields w :
  trace (scheduleReconnect w) = trace w /\
  fetches (scheduleReconnect w) = fetches w /\
  sockets (scheduleReconnect w) = sockets w /\
  connectionResolver (mgr (scheduleReconnect w)) = connectionResolver (mgr w) /\
  connectionRejector (mgr (scheduleReconnect w)) = connectionRejector (mgr w) /\
  connectionState (mgr (scheduleReconnect w)) = reconnecting /\
  ws (mgr (scheduleReconnect w)) = ws (mgr w) /\
  timers (scheduleReconnect w)
  = match reconnectTimer (mgr w) with
    | Some t => remove_key t (timers w)
    | None => timers w
    end ++ [(next w, Reconnect)].
Proof.
  unfold scheduleReconnect.
  destruct (reconnectTimer (mgr w)); cbn; repeat split; reflexivity.
Qed.

Lemma reconnect_if_enabled_fields w :
  trace (reconnect_if_enabled w) = trace w /\
  fetches (reconnect_if_enabled w) = fetches w /\
  sockets (reconnect_if_enabled w) = sockets w /\
  connectionResolver (mgr (reconnect_if_enabled w))
  = connectionResolver (mgr w) /\
  connectionRejector (mgr (reconnect_if_enabled w))
  = connectionRejector (mgr w) /\
  connectionState (mgr (reconnect_if_enabled w))
  = (if autoReconnect (options (mgr w)) && negb (isManualDisconnect (mgr w))
     then reconnecting else connectionState (mgr w)) /\
  ws (mgr (reconnect_if_enabled w)) = ws (mgr w) /\
  (forall t, t <> next w -> lookup t (timers w) = None ->
             lookup t (timers (reconnect_if_enabled w)) = None).
Proof.
  unfold reconnect_if_enabled.
  destruct (autoReconnect (options (mgr w))
            && negb (isManualDisconnect (mgr w))).
  - destruct (scheduleReconnect_fields w)
      as (-> & -> & -> & -> & -> & -> & -> & ->).
    repeat split. intros t Hne Ht. rewrite lookup_app.
    assert (Hold : lookup t match reconnectTimer (mgr w) with
                            | Some t0 => remove_key t0 (timers w)
                            | None => timers w
                            end = None).
    { destruct (reconnectTimer (mgr w));
        [now apply lookup_remove_key_None | exact Ht]. }
    rewrite Hold. cbn [lookup].
    apply Pos.eqb_neq in Hne. now rewrite Hne.
  - repeat split. auto.
Qed.

Lemma call_rejector_frame e w :
  fetches (call_rejector e w) = fetches w /\
  sockets (call_rejector e w) = sockets w /\
  next (call_rejector e w) = next w /\
  timers (call_rejector e w) = timers w /\
  trace (call_rejector e w)
  = trace w ++ match connectionRejector (mgr w) with
               | Some p => [Reject p e]
               | None => []
               end.
Proof.
  unfold call_rejector. destruct (connectionRejector (mgr w));
    cbn; rewrite ?app_nil_r; repeat split; reflexivity.
Qed.

(** The common part of [handleDisconnect] and [handleConnectionError]: the
    state is set, the event is emitted, the pending promise is rejected, the
    pair is cleared, and a reconnection is scheduled when enabled. *)
Lemma settle_and_retry_fields st event payload e w :
  let w' :=
    reconnect_if_enabled
      (with_mgr (set_connectionPair None None)
         (call_rejector e (emit event payload (setConnectionState st w)))) in
  trace w'
  = trace w ++ Emit event payload
      :: match connectionRejector (mgr w) with
         | Some p => [Reject p e]
         | None => []
         end /\
  fetches w' = fetches w /\
  sockets w' = sockets w /\
  connectionResolver (mgr w') = None /\
  connectionRejector (mgr w') = None /\
  connectionState (mgr w')
  = (if autoReconnect (options (mgr w)) && negb (isManualDisconnect (mgr w))
     then reconnecting else st) /\
  ws (mgr w') = ws (mgr w) /\
  (forall t, t <> next w ->
             In t (handlers_of event w) \/ lookup t (timers w) = None ->
             lookup t (timers w') = None).
Proof.
  set (w2 := emit event payload (setConnectionState st w)).
  set (w4 := with_mgr (set_connectionPair None None) (call_rejector e w2)).
  cbv zeta.
  assert (Hm2 : mgr w2 = set_connectionState st (mgr w)).
  { unfold w2. now rewrite mgr_emit. }
  assert (Ht2 : trace w2 = trace w ++ [Emit event payload]).
  { unfold w2. now rewrite trace_emit. }
  destruct (call_rejector_frame e w2) as (Hcf & Hcs & Hcn & Hct & Hctr).
  assert (Hm4 : mgr w4
                = set_connectionPair None None
                    (set_connectionState st (mgr w))).
  { unfold w4. cbn [with_mgr mgr]. now rewrite mgr_call_rejector, Hm2. }
  assert (Ht4 : trace w4
                = trace w ++ Emit event payload
                    :: match connectionRejector (mgr w) with
                       | Some p => [Reject p e]
                       | None => []
                       end).
  { unfold w4. cbn [with_mgr trace]. rewrite Hctr, Hm2, Ht2, <- app_assoc.
    reflexivity. }
  assert (Hf4 : fetches w4 = fetches w).
  { unfold w4. cbn [with_mgr fetches]. rewrite Hcf. unfold w2.
    now rewrite fetches_emit. }
  assert (Hs4 : sockets w4 = sockets w).
  { unfold w4. cbn [with_mgr sockets]. rewrite Hcs. unfold w2.
    now rewrite sockets_emit. }
  assert (Hn4 : next w4 = next w).
  { unfold w4. cbn [with_mgr next]. rewrite Hcn. unfold w2.
    now rewrite next_emit. }
  assert (Hc4 : forall t,
             In t (handlers_of event w) \/ lookup t (timers w) = None ->
             lookup t (timers w4) = None).
  { intros t Ht. unfold w4. cbn [with_mgr timers]. rewrite Hct.
    unfold w2, emit. apply fold_clearTimeout_cleared. exact Ht. }
  destruct (reconnect_if_enabled_fields w4)
    as (-> & -> & -> & -> & -> & -> & Hws & Hkeep).
  rewrite Hws, Hm4, Ht4, Hf4, Hs4. repeat split.
  intros t Hne Ht. apply Hkeep; [now rewrite Hn4 | now apply Hc4].
Qed.

(** What [handleConnectionError] does. *)
Lemma handleConnectionError_fields e w :
  trace (handleConnectionError e w)
  = trace w ++ Emit "error" (ErrorPayload e)
      :: match connectionRejector (mgr w) with
         | Some p => [Reject p e]
         | None => []
         end /\
  fetches (handleConnectionError e w) = fetches w /\
  sockets (handleConnectionError e w) = sockets w /\
  connectionResolver (mgr (handleConnectionError e w)) = None /\
  connectionRejector (mgr (handleConnectionError e w)) = None /\
  connectionState (mgr (handleConnectionError e w))
  = (if autoReconnect (options (mgr w)) && negb (isManualDisconnect (mgr w))
     then reconnecting else error) /\
  (forall t, t <> next w ->
             In t (handlers_of "error" w) \/ lookup t (timers w) = None ->
             lookup t (timers (handleConnectionError e w)) = None).
Proof.
  destruct (settle_and_retry_fields error "error" (ErrorPayload e) e w)
    as (H1 & H2 & H3 & H4 & H5 & H6 & _ & H8).
  repeat split; assumption.
Qed.

(** [X22]  When the channel lookup of a [connect] fails, the error is
    emitted and the promise is rejected, twice over with the same error
    (once by the error handling, once by the caller of the attempt); the
    connection timeout is cancelled, the promise pair is cleared, and the
    manager is left [reconnecting] when automatic reconnection is on and in
    state [error] otherwise. *)
Theorem failed_lookup_rejects_connect
        (name : string) (e : ErrorValue) (w : World) :
  connectionState (mgr w) <> connected ->
  connectionState (mgr w) <> connecting ->
  lookup (Pos.succ (Pos.succ (next w))) (fetches w) = None ->
  exists w',
    run w [ Call_connect name;
            ChannelInfo (Pos.succ (Pos.succ (next w))) (InfoFailed e) ]
    = Some w' /\
    trace w'
    = trace w ++ [ Emit "error" (ErrorPayload e);
                   Reject (next w) e;
                   Reject (next w) e ] /\
    connectionState (mgr w')
    = (if autoReconnect (options (mgr w)) then reconnecting else error) /\
    connectionResolver (mgr w') = None /\
    connectionRejector (mgr w') = None /\
    lookup (Pos.succ (next w)) (timers w') = None /\
    lookup (Pos.succ (Pos.succ (next w))) (fetches w') = None.
Proof.
  intros H1 H2 Hf.
  set (p := next w) in *.
  set (f := Pos.succ (Pos.succ p)) in *.
  pose proof (connect_idle name w H1 H2) as Hc. fold p f in Hc.
  set (w1 := connect name w) in *.
  assert (Hlook : lookup f (fetches w1) = Some (FromConnect p (Pos.succ p))).
  { rewrite Hc. cbn [fetches]. apply lookup_snoc_fresh. exact Hf. }
  set (w2 := set_fetches (remove_key f (fetches w1)) w1).
  destruct (handleConnectionError_fields e w2)
    as (Htr & Hfe & _ & Hres & Hrej & Hst & _).
  exists (attempt_failed (FromConnect p (Pos.succ p)) e
            (handleConnectionError e w2)).
  split.
  { cbn [run step]. fold w1. rewrite Hlook. reflexivity. }
  cbn [attempt_failed effect clearTimeout set_timers trace mgr timers fetches].
  rewrite Htr, Hst, Hres, Hrej, Hfe.
  subst w2. cbn [set_fetches mgr trace fetches]. rewrite Hc.
  cbn [mgr trace connectionRejector set_connectionState set_connectionPair
    options autoReconnect isManualDisconnect set_isManualDisconnect
    set_channelName negb].
  rewrite andb_true_r, <- app_assoc.
  repeat split.
  - now rewrite lookup_remove_key, Pos.eqb_refl.
  - now rewrite lookup_remove_key, Pos.eqb_refl.
Qed.

(** [X23]  When the connection timeout of a [connect] fires before the
    manager is connected, a timeout error carrying the configured delay is
    emitted and the promise is rejected with it, twice over; the promise
    pair is cleared and the manager is left [reconnecting] or in state
    [error] as automatic reconnection is on or off.  The channel lookup is
    not abandoned: it is still in flight. *)
Theorem connect_timeout_rejects_connect (name : string) (w : World) :
  connectionState (mgr w) <> connected ->
  connectionState (mgr w) <> connecting ->
  lookup (Pos.succ (next w)) (timers w) = None ->
  lookup (Pos.succ (Pos.succ (next w))) (fetches w) = None ->
  exists w',
    run w [Call_connect name; TimerFires (Pos.succ (next w))] = Some w' /\
    trace w'
    = trace w
      ++ [ Emit "error"
             (ErrorPayload
                (ConnectionTimeoutError (connectionTimeout (options (mgr w)))));
           Reject (next w)
             (ConnectionTimeoutError (connectionTimeout (options (mgr w))));
           Reject (next w)
             (ConnectionTimeoutError (connectionTimeout (options (mgr w)))) ] /\
    connectionState (mgr w')
    = (if autoReconnect (options (mgr w)) then reconnecting else error) /\
    connectionResolver (mgr w') = None /\
    connectionRejector (mgr w') = None /\
    lookup (Pos.succ (next w)) (timers w') = None /\
    lookup (Pos.succ (Pos.succ (next w))) (fetches w')
    = Some (FromConnect (next w) (Pos.succ (next w))).
Proof.
  intros H1 H2 Ht Hf.
  set (p := next w) in *.
  set (timeout := Pos.succ p) in *.
  set (f := Pos.succ timeout) in *.
  pose proof (connect_idle name w H1 H2) as Hc. fold p timeout f in Hc.
  set (w1 := connect name w) in *.
  assert (Hlook : lookup timeout (timers w1) = Some (ConnectTimeout p)).
  { rewrite Hc. cbn [timers]. apply lookup_snoc_fresh. exact Ht. }
  set (w2 := clearTimeout timeout w1).
  set (e := ConnectionTimeoutError (connectionTimeout (options (mgr w)))).
  assert (Hrun : run_timer (ConnectTimeout p) w2
                 = effect (Reject p e) (handleConnectionError e w2)).
  { unfold run_timer. subst w2. cbn [clearTimeout set_timers mgr].
    rewrite Hc. reflexivity. }
  destruct (handleConnectionError_fields e w2)
    as (Htr & Hfe & _ & Hres & Hrej & Hst & Hclear).
  assert (Hgone : lookup timeout (timers (handleConnectionError e w2)) = None).
  { apply Hclear.
    - unfold w2. cbn [clearTimeout set_timers next]. rewrite Hc. cbn [next].
      unfold f, timeout. lia.
    - right. unfold w2. cbn [clearTimeout set_timers timers].
      now rewrite lookup_remove_key, Pos.eqb_refl. }
  exists (effect (Reject p e) (handleConnectionError e w2)).
  split.
  { cbn [run step]. fold w1. rewrite Hlook. fold w2. now rewrite Hrun. }
  cbn [effect trace mgr timers fetches].
  split; [|split; [|split; [exact Hres|split; [exact Hrej|split;
                                                 [exact Hgone|]]]]].
  - rewrite Htr. unfold w2. cbn [clearTimeout set_timers mgr trace].
    rewrite Hc. cbn [mgr trace connectionRejector set_connectionState
      set_connectionPair]. rewrite <- app_assoc. reflexivity.
  - rewrite Hst. unfold w2. cbn [clearTimeout set_timers mgr].
    rewrite Hc. cbn [mgr options autoReconnect isManualDisconnect
      set_connectionState set_connectionPair set_isManualDisconnect
      set_channelName negb]. now rewrite andb_true_r.
  - rewrite Hfe. unfold w2. cbn [clearTimeout set_timers fetches].
    rewrite Hc. cbn [fetches]. apply lookup_snoc_fresh. exact Hf.
Qed.

Lemma readyState_set_readyState s r w :
  lookup s (sockets w) <> None -> readyState s (set_readyState s r w) = r.
Proof.
  intros H. unfold readyState. rewrite lookup_set_readyState.
  destruct (lookup s (sockets w)); [|congruence].
  now rewrite Pos.eqb_refl.
Qed.

(** [X24]  When a socket closes, whichever socket it is, [disconnect] is
    emitted with the code and the reason, a pending connect promise is
    rejected and the pair is cleared; the manager is left [reconnecting]
    when automatic reconnection is on and the disconnection was not asked
    for, and [disconnected] otherwise.  The reference to the current socket
    is kept, and the manager does not report connected. *)
Theorem close_is_reported_and_retried
        (s : SocketId) (code : N) (reason : string) (w w' : World) :
  step w (Ws_onclose s code reason) = Some w' ->
  trace w'
  = trace w ++ Emit "disconnect" (DisconnectPayload code reason)
      :: match connectionRejector (mgr w) with
         | Some p => [Reject p (DisconnectedError code reason)]
         | None => []
         end /\
  connectionState (mgr w')
  = (if autoReconnect (options (mgr w)) && negb (isManualDisconnect (mgr w))
     then reconnecting else disconnected) /\
  connectionResolver (mgr w') = None /\
  connectionRejector (mgr w') = None /\
  ws (mgr w') = ws (mgr w) /\
  readyState s w' = CLOSED /\
  isConnected w' = false.
Proof.
  intros Hs. cbn [step] in Hs.
  assert (Hin : lookup s (sockets w) <> None /\
                w' = handleDisconnect code reason (set_readyState s CLOSED w)).
  { destruct (lookup s (sockets w)) as [[]|]; inversion Hs;
      split; congruence. }
  destruct Hin as [Hin ->]. clear Hs.
  destruct (settle_and_retry_fields disconnected "disconnect"
              (DisconnectPayload code reason)
              (DisconnectedError code reason) (set_readyState s CLOSED w))
    as (Htr & _ & Hsock & Hres & Hrej & Hst & Hws & _).
  change (handleDisconnect code reason (set_readyState s CLOSED w))
    with (reconnect_if_enabled
            (with_mgr (set_connectionPair None None)
               (call_rejector (DisconnectedError code reason)
                  (emit "disconnect" (DisconnectPayload code reason)
                     (setConnectionState disconnected
                        (set_readyState s CLOSED w))))))
    in *.
  repeat split; try assumption.
  - unfold readyState. rewrite Hsock.
    exact (readyState_set_readyState s CLOSED w Hin).
  - unfold isConnected. rewrite Hst.
    destruct (autoReconnect _ && negb _); reflexivity.
Qed.

(** ** Configuration *)

Lemma assoc_app {V : Type} k (l l' : list (string * V)) :
  assoc k (l ++ l')
  = match assoc k l with
    | Some v => Some v
    | None => assoc k l'
    end.
Proof.
  induction l as [|[k' x] l IH]; cbn; [reflexivity|].
  destruct (String.eqb k k'); [reflexivity | exact IH].
Qed.

Lemma assoc_replace k kv (l : list (string * string)) :
  assoc k (map (fun e => if String.eqb (fst kv) (fst e) then kv else e) l)
  = match assoc k l with
    | Some v => if String.eqb k (fst kv) then Some (snd kv) else Some v
    | None => None
    end.
Proof.
  destruct kv as [k' v']. cbn [fst snd].
  induction l as [|[k0 v0] l IH]; cbn [map assoc fst]; [reflexivity|].
  destruct (String.eqb k' k0) eqn:E0; cbn [assoc].
  - apply String.eqb_eq in E0. subst k0.
    destruct (String.eqb k k') eqn:E; [reflexivity | exact IH].
  - destruct (String.eqb k k0) eqn:E.
    + apply String.eqb_eq in E. subst k0.
      rewrite String.eqb_sym, E0. reflexivity.
    + exact IH.
Qed.

(** [{...l, [k']: v'}]: the key reads the new value, every other key reads
    what it read before. *)
Lemma assoc_put k kv l :
  assoc k (put kv l)
  = if String.eqb k (fst kv) then Some (snd kv) else assoc k l.
Proof.
  unfold put. destruct (assoc (fst kv) l) as [old|] eqn:Hold.
  - rewrite assoc_replace.
    destruct (String.eqb k (fst kv)) eqn:E.
    + apply String.eqb_eq in E. subst k. now rewrite Hold.
    + now destruct (assoc k l).
  - rewrite assoc_app. destruct kv as [k' v']. cbn [assoc fst snd] in *.
    destruct (String.eqb k k') eqn:E.
    + apply String.eqb_eq in E. subst k. now rewrite Hold.
    + now destruct (assoc k l).
Qed.

(** [{...a, ...b}]: a key of [b] reads its last value in [b], every other
    key reads what it read in [a]. *)
Lemma assoc_spread k b : forall a,
  assoc k (spread a b)
  = match assoc k (rev b) with
    | Some v => Some v
    | None => assoc k a
    end.
Proof.
  unfold spread.
  induction b as [|kv b IH]; intros a; cbn [fold_left rev]; [reflexivity|].
  rewrite IH, assoc_app, assoc_put. cbn [assoc].
  destruct (assoc k (rev b)); [reflexivity|].
  destruct kv as [k' v']. cbn [fst snd].
  now destruct (String.eqb k k').
Qed.

(** [X25]  [setWebSocketConfig] merges: a non-empty [url] replaces the
    address and an empty or missing one keeps it; each parameter given reads
    its (last) given value afterwards and every other parameter reads what
    it read before.  Nothing else changes: the connection, the sockets and
    the trace are as they were.  [resetWebSocketConfig] restores the default
    address and parameters. *)
Theorem websocket_config_is_merged (config : WebSocketConfig) (w : World) :
  url (getWebSocketConfig (setWebSocketConfig config w))
  = Some match url config with
         | Some u => if String.eqb u "" then websocketUrl (mgr w) else u
         | None => websocketUrl (mgr w)
         end /\
  (exists ps,
      params (getWebSocketConfig (setWebSocketConfig config w)) = Some ps /\
      forall k,
        assoc k ps
        = match assoc k (rev (from_option (params config) [])) with
          | Some v => Some v
          | None => assoc k (websocketParams (mgr w))
          end) /\
  ws (mgr (setWebSocketConfig config w)) = ws (mgr w) /\
  connectionState (mgr (setWebSocketConfig config w))
  = connectionState (mgr w) /\
  sockets (setWebSocketConfig config w) = sockets w /\
  trace (setWebSocketConfig config w) = trace w /\
  getWebSocketConfig (resetWebSocketConfig (setWebSocketConfig config w))
  = mkWebSocketConfig (Some DEFAULT_WEBSOCKET_URL) (Some DEFAULT_WS_PARAMS).
Proof.
  unfold setWebSocketConfig, getWebSocketConfig.
  destruct config as [[u|] [ps|]]; cbn [url params from_option];
    try destruct (String.eqb u ""); cbn; repeat split;
    eexists; (split; [reflexivity|]); intros k;
    rewrite ?assoc_spread; reflexivity.
Qed.

(** [X26]  Constructing a manager with options is constructing one without
    and then calling [updateOptions] with the same options: the two give the
    same manager, field by field. *)
Theorem constructor_is_updateOptions (o : PartialOptions) :
  new_manager o = updateOptions o (new_manager options_default).
Proof.
  destruct o as [d a ri ct fe [[[u|] [ps|]]|] cs sm];
    unfold new_manager, updateOptions, setWebSocketConfig,
      addCustomSubscriptions, addSubscriptionMessages, merge_options;
    cbn; try destruct (String.eqb u ""); cbn;
    destruct cs, sm; reflexivity.
Qed.

(** ** Frames are only sent on the open current socket *)

Lemma no_sends w w' more :
  trace w' = trace w ++ more ->
  sends_on more = [] ->
  exists more',
    trace w' = trace w ++ more' /\
    forall s, In s (sends_on more') ->
              ws (mgr w) = Some s /\ is_open s w' = true.
Proof.
  intros Ht Hs. exists more. split; [exact Ht|].
  rewrite Hs. intros s [].
Qed.

Lemma same_trace_no_sends w w' :
  trace w' = trace w ->
  exists more,
    trace w' = trace w ++ more /\
    forall s, In s (sends_on more) ->
              ws (mgr w) = Some s /\ is_open s w' = true.
Proof.
  intros Ht. apply (no_sends w w' []); [now rewrite app_nil_r | reflexivity].
Qed.

Lemma trace_connect name w : trace (connect name w) = trace w.
Proof. unfold connect. destruct (connectionState (mgr w)); reflexivity. Qed.

Lemma trace_setWebSocketConfig config w :
  trace (setWebSocketConfig config w) = trace w.
Proof.
  unfold setWebSocketConfig.
  destruct (url config) as [u|]; [destruct (String.eqb u "")|];
    destruct (params config); reflexivity.
Qed.

Lemma trace_updateOptions o w : trace (updateOptions o w) = trace w.
Proof.
  unfold updateOptions.
  destruct (p_websocketConfig o), (p_customSubscriptions o),
    (p_subscriptionMessages o);
    cbn [addSubscriptionMessages addCustomSubscriptions with_mgr trace];
    rewrite ?trace_setWebSocketConfig; reflexivity.
Qed.

Lemma isConnected_open w :
  isConnected w = true ->
  exists s, ws (mgr w) = Some s /\ is_open s w = true.
Proof.
  unfold isConnected. intros H. apply andb_prop in H as [_ H].
  destruct (ws (mgr w)) as [s|]; [eauto | discriminate].
Qed.

Lemma sends_on_handshake_frames w s frames :
  Forall (handshake_frame w s) frames ->
  forall s', In s' (sends_on frames) -> s' = s /\ is_open s w = true.
Proof.
  induction 1 as [|e frames He _ IH]; cbn [sends_on]; [intros s' []|].
  destruct e; cbn [handshake_frame] in He; try contradiction; try exact IH.
  intros s' [<-|Hin]; [exact He | exact (IH s' Hin)].
Qed.

(** [X27]  Along every run, a frame is only ever handed to a socket that is
    the manager's current socket at that moment and is open: no event makes
    the manager send on a socket it has dropped, on one that is still
    connecting, or on one that is closing or closed. *)
Theorem frames_only_on_open_current_socket
        (w : World) (ev : Event) (w' : World) :
  step w ev = Some w' ->
  exists more,
    trace w' = trace w ++ more /\
    forall s, In s (sends_on more) ->
              ws (mgr w) = Some s /\ is_open s w' = true.
Proof.
  intros Hs. destruct ev; cbn [step] in Hs.
  - inversion Hs; subst. apply same_trace_no_sends, trace_connect.
  - inversion Hs; subst.
    destruct (disconnect_fields w) as (_ & _ & _ & _ & _ & _ & Htr).
    apply (no_sends _ _ _ Htr). now destruct (ws (mgr w)).
  - inversion Hs; subst. now apply same_trace_no_sends.
  - inversion Hs; subst. now apply same_trace_no_sends.
  - inversion Hs; subst. now apply same_trace_no_sends.
  - inversion Hs; subst. unfold subscribeToChannel.
    destruct (isConnected w) eqn:Hc; [|now apply same_trace_no_sends].
    destruct (isConnected_open w Hc) as (s & Hws & Hopen).
    unfold sendSubscription. rewrite Hws, Hopen.
    exists [Send s (Control (subscribe_message channel0));
            Emit "subscriptionSent"
              (FramePayload (subscribe_message channel0))].
    rewrite trace_emit. cbn [effect trace]. rewrite <- app_assoc.
    split; [reflexivity|].
    cbn [sends_on]. intros s' [<-|[]].
    split; [first [exact Hws | reflexivity]|].
    rewrite is_open_emit. exact Hopen.
  - inversion Hs; subst. unfold unsubscribeFromChannel.
    destruct (isConnected w) eqn:Hc; [|now apply same_trace_no_sends].
    destruct (isConnected_open w Hc) as (s & Hws & Hopen).
    rewrite Hws.
    exists [Send s (Control (unsubscribe_message channel0))].
    split; [reflexivity|].
    cbn [sends_on]. intros s' [<-|[]].
    split; [first [exact Hws | reflexivity] | exact Hopen].
  - inversion Hs; subst.
    exists (ping_effects w). split; [apply trace_sendPing_exact|].
    intros s Hin. destruct (sends_on_ping_effects w s Hin) as [Hws Hopen].
    split; [exact Hws|].
    destruct (sendPing_frame w) as (_ & Hsock & _).
    unfold is_open, readyState in *. now rewrite Hsock.
  - inversion Hs; subst. apply same_trace_no_sends, trace_setWebSocketConfig.
  - inversion Hs; subst. now apply same_trace_no_sends.
  - inversion Hs; subst. apply same_trace_no_sends, trace_updateOptions.
  - destruct (lookup request (fetches w)) as [awaiter|]; inversion Hs; subst.
    clear Hs. unfold performConnection_resume.
    destruct result as [e|i e|i].
    + destruct (handleConnectionError_fields e
                  (set_fetches (remove_key request (fetches w)) w))
        as (Htr & _).
      destruct awaiter as [p timeout|]; cbn [attempt_failed].
      * eapply (no_sends _ _ (_ ++ [Reject p e])).
        { cbn [effect clearTimeout set_timers trace]. rewrite Htr.
          cbn [set_fetches trace]. rewrite <- app_assoc. reflexivity. }
        rewrite sends_on_app. cbn [set_fetches mgr].
        now destruct (connectionRejector (mgr w)).
      * eapply no_sends; [exact Htr|]. cbn [set_fetches mgr].
        now destruct (connectionRejector (mgr w)).
    + destruct (handleConnectionError_fields e
                  (with_mgr (set_channelId i)
                     (set_fetches (remove_key request (fetches w)) w)))
        as (Htr & _).
      destruct awaiter as [p timeout|]; cbn [attempt_failed].
      * eapply (no_sends _ _ (_ ++ [Reject p e])).
        { cbn [effect clearTimeout set_timers trace]. rewrite Htr.
          cbn [set_fetches with_mgr trace]. rewrite <- app_assoc.
          reflexivity. }
        rewrite sends_on_app. cbn [set_fetches with_mgr mgr set_channelId
          connectionRejector].
        now destruct (connectionRejector (mgr w)).
      * eapply no_sends; [exact Htr|]. cbn [set_fetches with_mgr mgr
          set_channelId connectionRejector].
        now destruct (connectionRejector (mgr w)).
    + eapply no_sends; [cbn; reflexivity | reflexivity].
  - destruct (lookup timer (timers w)) as [task|]; inversion Hs; subst.
    clear Hs. unfold run_timer. destruct task as [p|].
    + destruct (ConnectionState_eqb _ _);
        [now apply same_trace_no_sends|].
      match goal with
      | |- context [handleConnectionError ?e ?x] =>
          destruct (handleConnectionError_fields e x) as (Htr & _)
      end.
      eapply (no_sends _ _ (_ ++ [Reject p _])).
      { cbn [effect trace]. rewrite Htr.
        cbn [clearTimeout set_timers trace]. rewrite <- app_assoc.
        reflexivity. }
      rewrite sends_on_app. cbn [clearTimeout set_timers mgr].
      now destruct (connectionRejector (mgr w)).
    + now apply same_trace_no_sends.
  - assert (Hw' : w' = subscribeToChannels (set_readyState socket OPEN w)).
    { destruct (lookup socket (sockets w)) as [[]|]; inversion Hs.
      reflexivity. }
    subst w'. clear Hs.
    set (w2 := set_readyState socket OPEN w).
    assert (Hcase : (exists s, ws (mgr w) = Some s) \/ ws (mgr w) = None)
      by (destruct (ws (mgr w)); eauto).
    destruct Hcase as [[s Hws]|Hws].
    + destruct (handshake_outcome w2 s Hws)
        as (subscribed & frames & Htr & _ & _ & Hall & _ & _ & _
            & Hsock & _).
      eexists. split; [rewrite Htr; reflexivity|].
      intros s' Hin. rewrite sends_on_app in Hin.
      apply in_app_or in Hin as [Hin|Hin].
      * destruct (sends_on_handshake_frames w2 s frames Hall s' Hin)
          as [-> Hopen].
        split; [exact Hws|].
        unfold is_open, readyState in *. now rewrite Hsock.
      * exfalso. revert Hin. cbn [sends_on].
        now destruct (connectionResolver (mgr w2)).
    + apply same_trace_no_sends.
      rewrite subscribeToChannels_no_socket; [reflexivity | exact Hws].
  - assert (Hw' : w' = handleMessage data w).
    { destruct (lookup socket (sockets w)) as [[]|]; inversion Hs;
        reflexivity. }
    subst w'. clear Hs.
    destruct (handleMessage_frame data w)
      as (_ & Hsock & _ & _ & _ & more & Htr & _ & Hsends).
    exists more. split; [exact Htr|].
    intros s Hin. destruct (Hsends s Hin) as [Hws Hopen].
    split; [exact Hws|].
    unfold is_open, readyState in *. now rewrite Hsock.
  - assert (Hw' : w' = handleDisconnect code reason
                         (set_readyState socket CLOSED w)).
    { destruct (lookup socket (sockets w)) as [[]|]; inversion Hs;
        reflexivity. }
    subst w'. clear Hs.
    destruct (settle_and_retry_fields disconnected "disconnect"
                (DisconnectPayload code reason)
                (DisconnectedError code reason)
                (set_readyState socket CLOSED w)) as (Htr & _).
    eapply no_sends; [exact Htr|].
    cbn [set_readyState set_sockets mgr].
    now destruct (connectionRejector (mgr w)).
  - assert (Hw' : w' = onerror socket w).
    { destruct (lookup socket (sockets w)) as [[]|]; inversion Hs;
        reflexivity. }
    subst w'. clear Hs. unfold onerror.
    destruct (call_rejector_frame WebSocketError
                (emit "error" (ErrorPayload (ErrorEvent socket)) w))
      as (_ & _ & _ & _ & Htr).
    eapply (no_sends _ _ (_ :: _)).
    { rewrite Htr, trace_emit, <- app_assoc. reflexivity. }
    rewrite mgr_emit. cbn [sends_on app].
    now destruct (connectionRejector (mgr w)).
Qed.

(** ** The close event of a manually closed socket *)

Lemma disconnect_closing w s :
  ws (mgr w) = Some s ->
  lookup s (sockets w) = Some OPEN \/ lookup s (sockets w) = Some CONNECTING ->
  lookup s (sockets (disconnect w)) = Some CLOSING /\
  options (mgr (disconnect w)) = options (mgr w).
Proof.
  intros Hws Hlive.
  unfold disconnect, setConnectionState, close_socket, readyState.
  cbn [with_mgr mgr reconnectTimer set_isManualDisconnect].
  destruct (reconnectTimer (mgr w)) as [old|]; cbn; rewrite Hws; cbn;
    destruct Hlive as [Hl|Hl]; rewrite Hl; cbn;
    rewrite lookup_map_readyState, Hl, Pos.eqb_refl; split; reflexivity.
Qed.

Lemma scheduleReconnect_timer w :
  In (next w, Reconnect) (timers (scheduleReconnect w)) /\
  reconnectTimer (mgr (scheduleReconnect w)) = Some (next w).
Proof.
  unfold scheduleReconnect.
  destruct (reconnectTimer (mgr w)); cbn; split; try reflexivity;
    apply in_or_app; right; left; reflexivity.
Qed.

(** The world [handleDisconnect] hands to the reconnection test. *)
Lemma handleDisconnect_settled code reason w :
  exists w4,
    handleDisconnect code reason w = reconnect_if_enabled w4 /\
    mgr w4
    = set_connectionPair None None
        (set_connectionState disconnected (mgr w)) /\
    next w4 = next w /\
    incl (timers w4) (timers w).
Proof.
  eexists. split; [reflexivity|].
  destruct (call_rejector_frame (DisconnectedError code reason)
              (emit "disconnect" (DisconnectPayload code reason)
                 (setConnectionState disconnected w)))
    as (_ & _ & Hn & Ht & _).
  cbn [with_mgr mgr next timers].
  rewrite mgr_call_rejector, mgr_emit, Hn, next_emit, Ht.
  repeat split.
  eapply incl_tran; [apply timers_emit | apply incl_refl].
Qed.

(** With the flag set the close callback schedules nothing. *)
Lemma handleDisconnect_manual code reason w :
  isManualDisconnect (mgr w) = true ->
  connectionState (mgr (handleDisconnect code reason w)) = disconnected /\
  reconnectTimer (mgr (handleDisconnect code reason w))
  = reconnectTimer (mgr w) /\
  incl (timers (handleDisconnect code reason w)) (timers w).
Proof.
  intros Hmanual.
  destruct (handleDisconnect_settled code reason w)
    as (w4 & -> & Hm & _ & Ht).
  rewrite reconnect_if_enabled_manual; [|rewrite Hm; exact Hmanual].
  rewrite Hm. repeat split. exact Ht.
Qed.

(** With the flag reset and automatic reconnection on, it schedules one. *)
Lemma handleDisconnect_reschedules code reason w :
  autoReconnect (options (mgr w)) = true ->
  isManualDisconnect (mgr w) = false ->
  connectionState (mgr (handleDisconnect code reason w)) = reconnecting /\
  reconnectTimer (mgr (handleDisconnect code reason w)) = Some (next w) /\
  In (next w, Reconnect) (timers (handleDisconnect code reason w)).
Proof.
  intros Hauto Hmanual.
  destruct (handleDisconnect_settled code reason w)
    as (w4 & -> & Hm & Hn & _).
  unfold reconnect_if_enabled. rewrite Hm.
  cbn [options isManualDisconnect set_connectionPair set_connectionState].
  rewrite Hauto, Hmanual. cbn [negb andb].
  destruct (scheduleReconnect_timer w4) as [Hin Hfield].
  destruct (scheduleReconnect_fields w4) as (_ & _ & _ & _ & _ & Hst & _).
  rewrite Hn in Hin, Hfield. repeat split; assumption.
Qed.

(** [C6]  The close event of a socket that [disconnect] closed by hand:
    when it arrives before anything else is asked of the manager, the
    manual-disconnect flag makes the close callback schedule nothing and the
    manager stays [disconnected]; when [connect] was called in between, the
    flag has been reset, and the close callback of the old socket rejects
    the promise of the new [connect] and schedules a reconnection, leaving
    the manager [reconnecting] with the new timer pending. *)
Theorem late_close_defeats_manual_flag
        (name : string) (s : SocketId) (code : N) (reason : string)
        (w : World) :
  ws (mgr w) = Some s ->
  lookup s (sockets w) = Some OPEN \/ lookup s (sockets w) = Some CONNECTING ->
  autoReconnect (options (mgr w)) = true ->
  (exists w3,
      step (disconnect w) (Ws_onclose s code reason) = Some w3 /\
      connectionState (mgr w3) = disconnected /\
      reconnectTimer (mgr w3) = None /\
      incl (timers w3) (timers (disconnect w))) /\
  (exists w3,
      step (connect name (disconnect w)) (Ws_onclose s code reason)
      = Some w3 /\
      connectionState (mgr w3) = reconnecting /\
      reconnectTimer (mgr w3) = Some (next (connect name (disconnect w))) /\
      In (next (connect name (disconnect w)), Reconnect) (timers w3) /\
      trace w3
      = trace (disconnect w)
        ++ [ Emit "disconnect" (DisconnectPayload code reason);
             Reject (next w) (DisconnectedError code reason) ]).
Proof.
  intros Hws Hlive Hauto.
  destruct (disconnect_closing w s Hws Hlive) as [Hclosing Hoptions].
  destruct (disconnect_fields w) as (_ & _ & Htimer & Hmanual & _ & Hstate & _).
  destruct (disconnect_frame w) as (_ & Hnext & _).
  split.
  - exists (handleDisconnect code reason
              (set_readyState s CLOSED (disconnect w))).
    split; [cbn [step]; now rewrite Hclosing|].
    destruct (handleDisconnect_manual code reason
                (set_readyState s CLOSED (disconnect w)) Hmanual)
      as (Hst & Hfield & Htimers).
    split; [exact Hst|]. split; [|exact Htimers].
    rewrite Hfield. exact Htimer.
  - assert (H1 : connectionState (mgr (disconnect w)) <> connected)
      by (rewrite Hstate; discriminate).
    assert (H2 : connectionState (mgr (disconnect w)) <> connecting)
      by (rewrite Hstate; discriminate).
    pose proof (connect_idle name (disconnect w) H1 H2) as Hc.
    set (w2 := connect name (disconnect w)) in *.
    assert (Hsock : lookup s (sockets w2) = Some CLOSING)
      by (rewrite Hc; exact Hclosing).
    assert (Hauto2 : autoReconnect (options (mgr w2)) = true).
    { rewrite Hc. cbn [mgr options set_connectionState set_connectionPair
        set_isManualDisconnect set_channelName].
      rewrite Hoptions. exact Hauto. }
    assert (Hmanual2 : isManualDisconnect (mgr w2) = false)
      by (rewrite Hc; reflexivity).
    assert (Hrej : connectionRejector (mgr w2) = Some (next w))
      by (rewrite Hc; change (Some (next (disconnect w)) = Some (next w));
          now rewrite Hnext).
    assert (Htrace : trace w2 = trace (disconnect w))
      by (rewrite Hc; reflexivity).
    exists (handleDisconnect code reason (set_readyState s CLOSED w2)).
    split; [cbn [step]; now rewrite Hsock|].
    destruct (handleDisconnect_reschedules code reason
                (set_readyState s CLOSED w2) Hauto2 Hmanual2)
      as (Hst & Hfield & Hin).
    split; [exact Hst|]. split; [exact Hfield|]. split; [exact Hin|].
    destruct (settle_and_retry_fields disconnected "disconnect"
                (DisconnectPayload code reason)
                (DisconnectedError code reason)
                (set_readyState s CLOSED w2)) as (Htr & _).
    change (handleDisconnect code reason (set_readyState s CLOSED w2))
      with (reconnect_if_enabled
              (with_mgr (set_connectionPair None None)
                 (call_rejector (DisconnectedError code reason)
                    (emit "disconnect" (DisconnectPayload code reason)
                       (setConnectionState disconnected
                          (set_readyState s CLOSED w2)))))).
    rewrite Htr. cbn [set_readyState set_sockets mgr trace].
    rewrite Hrej, Htrace. reflexivity.
Qed.

End Runtime.

(** * The development on concrete inputs

    Numbers are integers, [JSON.parse] is the reference decoder, the legacy
    table and the wire name of [KicksGifted] are the samples. *)

Abbreviation parseMessageZ :=
  (parseMessage Z Json.truthy Json.toString 0%Z Json.parse
     Samples.legacy_table Samples.KicksGifted).
Abbreviation wire_messageZ := (wire_message Z Json.parse).
Abbreviation normalizeEventZ := (normalizeEvent Samples.legacy_table).
Abbreviation handleMessageZ :=
  (handleMessage Z Json.truthy Json.toString 0%Z Json.parse
     Samples.legacy_table Samples.KicksGifted).
Abbreviation runZ :=
  (run Z Json.truthy Json.toString 0%Z Json.parse Samples.legacy_table
     Samples.KicksGifted Samples.query).
Abbreviation stepZ :=
  (step Z Json.truthy Json.toString 0%Z Json.parse Samples.legacy_table
     Samples.KicksGifted Samples.query).
Abbreviation new_managerZ := (new_manager Z 0%Z).

(** A manager that has just been asked to connect: promise 1, timeout 2 and
    the channel lookup 3 are pending. *)
Abbreviation connecting_world :=
  (connect Z "ana" (new_managerZ options_default)).

(** The same manager once the lookup has answered and socket 4 exists. *)
Abbreviation socket_world :=
  (performConnection_resume Z Samples.query (FromConnect 1%positive 2%positive)
     (SocketCreated Z 668%Z)
     (set_fetches Z [] connecting_world)).

(** The envelope payload of the sample chat message. *)
Abbreviation chat_event :=
  (JObj
     [ ("id", JStr "m1");
       ("content", JStr "gg Kappa well played");
       ("type", JStr "message");
       ("created_at", JUndefined);
       ("sender",
         JObj [ ("id", JNum 7%Z);
                ("username", JStr "ana");
                ("slug", JStr "ana");
                ("identity",
                  JObj [("color", JStr "#ffffff"); ("badges", JArr [])]) ]);
       ("chatroom", JObj [("id", JNum 0%Z)]) ]).

Lemma legacy_alias_same_envelope_witness :
  legacy_alias Samples.legacy_table "ChatMessageEvent" KickEvent.ChatMessage
  = true /\
  wire_messageZ Samples.chat_frame_bare "ChatMessageEvent"
    Samples.chat_payload /\
  wire_messageZ Samples.chat_frame KickEvent.ChatMessage Samples.chat_payload /\
  parseMessageZ Samples.chat_frame
  = Normal (Some (mkEnvelope Z "ChatMessage" chat_event None)) /\
  parseMessageZ Samples.chat_frame_bare
  = Normal (Some (mkEnvelope Z "ChatMessage" chat_event
                    (Some "ChatMessageEvent"))).
Proof.
  assert (Hb : wire_messageZ Samples.chat_frame_bare "ChatMessageEvent"
                 Samples.chat_payload).
  { eexists; eexists.
    repeat split; try (vm_compute; reflexivity). discriminate. }
  assert (Hc : wire_messageZ Samples.chat_frame KickEvent.ChatMessage
                 Samples.chat_payload).
  { eexists; eexists.
    repeat split; try (vm_compute; reflexivity). discriminate. }
  split; [reflexivity|]. split; [exact Hb|]. split; [exact Hc|].
  apply (proj1 (proj2
           (legacy_alias_same_envelope Z Json.truthy Json.toString 0%Z
              Json.parse Samples.legacy_table Samples.KicksGifted
              Samples.chat_frame_bare Samples.chat_frame
              "ChatMessageEvent" KickEvent.ChatMessage Samples.chat_payload
              eq_refl Hb Hc))
           "ChatMessage" chat_event).
  vm_compute. reflexivity.
Defined.

Lemma chat_message_emotes_stripped_witness :
  wire_messageZ Samples.chat_frame KickEvent.ChatMessage Samples.chat_payload /\
  normalizeEventZ KickEvent.ChatMessage = Some KickEvent.ChatMessage /\
  get Z Samples.chat_payload "content"
  = Normal (JStr "gg [emote:123:Kappa] well played") /\
  (exists e,
      parseMessageZ Samples.chat_frame = Normal (Some e) /\
      env_type Z e = "ChatMessage" /\
      get Z (env_data Z e) "content"
      = Normal (JStr (cleanEmotes_string "gg [emote:123:Kappa] well played")) /\
      Stripped "gg [emote:123:Kappa] well played"
               (cleanEmotes_string "gg [emote:123:Kappa] well played") /\
      (forall out,
          Stripped "gg [emote:123:Kappa] well played" out ->
          out = cleanEmotes_string "gg [emote:123:Kappa] well played")).
Proof.
  assert (Hc : wire_messageZ Samples.chat_frame KickEvent.ChatMessage
                 Samples.chat_payload).
  { eexists; eexists.
    repeat split; try (vm_compute; reflexivity). discriminate. }
  split; [exact Hc|]. split; [reflexivity|]. split; [reflexivity|].
  apply (chat_message_emotes_stripped Z Json.truthy Json.toString 0%Z
           Json.parse Samples.legacy_table Samples.KicksGifted
           Samples.chat_frame "gg [emote:123:Kappa] well played"
           Samples.chat_payload
           (JObj [ ("id", JNum 7%Z); ("username", JStr "ana");
                   ("slug", JStr "ana") ]));
    [exact Hc | reflexivity | reflexivity | reflexivity | reflexivity].
Defined.

Lemma filter_misses_RewardRedeemed_witness :
  filteredEvents (options Z (mgr Z (new_managerZ options_chat_only)))
  = ["ChatMessage"] /\
  wire_messageZ Samples.reward_frame KickEvent.RewardRedeemed
    Samples.reward_payload /\
  emissions Z (trace Z (handleMessageZ Samples.reward_frame
                          (new_managerZ options_chat_only)))
  = [ ("rawMessage", RawPayload Z Samples.reward_frame);
      ("RewardRedeemed",
        DomainPayload Z
          (JObj [ ("reward_title", JStr "Hydrate"); ("user_id", JNum 7%Z);
                  ("channel_id", JUndefined); ("username", JStr "ana");
                  ("user_input", JUndefined);
                  ("reward_background_color", JUndefined);
                  ("type", JStr "reward_redeemed") ])) ].
Proof.
  assert (Hw : wire_messageZ Samples.reward_frame KickEvent.RewardRedeemed
                 Samples.reward_payload).
  { eexists; eexists.
    repeat split; try (vm_compute; reflexivity). discriminate. }
  split; [reflexivity|]. split; [exact Hw|].
  rewrite (proj2 (filter_misses_RewardRedeemed Z Json.truthy Json.toString
                    0%Z Json.parse Samples.legacy_table Samples.KicksGifted
                    Samples.reward_frame Samples.reward_payload _
                    (new_managerZ options_chat_only)
                    eq_refl Hw eq_refl eq_refl)).
  reflexivity.
Defined.

Lemma connect_twice_is_noop_witness :
  (connectionState Z (mgr Z connecting_world) = connected \/
   connectionState Z (mgr Z connecting_world) = connecting) /\
  connect Z "bea" connecting_world = connecting_world.
Proof.
  split; [right; reflexivity|].
  apply (connect_twice_is_noop Z "bea" connecting_world).
  right. reflexivity.
Defined.

Lemma onerror_keeps_pair_witness :
  connectionRejector Z (mgr Z socket_world) = Some 1%positive /\
  connectionRejector Z (mgr Z (onerror Z 4%positive socket_world)) = Some 1%positive /\
  settle_calls Z 1%positive
    (trace Z (handleDisconnect Z 1006%N "" (onerror Z 4%positive socket_world)))
  = 2.
Proof.
  split; [reflexivity|].
  destruct (onerror_keeps_pair Z 4%positive 1%positive 1006%N "" socket_world eq_refl)
    as (H1 & _ & _ & H2).
  split; [exact H1 | exact H2].
Defined.

Lemma disconnect_cancels_reconnect_witness :
  runZ (scheduleReconnect Z (new_managerZ options_default))
       [Call_addCustomSubscriptions Z ["lobby"]]
  = Some (addCustomSubscriptions Z ["lobby"]
            (scheduleReconnect Z (new_managerZ options_default))) /\
  lookup 1%positive (timers Z (addCustomSubscriptions Z ["lobby"]
                        (scheduleReconnect Z (new_managerZ options_default))))
  <> None /\
  stepZ (connect Z "ana"
           (disconnect Z
              (addCustomSubscriptions Z ["lobby"]
                 (scheduleReconnect Z (new_managerZ options_default)))))
        (TimerFires Z 1%positive)
  = None.
Proof.
  split; [reflexivity|]. split; [discriminate|].
  apply (disconnect_cancels_reconnect Z Json.truthy Json.toString 0%Z
           Json.parse Samples.legacy_table Samples.KicksGifted Samples.query
           (new_managerZ options_default)
           (addCustomSubscriptions Z ["lobby"]
              (scheduleReconnect Z (new_managerZ options_default)))
           (connect Z "ana"
              (disconnect Z
                 (addCustomSubscriptions Z ["lobby"]
                    (scheduleReconnect Z (new_managerZ options_default)))))
           [Call_addCustomSubscriptions Z ["lobby"]]
           [Call_connect Z "ana"]);
    [reflexivity | discriminate | reflexivity].
Defined.

(** From the constructor: connect, first socket, the relay drops the
    connection, the reconnect timer fires, the channel resolves to the same
    id and the second socket opens. *)
Abbreviation reopen_events :=
  [ Call_connect Z "ana";
    ChannelInfo Z 3%positive (SocketCreated Z 668%Z);
    Ws_onopen Z 4%positive;
    Ws_onclose Z 4%positive 1006%N "gone";
    TimerFires Z 5%positive;
    ChannelInfo Z 6%positive (SocketCreated Z 668%Z);
    Ws_onopen Z 7%positive ].

Abbreviation reopened_world :=
  (from_option (runZ (new_managerZ options_default) reopen_events)
               (new_managerZ options_default)).

(** From the constructor: connect to one channel, disconnect, connect to
    another. *)
Abbreviation two_channel_events :=
  [ Call_connect Z "ana";
    ChannelInfo Z 3%positive (SocketCreated Z 668%Z);
    Ws_onopen Z 4%positive;
    Call_disconnect Z;
    Call_connect Z "bea";
    ChannelInfo Z 7%positive (SocketCreated Z 999%Z);
    Ws_onopen Z 8%positive ].

Abbreviation two_channel_world :=
  (from_option (runZ (new_managerZ options_default) two_channel_events)
               (new_managerZ options_default)).

Abbreviation handshakesZ :=
  (handshakes Z Json.truthy Json.toString 0%Z Json.parse Samples.legacy_table
     Samples.KicksGifted Samples.query).
Abbreviation opens_derivingZ :=
  (opens_deriving Z Json.truthy Json.toString 0%Z Json.parse
     Samples.legacy_table Samples.KicksGifted Samples.query).

Lemma derived_topics_accumulate_witness :
  runZ (new_managerZ options_default) reopen_events = Some reopened_world /\
  existsb (is_clear Z) reopen_events = false /\
  handshakesZ (new_managerZ options_default) reopen_events = 2 /\
  opens_derivingZ "chatroom_668" (new_managerZ options_default) reopen_events
  = 2 /\
  count_occ string_dec (fst (getCustomSubscriptions Z reopened_world))
            "chatroom_668"
  = 2.
Proof.
  assert (Hrun : runZ (new_managerZ options_default) reopen_events
                 = Some reopened_world)
    by (vm_compute; reflexivity).
  split; [exact Hrun|]. split; [reflexivity|].
  split; [vm_compute; reflexivity|]. split; [vm_compute; reflexivity|].
  rewrite (proj1 (proj2
             (derived_topics_accumulate Z Json.truthy Json.toString 0%Z
                Json.parse Samples.legacy_table Samples.KicksGifted
                Samples.query reopen_events (new_managerZ options_default)
                reopened_world Hrun eq_refl))
             "chatroom_668").
  vm_compute. reflexivity.
Defined.

(** Two opens under two channel ids: each of the twelve derived topics is
    held once, not once per open. *)
Lemma derived_topics_not_one_per_open :
  runZ (new_managerZ options_default) two_channel_events
  = Some two_channel_world /\
  existsb (is_clear Z) two_channel_events = false /\
  caller_added Z two_channel_events = [] /\
  handshakesZ (new_managerZ options_default) two_channel_events = 2 /\
  In "chatroom_668" (derived_topics "668") /\
  In "chatroom_999" (derived_topics "999") /\
  fst (getCustomSubscriptions Z two_channel_world)
  = derived_topics "668" ++ derived_topics "999" /\
  count_occ string_dec (fst (getCustomSubscriptions Z two_channel_world))
            "chatroom_668"
  = 1 /\
  count_occ string_dec (fst (getCustomSubscriptions Z two_channel_world))
            "chatroom_999"
  = 1 /\
  count_occ string_dec (fst (getCustomSubscriptions Z two_channel_world))
            "chatroom_668"
  <> handshakesZ (new_managerZ options_default) two_channel_events.
Proof.
  vm_compute. repeat split; try (left; reflexivity). discriminate.
Qed.

(** The run behind [C3], from the constructor: the connect promise is
    rejected by the error callback, the pair stays in place, and the close
    callback rejects the same promise a second time. *)
Example connect_promise_rejected_twice :
  match runZ (new_managerZ options_default)
             [ Call_connect Z "ana";
               ChannelInfo Z 3%positive (SocketCreated Z 668%Z);
               Ws_onerror Z 4%positive ],
        runZ (new_managerZ options_default)
             [ Call_connect Z "ana";
               ChannelInfo Z 3%positive (SocketCreated Z 668%Z);
               Ws_onerror Z 4%positive;
               Ws_onclose Z 4%positive 1006%N "" ]
  with
  | Some after_error, Some after_close =>
      settle_calls Z 1%positive (trace Z after_error) = 1 /\
      connectionResolver Z (mgr Z after_error) = Some 1%positive /\
      connectionRejector Z (mgr Z after_error) = Some 1%positive /\
      settle_calls Z 1%positive (trace Z after_close) = 2
  | _, _ => False
  end.
Proof. vm_compute. repeat split. Qed.

(** The inputs behind [C4], from the constructor with
    [filteredEvents = ["ChatMessage"]]: a [UserBanned] frame under its
    namespaced name is dropped, the same frame under a bare alias and a
    [RewardRedeemed] frame are emitted. *)
Example filter_bypassed_by_alias_and_reward :
  emissions Z
    (trace Z (handleMessageZ
                (Json.dq "{'event':'App\\Events\\UserBannedEvent','data':'{\'username\':\'bob\'}'}")
                (new_managerZ options_chat_only)))
  = [ ("rawMessage",
        RawPayload Z
          (Json.dq "{'event':'App\\Events\\UserBannedEvent','data':'{\'username\':\'bob\'}'}")) ] /\
  emissions Z
    (trace Z (handleMessageZ
                (Json.dq "{'event':'UserBannedEvent','data':'{\'username\':\'bob\'}'}")
                (new_managerZ options_chat_only)))
  = [ ("rawMessage",
        RawPayload Z
          (Json.dq "{'event':'UserBannedEvent','data':'{\'username\':\'bob\'}'}"));
      ("UserBanned",
        DomainPayload Z
          (JObj [("username", JStr "bob"); ("type", JStr "user_banned")])) ] /\
  emissions Z
    (trace Z (handleMessageZ Samples.reward_frame
                (new_managerZ options_chat_only)))
  = [ ("rawMessage", RawPayload Z Samples.reward_frame);
      ("RewardRedeemed",
        DomainPayload Z
          (JObj [ ("reward_title", JStr "Hydrate"); ("user_id", JNum 7%Z);
                  ("channel_id", JUndefined); ("username", JStr "ana");
                  ("user_input", JUndefined);
                  ("reward_background_color", JUndefined);
                  ("type", JStr "reward_redeemed") ])) ].
Proof. vm_compute. repeat split. Qed.

(** ** The checks of the repository's own test file, replayed *)

Abbreviation isValidMessageZ :=
  (isValidMessage Z Json.truthy Json.toString Json.parse).

Example parser_ignores_relay_frames :
  parseMessageZ
    (Json.dq "{'event':'pusher:connection_established','data':'{\'socket_id\':\'123.456\',\'activity_timeout\':120}'}")
  = Normal None.
Proof. vm_compute. reflexivity. Qed.

Example parser_survives_invalid_json :
  parseMessageZ "invalid json" = Normal None /\
  parseMessageZ "" = Normal None /\
  parseMessageZ "   " = Normal None.
Proof. vm_compute. repeat split. Qed.

Example isValidMessage_checks :
  isValidMessageZ (Json.dq "{'event':'test','data':'test data'}") = Normal true /\
  isValidMessageZ "not json" = Normal false.
Proof. vm_compute. split; reflexivity. Qed.

Example manager_starts_disconnected :
  isConnected Z (new_managerZ options_default) = false /\
  getConnectionState Z (new_managerZ options_default) = disconnected /\
  channelName Z (mgr Z (new_managerZ options_default)) = "" /\
  channelId Z (mgr Z (new_managerZ options_default)) = 0%Z.
Proof. repeat split. Qed.

(** A ban that only carries [banned_username]. *)
Example ban_payload_defaults :
  parseMessageZ
    (Json.dq "{'event':'App\\Events\\UserBannedEvent','data':'{\'banned_username\':\'x\'}'}")
  = Normal (Some (mkEnvelope Z "UserBanned"
                    (JObj [("username", JStr "x"); ("type", JStr "user_banned")])
                    None)).
Proof. vm_compute. reflexivity. Qed.

(** The set of the handshake is local to it: a later [subscribeToChannel]
    for a topic of the handshake sends a second control frame. *)
Example dynamic_subscribe_is_not_deduplicated :
  match runZ socket_world
             [ Ws_onopen Z 4%positive;
               Call_subscribeToChannel Z "chatroom_668" ] with
  | Some w =>
      count_occ string_dec (sent_topics Z (trace Z w)) "chatroom_668" = 2
  | None => False
  end.
Proof. vm_compute. reflexivity. Qed.

(** ** The further properties on concrete inputs *)

Abbreviation extractEventTypeZ :=
  (extractEventType Z Json.truthy Json.toString Json.parse).
Abbreviation parseMessage_v1Z :=
  (parseMessage_v1 Z Json.truthy Json.toString 0%Z Json.parse).

(** A keep-alive answer of the relay. *)
Abbreviation pong_frame := (Json.dq "{'event':'pusher:pong','data':'{}'}").

(** A chat frame whose payload has no sender. *)
Abbreviation orphan_frame :=
  (Json.dq "{'event':'App\\Events\\ChatMessageEvent','data':'{\'id\':\'m2\',\'content\':\'hi\'}'}").

Abbreviation orphan_payload :=
  (JObj [("id", JStr "m2"); ("content", @JStr Z "hi")]).

Lemma parsed_frame_is_valid_witness :
  exists e,
    parseMessageZ Samples.chat_frame = Normal (Some e) /\
    isValidMessageZ Samples.chat_frame = Normal true /\
    exists ev,
      extractEventTypeZ Samples.chat_frame = Normal (Some (JStr ev)) /\
      ev <> "" /\ reserved ev = false.
Proof.
  eexists. split; [vm_compute; reflexivity|].
  eapply (parsed_frame_is_valid Z Json.truthy Json.toString 0%Z Json.parse
            Samples.legacy_table Samples.KicksGifted Samples.chat_frame).
  vm_compute. reflexivity.
Defined.

Lemma reserved_frame_is_dropped_witness :
  exists message,
    Json.parse pong_frame = Some message /\
    get Z message "event" = Normal (JStr "pusher:pong") /\
    reserved "pusher:pong" = true /\
    parseMessageZ pong_frame = Normal None /\
    extractEventTypeZ pong_frame = Normal None.
Proof.
  eexists. split; [vm_compute; reflexivity|].
  split; [reflexivity|]. split; [reflexivity|].
  eapply (reserved_frame_is_dropped Z Json.truthy Json.toString 0%Z
            Json.parse Samples.legacy_table Samples.KicksGifted pong_frame
            "pusher:pong");
    vm_compute; reflexivity.
Defined.

Lemma envelope_kind_of_wire_name_witness :
  exists e,
    parseMessageZ Samples.chat_frame_bare = Normal (Some e) /\
    exists ev normalized,
      extractEventTypeZ Samples.chat_frame_bare = Normal (Some (JStr ev)) /\
      normalizeEventZ ev = Some normalized /\
      assoc normalized (wire_kinds Samples.KicksGifted)
      = Some (env_type Z e).
Proof.
  eexists. split; [vm_compute; reflexivity|].
  eapply (envelope_kind_of_wire_name Z Json.truthy Json.toString 0%Z
            Json.parse Samples.legacy_table Samples.KicksGifted
            Samples.chat_frame_bare).
  vm_compute. reflexivity.
Defined.

Lemma legacyType_of_wire_name_witness :
  exists e,
    parseMessageZ Samples.chat_frame_bare = Normal (Some e) /\
    exists ev,
      extractEventTypeZ Samples.chat_frame_bare = Normal (Some (JStr ev)) /\
      env_legacyType Z e
      = match assoc ev Samples.legacy_table with
        | Some v =>
            if String.eqb v "" || String.eqb v ev then None else Some ev
        | None => None
        end.
Proof.
  eexists. split; [vm_compute; reflexivity|].
  eapply (legacyType_of_wire_name Z Json.truthy Json.toString 0%Z
            Json.parse Samples.legacy_table Samples.KicksGifted
            Samples.chat_frame_bare).
  vm_compute. reflexivity.
Defined.

Lemma revisions_agree_witness :
  @nil (string * string) = [] /\
  (parseMessage_v1Z Samples.chat_frame
   = parseMessage Z Json.truthy Json.toString 0%Z Json.parse []
       Samples.KicksGifted Samples.chat_frame \/
   exists e,
     parseMessage Z Json.truthy Json.toString 0%Z Json.parse []
       Samples.KicksGifted Samples.chat_frame = Normal (Some e) /\
     env_type Z e = "KicksGifted" /\
     parseMessage_v1Z Samples.chat_frame = Normal None).
Proof.
  split; [reflexivity|].
  apply (revisions_agree Z Json.truthy Json.toString 0%Z Json.parse []
           Samples.KicksGifted Samples.chat_frame).
  reflexivity.
Defined.

(** A ban that only names [banned_username]. *)
Lemma username_never_missing_witness :
  nullish Z (JObj [("banned_username", JStr "bob")]) = false /\
  exists u,
    parseUserBanned Z Json.truthy (JObj [("banned_username", JStr "bob")])
    = Normal (JObj [("username", u); ("type", JStr "user_banned")]) /\
    truthy Z Json.truthy u = true.
Proof.
  split; [reflexivity|].
  destruct (proj1 (username_never_missing Z Json.truthy
                     (JObj [("banned_username", JStr "bob")]))
              eq_refl JUndefined eq_refl)
    as (Hbanned & _).
  destruct (Hbanned (JStr "bob") eq_refl) as (u & Hu & Ht & _).
  exists u. split; assumption.
Defined.

Lemma gifted_recipients_normalised_witness :
  nullish Z (JObj [ ("gifted_by", JStr "ana");
                    ("recipients", JArr [JStr "bob"; JObj []; JNum 3%Z]) ])
  = false /\
  exists g rs,
    parseGiftedSubscriptions Z Json.truthy
      (JObj [ ("gifted_by", JStr "ana");
              ("recipients", JArr [JStr "bob"; JObj []; JNum 3%Z]) ])
    = Normal (JObj [ ("gifted_by", g); ("recipients", JArr rs);
                     ("type", JStr "gifted_subscriptions") ]) /\
    truthy Z Json.truthy g = true /\
    Forall2 (kept_or_truthy Z Json.truthy)
            [JStr "bob"; JObj []; JNum 3%Z] rs.
Proof.
  split; [reflexivity|].
  destruct (gifted_recipients_normalised Z Json.truthy
              (JObj [ ("gifted_by", JStr "ana");
                      ("recipients", JArr [JStr "bob"; JObj []; JNum 3%Z]) ])
              eq_refl)
    as (_ & Harray & _).
  { discriminate. }
  apply Harray; [reflexivity|].
  repeat constructor.
Defined.

Lemma stream_host_names_normalised_witness :
  nullish Z (JObj [("hoster", JObj [("username", JStr "ana")])]) = false /\
  exists h c hoster hostedChannel,
    get Z (JObj [("hoster", JObj [("username", JStr "ana")])]) "hoster"
    = Normal h /\
    get Z (JObj [("hoster", JObj [("username", JStr "ana")])])
        "hosted_channel"
    = Normal c /\
    parseStreamHost Z Json.truthy
      (JObj [("hoster", JObj [("username", JStr "ana")])])
    = Normal (JObj [ ("hoster", hoster); ("hosted_channel", hostedChannel);
                     ("type", JStr "stream_host") ]) /\
    kept_or_truthy Z Json.truthy h hoster /\
    kept_or_truthy Z Json.truthy c hostedChannel /\
    (nullish Z h = true -> hoster = JStr "unknown") /\
    (nullish Z c = true -> hostedChannel = JStr "unknown").
Proof.
  split; [reflexivity|].
  apply (stream_host_names_normalised Z Json.truthy
           (JObj [("hoster", JObj [("username", JStr "ana")])])).
  reflexivity.
Defined.

Lemma poll_options_normalised_witness :
  nullish Z (JObj [ ("id", JStr "p1");
                    ("options", JArr [JObj [("id", JNum 1%Z)]]) ]) = false /\
  exists options,
    parsePollUpdate Z Json.truthy 0%Z
      (JObj [ ("id", JStr "p1");
              ("options", JArr [JObj [("id", JNum 1%Z)]]) ])
    = Normal (JObj [ ("poll_id", JStr "p1"); ("question", JUndefined);
                     ("options", JArr options);
                     ("type", JStr "poll_update") ]) /\
    Forall2 (poll_option Z Json.truthy 0%Z) [JObj [("id", JNum 1%Z)]] options.
Proof.
  split; [reflexivity|].
  destruct (poll_options_normalised Z Json.truthy 0%Z
              (JObj [ ("id", JStr "p1");
                      ("options", JArr [JObj [("id", JNum 1%Z)]]) ])
              eq_refl)
    as (id & question & o & Hid & Hq & Ho & _ & Harray & _).
  cbn in Hid, Hq, Ho.
  inversion Hid; inversion Hq; inversion Ho; subst.
  apply Harray; [reflexivity|]. repeat constructor.
Defined.

Lemma cleanEmotes_only_shrinks_witness :
  no_bracket "well played" = true /\
  cleanEmotes_string "well played" = "well played".
Proof.
  split; [reflexivity|].
  apply (proj2 (proj2 (cleanEmotes_only_shrinks "well played"))).
  reflexivity.
Defined.

Lemma chat_transform_outcome_witness :
  chat_ok Z Json.truthy Samples.chat_payload = true /\
  chat_ok Z Json.truthy orphan_payload = false /\
  (exists out,
      parseChatMessage Z Json.truthy 0%Z Samples.chat_payload = Normal out /\
      get_path Z out ["sender"; "identity"; "color"]
      = Normal (JStr "#ffffff") /\
      get_path Z out ["chatroom"; "id"] = Normal (JNum 0%Z)) /\
  parseChatMessage Z Json.truthy 0%Z orphan_payload = Throw TypeError.
Proof.
  split; [reflexivity|]. split; [reflexivity|].
  destruct (chat_transform_outcome Z Json.truthy 0%Z Samples.chat_payload)
    as [Hok _].
  destruct (chat_transform_outcome Z Json.truthy 0%Z orphan_payload)
    as [_ Hbad].
  split; [|exact (Hbad eq_refl)].
  destruct (Hok eq_refl)
    as (out & sender & identity & chatroom & color & badges & room & Hout
        & Hs & Hi & Hc & Hcolor & _ & Hroom & _ & _ & _ & _ & _ & _
        & Hpc & _ & Hpr).
  cbn in Hs. inversion Hs; subst sender.
  cbn in Hi. inversion Hi; subst identity.
  cbn in Hc. inversion Hc; subst chatroom.
  cbn in Hcolor. inversion Hcolor; subst color.
  cbn in Hroom. inversion Hroom; subst room.
  exists out. split; [exact Hout|]. split; [exact Hpc | exact Hpr].
Defined.

Lemma pinned_message_follows_chat_witness :
  get Z (JObj [("message", Samples.chat_payload)]) "message"
  = Normal Samples.chat_payload /\
  chat_ok Z Json.truthy Samples.chat_payload = true /\
  exists message,
    parseChatMessage Z Json.truthy 0%Z Samples.chat_payload = Normal message /\
    parsePinnedMessageCreated Z Json.truthy 0%Z
      (JObj [("message", Samples.chat_payload)])
    = Normal (JObj [ ("message", message);
                     ("type", JStr "pinned_message_created") ]).
Proof.
  split; [reflexivity|]. split; [reflexivity|].
  exact (proj2 (pinned_message_follows_chat Z Json.truthy 0%Z
                  (JObj [("message", Samples.chat_payload)]))
               Samples.chat_payload eq_refl).
Defined.

Lemma transform_failure_is_null_witness :
  wire_messageZ orphan_frame KickEvent.ChatMessage orphan_payload /\
  KickEvent.ChatMessage <> "" /\
  reserved KickEvent.ChatMessage = false /\
  normalizeEventZ KickEvent.ChatMessage = Some KickEvent.ChatMessage /\
  chat_ok Z Json.truthy orphan_payload = false /\
  parseMessageZ orphan_frame = Normal None.
Proof.
  assert (Hw : wire_messageZ orphan_frame KickEvent.ChatMessage
                 orphan_payload).
  { eexists; eexists.
    repeat split; try (vm_compute; reflexivity). discriminate. }
  split; [exact Hw|]. split; [discriminate|]. split; [reflexivity|].
  split; [reflexivity|]. split; [reflexivity|].
  apply (proj2 (transform_failure_is_null Z Json.truthy Json.toString 0%Z
                  Json.parse Samples.legacy_table Samples.KicksGifted
                  orphan_frame KickEvent.ChatMessage orphan_payload
                  KickEvent.ChatMessage Hw ltac:(discriminate) eq_refl
                  eq_refl));
    reflexivity.
Defined.

(** The manager of [socket_world] once socket 4 is open, before and after
    the handshake. *)
Abbreviation opening_world := (set_readyState Z 4%positive OPEN socket_world).
Abbreviation open_world :=
  (from_option (runZ socket_world [Ws_onopen Z 4%positive]) socket_world).

Lemma relay_frame_is_intercepted_witness :
  exists message,
    Json.parse pong_frame = Some message /\
    get Z message "event" = Normal (JStr "pusher:pong") /\
    reserved "pusher:pong" = true /\
    trace Z (handleMessageZ pong_frame open_world)
    = trace Z open_world
      ++ [ Emit Z "rawMessage" (RawPayload Z pong_frame);
           Send Z 4%positive Ping;
           Emit Z "pingSent" (NoPayload Z) ].
Proof.
  eexists. split; [vm_compute; reflexivity|].
  split; [reflexivity|]. split; [reflexivity|].
  rewrite (relay_frame_is_intercepted Z Json.truthy Json.toString 0%Z
             Json.parse Samples.legacy_table Samples.KicksGifted pong_frame
             "pusher:pong" _ open_world ltac:(vm_compute; reflexivity)
             eq_refl eq_refl).
  vm_compute. reflexivity.
Defined.

Lemma filter_is_allow_list_on_mapped_kinds_witness :
  assoc KickEvent.ChatMessage EVENT_TYPE_MAP = Some "ChatMessage" /\
  wire_messageZ Samples.chat_frame KickEvent.ChatMessage Samples.chat_payload /\
  normalizeEventZ KickEvent.ChatMessage = Some KickEvent.ChatMessage /\
  exists e,
    parseMessageZ Samples.chat_frame = Normal (Some e) /\
    env_type Z e = "ChatMessage" /\
    trace Z (handleMessageZ Samples.chat_frame
               (new_managerZ options_chat_only))
    = trace Z (new_managerZ options_chat_only)
      ++ [ Emit Z "rawMessage" (RawPayload Z Samples.chat_frame);
           Emit Z "ChatMessage" (DomainPayload Z (env_data Z e)) ].
Proof.
  assert (Hw : wire_messageZ Samples.chat_frame KickEvent.ChatMessage
                 Samples.chat_payload).
  { eexists; eexists.
    repeat split; try (vm_compute; reflexivity). discriminate. }
  split; [reflexivity|]. split; [exact Hw|]. split; [reflexivity|].
  eexists. split; [vm_compute; reflexivity|].
  eapply (filter_is_allow_list_on_mapped_kinds Z Json.truthy Json.toString
            0%Z Json.parse Samples.legacy_table Samples.KicksGifted
            Samples.chat_frame KickEvent.ChatMessage "ChatMessage"
            Samples.chat_payload _ (new_managerZ options_chat_only)
            eq_refl Hw eq_refl).
  vm_compute. reflexivity.
Defined.

Lemma ready_lists_recorded_topics_witness :
  ws Z (mgr Z opening_world) = Some 4%positive /\
  exists subscribed frames,
    trace Z (subscribeToChannels Z Json.toString opening_world)
    = trace Z opening_world ++ frames
      ++ [ Emit Z "ready" (ReadyPayload Z "ana" subscribed);
           Resolve Z 1%positive ] /\
    sent_topics Z frames = subscribed /\
    NoDup subscribed.
Proof.
  split; [reflexivity|].
  destruct (ready_lists_recorded_topics Z Json.truthy Json.toString 0%Z
              Json.parse Samples.legacy_table Samples.KicksGifted
              Samples.query opening_world 4%positive eq_refl)
    as (subscribed & frames & Htr & Hsent & _ & Hnd & _).
  exists subscribed, frames.
  split; [exact Htr|]. split; [exact Hsent | exact Hnd].
Defined.

(** A fresh manager whose first attempt fails at the channel lookup. *)
Abbreviation failed_events :=
  [ Call_connect Z "ana";
    ChannelInfo Z 3%positive (InfoFailed Z (AttemptError "offline")) ].

Abbreviation failed_world :=
  (from_option (runZ (new_managerZ options_default) failed_events)
               (new_managerZ options_default)).

Lemma at_most_one_reconnect_pending_witness :
  runZ (new_managerZ options_default) failed_events = Some failed_world /\
  pending_reconnects Z failed_world = [4%positive] /\
  one_reconnect Z failed_world /\
  pending_reconnects Z (disconnect Z failed_world) = [] /\
  pending_reconnects Z (scheduleReconnect Z failed_world) = [5%positive].
Proof.
  split; [vm_compute; reflexivity|]. split; [vm_compute; reflexivity|].
  apply (at_most_one_reconnect_pending Z Json.truthy Json.toString 0%Z
           Json.parse Samples.legacy_table Samples.KicksGifted Samples.query
           options_default failed_events failed_world).
  vm_compute. reflexivity.
Defined.

Lemma connect_resolves_when_socket_opens_witness :
  connectionState Z (mgr Z (new_managerZ options_default)) <> connected /\
  connectionState Z (mgr Z (new_managerZ options_default)) <> connecting /\
  lookup 3%positive (fetches Z (new_managerZ options_default)) = None /\
  lookup 4%positive (sockets Z (new_managerZ options_default)) = None /\
  exists w',
    runZ (new_managerZ options_default)
         [ Call_connect Z "ana";
           ChannelInfo Z 3%positive (SocketCreated Z 668%Z);
           Ws_onopen Z 4%positive ]
    = Some w' /\
    isConnected Z w' = true /\
    connectionResolver Z (mgr Z w') = None /\
    lookup 2%positive (timers Z w') = None.
Proof.
  assert (H1 : connectionState Z (mgr Z (new_managerZ options_default))
               <> connected) by discriminate.
  assert (H2 : connectionState Z (mgr Z (new_managerZ options_default))
               <> connecting) by discriminate.
  split; [exact H1|]. split; [exact H2|].
  split; [reflexivity|]. split; [reflexivity|].
  destruct (connect_resolves_when_socket_opens Z Json.truthy Json.toString
              0%Z Json.parse Samples.legacy_table Samples.KicksGifted
              Samples.query "ana" 668%Z (new_managerZ options_default)
              H1 H2 eq_refl eq_refl)
    as (w' & subscribed & frames & Hrun & _ & _ & _ & _ & _ & Hconn & _
        & Hres & _ & Htimer).
  exists w'. split; [exact Hrun|]. split; [exact Hconn|].
  split; [exact Hres | exact Htimer].
Defined.

Lemma disconnect_does_not_cancel_lookup_witness :
  connectionState Z (mgr Z (new_managerZ options_default)) <> connected /\
  connectionState Z (mgr Z (new_managerZ options_default)) <> connecting /\
  lookup 3%positive (fetches Z (new_managerZ options_default)) = None /\
  lookup 4%positive (sockets Z (new_managerZ options_default)) = None /\
  exists w',
    runZ (new_managerZ options_default)
         [ Call_connect Z "ana";
           Call_disconnect Z;
           ChannelInfo Z 3%positive (SocketCreated Z 668%Z);
           Ws_onopen Z 4%positive ]
    = Some w' /\
    isConnected Z w' = true /\
    isManualDisconnect Z (mgr Z w') = true.
Proof.
  assert (H1 : connectionState Z (mgr Z (new_managerZ options_default))
               <> connected) by discriminate.
  assert (H2 : connectionState Z (mgr Z (new_managerZ options_default))
               <> connecting) by discriminate.
  split; [exact H1|]. split; [exact H2|].
  split; [reflexivity|]. split; [reflexivity|].
  destruct (disconnect_does_not_cancel_lookup Z Json.truthy Json.toString
              0%Z Json.parse Samples.legacy_table Samples.KicksGifted
              Samples.query "ana" 668%Z (new_managerZ options_default)
              H1 H2 eq_refl eq_refl)
    as (w' & subscribed & frames & Hrun & _ & _ & _ & Hconn & Hmanual).
  exists w'. split; [exact Hrun|]. split; [exact Hconn | exact Hmanual].
Defined.

Lemma failed_lookup_rejects_connect_witness :
  connectionState Z (mgr Z (new_managerZ options_default)) <> connected /\
  connectionState Z (mgr Z (new_managerZ options_default)) <> connecting /\
  lookup 3%positive (fetches Z (new_managerZ options_default)) = None /\
  exists w',
    runZ (new_managerZ options_default) failed_events = Some w' /\
    trace Z w'
    = [ Emit Z "error" (ErrorPayload Z (AttemptError "offline"));
        Reject Z 1%positive (AttemptError "offline");
        Reject Z 1%positive (AttemptError "offline") ] /\
    connectionState Z (mgr Z w') = reconnecting.
Proof.
  assert (H1 : connectionState Z (mgr Z (new_managerZ options_default))
               <> connected) by discriminate.
  assert (H2 : connectionState Z (mgr Z (new_managerZ options_default))
               <> connecting) by discriminate.
  split; [exact H1|]. split; [exact H2|]. split; [reflexivity|].
  destruct (failed_lookup_rejects_connect Z Json.truthy Json.toString
              0%Z Json.parse Samples.legacy_table Samples.KicksGifted
              Samples.query "ana" (AttemptError "offline")
              (new_managerZ options_default) H1 H2 eq_refl)
    as (w' & Hrun & Htr & Hst & _).
  exists w'. split; [exact Hrun|]. split; [exact Htr | exact Hst].
Defined.

Lemma connect_timeout_rejects_connect_witness :
  connectionState Z (mgr Z (new_managerZ options_default)) <> connected /\
  connectionState Z (mgr Z (new_managerZ options_default)) <> connecting /\
  lookup 2%positive (timers Z (new_managerZ options_default)) = None /\
  lookup 3%positive (fetches Z (new_managerZ options_default)) = None /\
  exists w',
    runZ (new_managerZ options_default)
         [Call_connect Z "ana"; TimerFires Z 2%positive]
    = Some w' /\
    trace Z w'
    = [ Emit Z "error" (ErrorPayload Z (ConnectionTimeoutError 10000%N));
        Reject Z 1%positive (ConnectionTimeoutError 10000%N);
        Reject Z 1%positive (ConnectionTimeoutError 10000%N) ] /\
    lookup 3%positive (fetches Z w')
    = Some (FromConnect 1%positive 2%positive).
Proof.
  assert (H1 : connectionState Z (mgr Z (new_managerZ options_default))
               <> connected) by discriminate.
  assert (H2 : connectionState Z (mgr Z (new_managerZ options_default))
               <> connecting) by discriminate.
  split; [exact H1|]. split; [exact H2|].
  split; [reflexivity|]. split; [reflexivity|].
  destruct (connect_timeout_rejects_connect Z Json.truthy Json.toString
              0%Z Json.parse Samples.legacy_table Samples.KicksGifted
              Samples.query "ana" (new_managerZ options_default)
              H1 H2 eq_refl eq_refl)
    as (w' & Hrun & Htr & _ & _ & _ & _ & Hf).
  exists w'. split; [exact Hrun|]. split; [exact Htr | exact Hf].
Defined.

Abbreviation closed_world :=
  (from_option (stepZ open_world (Ws_onclose Z 4%positive 1006%N "gone"))
               open_world).

Lemma close_is_reported_and_retried_witness :
  stepZ open_world (Ws_onclose Z 4%positive 1006%N "gone")
  = Some closed_world /\
  connectionState Z (mgr Z closed_world) = reconnecting /\
  ws Z (mgr Z closed_world) = Some 4%positive /\
  readyState Z 4%positive closed_world = CLOSED /\
  isConnected Z closed_world = false.
Proof.
  assert (Hs : stepZ open_world (Ws_onclose Z 4%positive 1006%N "gone")
               = Some closed_world) by (vm_compute; reflexivity).
  split; [exact Hs|].
  destruct (close_is_reported_and_retried Z Json.truthy Json.toString 0%Z
              Json.parse Samples.legacy_table Samples.KicksGifted
              Samples.query 4%positive 1006%N "gone" open_world closed_world
              Hs)
    as (_ & Hst & _ & _ & Hws & Hready & Hconn).
  split; [exact Hst|]. split; [exact Hws|]. split; [exact Hready | exact Hconn].
Defined.

Lemma frames_only_on_open_current_socket_witness :
  stepZ socket_world (Ws_onopen Z 4%positive) = Some open_world /\
  exists more,
    trace Z open_world = trace Z socket_world ++ more /\
    forall s, In s (sends_on Z more) ->
              ws Z (mgr Z socket_world) = Some s /\
              is_open Z s open_world = true.
Proof.
  assert (Hs : stepZ socket_world (Ws_onopen Z 4%positive) = Some open_world)
    by (vm_compute; reflexivity).
  split; [exact Hs|].
  exact (frames_only_on_open_current_socket Z Json.truthy Json.toString 0%Z
           Json.parse Samples.legacy_table Samples.KicksGifted Samples.query
           socket_world (Ws_onopen Z 4%positive) open_world Hs).
Defined.

(** From the constructor: connect, the lookup answers and socket 4 is
    created, and the connection timeout fires while the socket is still
    connecting, which schedules reconnect timer 5. *)
Abbreviation timed_out_events :=
  [ Call_connect Z "ana";
    ChannelInfo Z 3%positive (SocketCreated Z 668%Z);
    TimerFires Z 2%positive ].

Abbreviation timed_out_world :=
  (from_option (runZ (new_managerZ options_default) timed_out_events)
               (new_managerZ options_default)).

Lemma late_close_defeats_manual_flag_witness :
  runZ (new_managerZ options_default) timed_out_events
  = Some timed_out_world /\
  lookup 5%positive (timers Z timed_out_world) = Some Reconnect /\
  lookup 5%positive (timers Z (disconnect Z timed_out_world)) = None /\
  exists w3,
    stepZ (connect Z "bea" (disconnect Z timed_out_world))
          (Ws_onclose Z 4%positive 1000%N "Manual disconnect")
    = Some w3 /\
    connectionState Z (mgr Z w3) = reconnecting /\
    reconnectTimer Z (mgr Z w3) = Some 9%positive /\
    In (9%positive, Reconnect) (timers Z w3) /\
    trace Z w3
    = trace Z (disconnect Z timed_out_world)
      ++ [ Emit Z "disconnect" (DisconnectPayload Z 1000%N "Manual disconnect");
           Reject Z 6%positive
                  (DisconnectedError 1000%N "Manual disconnect") ].
Proof.
  split; [vm_compute; reflexivity|].
  split; [vm_compute; reflexivity|].
  split; [vm_compute; reflexivity|].
  refine (proj2 (late_close_defeats_manual_flag Z Json.truthy Json.toString
                   0%Z Json.parse Samples.legacy_table Samples.KicksGifted
                   Samples.query "bea" 4%positive 1000%N "Manual disconnect"
                   timed_out_world _ _ _));
    [ vm_compute; reflexivity
    | right; vm_compute; reflexivity
    | vm_compute; reflexivity ].
Defined.
